(** * wp-theme-cli: the scaffolding script and its case transformers

    A shallow embedding of the script that scaffolds a WordPress theme from
    the starter template: the case transformers that the three generations of
    the script share, the prompt table of the evolved variant, and the bodies
    of two entry points, [bin/cli.js] (module [BinCli]) and the evolved variant
    with composer manifests, repo reset and prompt validation (module
    [EvolvedCli]).

    JavaScript strings are lists of 8-bit code units (U+0000..U+00FF); the
    character classes of the regular expressions of the script ([A-Z], [_-],
    \s, \w) and [toLowerCase] are written out on that range, and what is
    proved of strings is proved of the strings of that range.  Files, the
    console and external commands are a store, a trace and a parameter of the
    scripts; the scripts run with [process.argv[2]] and the answers of the
    prompt session given. *)

From Stdlib Require Import Ascii String List ZArith Bool.
From stdpp Require Import gmap strings list fin_maps.

Local Open Scope char_scope.

(** ** Strings and characters *)

Module JsString.

Definition str (s : string) : list ascii := list_ascii_of_string s.

Definition code (c : ascii) : N := N_of_ascii c.

Definition inRange (lo hi : N) (c : ascii) : bool :=
  ((lo <=? code c) && (code c <=? hi))%N.

(** [A-Z] *)
Definition isUpperAZ (c : ascii) : bool := inRange 65 90 c.
(** [a-z] *)
Definition isLowerAZ (c : ascii) : bool := inRange 97 122 c.
(** [0-9] *)
Definition isDigit (c : ascii) : bool := inRange 48 57 c.
(** \w *)
Definition isWordChar (c : ascii) : bool :=
  isUpperAZ c || isLowerAZ c || isDigit c || Ascii.eqb c "_".
(** [_-] *)
Definition isDashUnderscore (c : ascii) : bool :=
  Ascii.eqb c "_" || Ascii.eqb c "-".
(** \s, which is also the set removed by [trim]: TAB, LF, VT, FF, CR, SP, NBSP *)
Definition isWhiteSpace (c : ascii) : bool :=
  inRange 9 13 c || (code c =? 32)%N || (code c =? 160)%N.
(** the capital letters U+00C0..U+00DE, without the multiplication sign *)
Definition isLatin1Upper (c : ascii) : bool :=
  inRange 192 222 c && negb (code c =? 215)%N.
(** a letter that [toLowerCase] changes *)
Definition isUpper (c : ascii) : bool := isUpperAZ c || isLatin1Upper c.

Definition toLowerCaseChar (c : ascii) : ascii :=
  if isUpper c then ascii_of_N (code c + 32) else c.

(** [toUpperCase] is only applied to a single match of \w. *)
Definition toUpperCaseChar (c : ascii) : ascii :=
  if isLowerAZ c then ascii_of_N (code c - 32) else c.

(** [String.prototype.toLowerCase] on U+0000..U+00FF, where it is a map of
    code units: A-Z and the Latin-1 capitals move up by 32, everything else
    stays.  (Above that range it is not: U+0130 becomes two code units, and a
    capital without a lowercase mapping, such as U+1D400, stays as it is.) *)
Definition toLowerCase (s : list ascii) : list ascii := map toLowerCaseChar s.
Definition toUpperCase (s : list ascii) : list ascii := map toUpperCaseChar s.

(** String.prototype.trim *)
Fixpoint trimStart (s : list ascii) : list ascii :=
  match s with
  | [] => []
  | c :: s' => if isWhiteSpace c then trimStart s' else s
  end.

Definition trimEnd (s : list ascii) : list ascii := rev (trimStart (rev s)).

Definition trim (s : list ascii) : list ascii := trimEnd (trimStart s).

Fixpoint isPrefix (p s : list ascii) : bool :=
  match p, s with
  | [], _ => true
  | _ :: _, [] => false
  | a :: p', b :: s' => Ascii.eqb a b && isPrefix p' s'
  end.

(** GetSubstitution of ECMAScript: the expansion of a replacement string.
    [captures] are the capture groups of the match (none for a string
    pattern); there are no named groups in this program.  A dollar sign that
    starts no valid reference is copied and the scan goes on after it. *)
Definition digitValue (c : ascii) : nat := N.to_nat (code c - 48).

Fixpoint getSubstitution (matched pre post : list ascii)
    (captures : list (list ascii)) (template : list ascii) : list ascii :=
  match template with
  | [] => []
  | c :: rest =>
    if Ascii.eqb c "$" then
      match rest with
      | [] => [c]
      | d :: r =>
        if Ascii.eqb d "$" then "$" :: getSubstitution matched pre post captures r
        else if Ascii.eqb d "&" then matched ++ getSubstitution matched pre post captures r
        else if Ascii.eqb d "`" then pre ++ getSubstitution matched pre post captures r
        else if Ascii.eqb d "'" then post ++ getSubstitution matched pre post captures r
        else if isDigit d then
          let one :=
            match digitValue d with
            | O => c :: getSubstitution matched pre post captures rest
            | S i =>
              match nth_error captures i with
              | Some cap => cap ++ getSubstitution matched pre post captures r
              | None => c :: getSubstitution matched pre post captures rest
              end
            end in
          match r with
          | d2 :: r2 =>
            if isDigit d2 then
              match (10 * digitValue d + digitValue d2)%nat with
              | O => one
              | S i =>
                match nth_error captures i with
                | Some cap => cap ++ getSubstitution matched pre post captures r2
                | None => one
                end
              end
            else one
          | [] => one
          end
        else c :: getSubstitution matched pre post captures rest
      end
    else c :: getSubstitution matched pre post captures rest
  end.

(** [s.replace(/[cls]+/g, template)], and with [capture] the pattern
    [/([cls]+)/g]: every maximal run of characters of the class is replaced by
    the expansion of the template. *)
Definition emitRun (capture : bool) (template pre run post : list ascii)
    : list ascii :=
  match run with
  | [] => []
  | _ :: _ =>
    getSubstitution run pre post (if capture then [run] else []) template
  end.

Fixpoint replaceRunsFrom (cls : ascii -> bool) (capture : bool)
    (template pre run s : list ascii) : list ascii :=
  match s with
  | [] => emitRun capture template pre run []
  | c :: s' =>
    if cls c then replaceRunsFrom cls capture template pre (run ++ [c]) s'
    else emitRun capture template pre run s
           ++ c :: replaceRunsFrom cls capture template (pre ++ run ++ [c]) [] s'
  end.

Definition replaceRuns (cls : ascii -> bool) (capture : bool)
    (template s : list ascii) : list ascii :=
  replaceRunsFrom cls capture template [] [] s.

(** [s.replace(pattern, template)] with a string pattern: the first
    occurrence only. *)
Fixpoint replaceStringFrom (pattern template pre s : list ascii) : list ascii :=
  if isPrefix pattern s then
    getSubstitution pattern pre (drop (length pattern) s) [] template
      ++ drop (length pattern) s
  else
    match s with
    | [] => []
    | c :: s' => c :: replaceStringFrom pattern template (pre ++ [c]) s'
    end.

Definition replaceString (pattern template s : list ascii) : list ascii :=
  replaceStringFrom pattern template [] s.

(** [s.replace(/lit/g, template)] for a pattern without metacharacters: every
    occurrence, scanning on after each match.  [skip] counts the characters of
    the current match still to be passed over. *)
Fixpoint replaceAllFrom (lit template pre : list ascii) (skip : nat)
    (s : list ascii) : list ascii :=
  match s with
  | [] => []
  | c :: s' =>
    match skip with
    | S k => replaceAllFrom lit template (pre ++ [c]) k s'
    | O =>
      if isPrefix lit s then
        getSubstitution lit pre (drop (length lit) s) [] template
          ++ replaceAllFrom lit template (pre ++ [c]) (length lit - 1) s'
      else c :: replaceAllFrom lit template (pre ++ [c]) 0 s'
    end
  end.

Definition replaceAll (lit template s : list ascii) : list ascii :=
  replaceAllFrom lit template [] 0 s.

(** [/\s/.test(s)] and the like *)
Definition testClass (cls : ascii -> bool) (s : list ascii) : bool :=
  existsb cls s.

(** [s.split(sep)] for a one-character separator *)
Fixpoint splitFrom (sep : ascii) (cur s : list ascii) : list (list ascii) :=
  match s with
  | [] => [cur]
  | c :: s' =>
    if Ascii.eqb c sep then cur :: splitFrom sep [] s'
    else splitFrom sep (cur ++ [c]) s'
  end.

Definition split (sep : ascii) (s : list ascii) : list (list ascii) :=
  splitFrom sep [] s.

(** [l.join(sep)] *)
Fixpoint join (sep : list ascii) (l : list (list ascii)) : list ascii :=
  match l with
  | [] => []
  | x :: l' =>
    match l' with
    | [] => x
    | _ :: _ => x ++ sep ++ join sep l'
    end
  end.

End JsString.

Import JsString.

(** ** Case Transformer (the same five functions in the three variants,
       [kebabCase] in the evolved one only) *)

Module CaseTransformer.

Definition stripCase (s : list ascii) : list ascii :=
  toLowerCase
    (trim
      (replaceRuns isWhiteSpace false (str " ")
        (replaceRuns isDashUnderscore false (str " ")
          (replaceRuns isUpperAZ true (str " $1") s)))).

(** [str.replace(/\b\w/g, (match) => match.toUpperCase())]: a word character
    is matched when the character before it is not one. *)
Fixpoint upperCaseWordsFrom (prevWord : bool) (s : list ascii) : list ascii :=
  match s with
  | [] => []
  | c :: s' =>
    (if isWordChar c && negb prevWord then toUpperCase [c] else [c])
      ++ upperCaseWordsFrom (isWordChar c) s'
  end.

Definition upperCaseWords (s : list ascii) : list ascii :=
  upperCaseWordsFrom false s.

Definition titleCase (s : list ascii) : list ascii :=
  upperCaseWords (stripCase s).

Definition snakeCase (s : list ascii) : list ascii :=
  replaceRuns isWhiteSpace false (str "_") (stripCase s).

Definition titleSnakeCase (s : list ascii) : list ascii :=
  replaceRuns isWhiteSpace false (str "_") (titleCase s).

Definition kebabCase (s : list ascii) : list ascii :=
  replaceRuns isWhiteSpace false (str "-") (stripCase s).

End CaseTransformer.

Import CaseTransformer.

(** ** The normal form of [stripCase], in the words of its description *)

Module CaseSpec.

(** a space before each run of capital letters *)
Fixpoint spaceBeforeUpperRuns (inRun : bool) (s : list ascii) : list ascii :=
  match s with
  | [] => []
  | c :: s' =>
    if isUpperAZ c then
      (if inRun then [c] else [" "; c]) ++ spaceBeforeUpperRuns true s'
    else c :: spaceBeforeUpperRuns false s'
  end.

(** each run of characters of a class becomes the one character [r] *)
Fixpoint runsToChar (cls : ascii -> bool) (r : ascii) (inRun : bool)
    (s : list ascii) : list ascii :=
  match s with
  | [] => []
  | c :: s' =>
    if cls c then
      (if inRun then [] else [r]) ++ runsToChar cls r true s'
    else c :: runsToChar cls r false s'
  end.

Definition stripCaseSpec (s : list ascii) : list ascii :=
  toLowerCase
    (trim
      (runsToChar isWhiteSpace " " false
        (runsToChar isDashUnderscore " " false
          (spaceBeforeUpperRuns false s)))).

Definition hasUpper (s : list ascii) : bool := existsb isUpper s.
Definition hasDashUnderscore (s : list ascii) : bool := existsb isDashUnderscore s.
Definition startsWithSpace (s : list ascii) : bool :=
  match s with
  | [] => false
  | c :: _ => isWhiteSpace c
  end.
Definition endsWithSpace (s : list ascii) : bool := startsWithSpace (rev s).
Fixpoint hasDoubleSpace (s : list ascii) : bool :=
  match s with
  | [] => false
  | a :: s' => (isWhiteSpace a && startsWithSpace s') || hasDoubleSpace s'
  end.
(** a whitespace character other than U+0020 *)
Definition isOddSpace (c : ascii) : bool := isWhiteSpace c && negb (Ascii.eqb c " ").
Definition hasOddSpace (s : list ascii) : bool := existsb isOddSpace s.

(** the strings [stripCase] produces *)
Definition stripped (s : list ascii) : bool :=
  negb (hasUpper s) && negb (hasDashUnderscore s) && negb (hasOddSpace s)
  && negb (startsWithSpace s) && negb (endsWithSpace s) && negb (hasDoubleSpace s).

(** every whitespace character replaced by the separator [r] *)
Definition separated (r : ascii) (t : list ascii) : list ascii :=
  map (fun c => if isWhiteSpace c then r else c) t.

(** letters, digits, underscores, hyphens and whitespace only *)
Definition plainChar (c : ascii) : bool :=
  isWordChar c || isWhiteSpace c || Ascii.eqb c "-".
Definition plainWords (s : list ascii) : bool := forallb plainChar s.

(** lowercase letters, digits and U+0020 only *)
Definition simpleChar (c : ascii) : bool :=
  isLowerAZ c || isDigit c || Ascii.eqb c " ".

Definition startsWithLetter (s : list ascii) : bool :=
  match s with
  | [] => false
  | c :: _ => isLowerAZ c
  end.

End CaseSpec.

Import CaseSpec.

(** ** The banner pattern of the README pass *)

Module Banner.

(** LF and CR, the line terminators that [.] does not match without the [s] flag *)
Definition isLineTerminator (c : ascii) : bool :=
  (code c =? 10)%N || (code c =? 13)%N.

(** a prefix test under the [i] flag *)
Fixpoint isPrefixCI (p s : list ascii) : bool :=
  match p, s with
  | [], _ => true
  | _ :: _, [] => false
  | a :: p', b :: s' =>
    Ascii.eqb (toLowerCaseChar a) (toLowerCaseChar b) && isPrefixCI p' s'
  end.

(** where the greedy [.*] stops: the last place the closing text matches *)
Fixpoint lastClose (dotAll : bool) (closing s : list ascii) : option nat :=
  let here := if isPrefixCI closing s then Some O else None in
  match s with
  | [] => here
  | c :: s' =>
    if dotAll || negb (isLineTerminator c) then
      match lastClose dotAll closing s' with
      | Some j => Some (S j)
      | None => here
      end
    else here
  end.

(** [s.replace(/opening.*closing/gim, template)], with the [s] flag when
    [dotAll] *)
Fixpoint replaceBetweenFrom (dotAll : bool) (opening closing template pre : list ascii)
    (skip : nat) (s : list ascii) : list ascii :=
  match s with
  | [] => []
  | c :: s' =>
    match skip with
    | S k => replaceBetweenFrom dotAll opening closing template (pre ++ [c]) k s'
    | O =>
      match (if isPrefixCI opening s
             then lastClose dotAll closing (drop (length opening) s)
             else None) with
      | Some j =>
        let n := (length opening + j + length closing)%nat in
        getSubstitution (take n s) pre (drop n s) [] template
          ++ replaceBetweenFrom dotAll opening closing template (pre ++ [c]) (n - 1) s'
      | None => c :: replaceBetweenFrom dotAll opening closing template (pre ++ [c]) 0 s'
      end
    end
  end.

Definition replaceBetween (dotAll : bool) (opening closing template s : list ascii)
    : list ascii :=
  replaceBetweenFrom dotAll opening closing template [] 0 s.

End Banner.

(** ** Prompt Collector *)

Module Prompts.

(** the double quote, the line feed and the tab *)
Definition dq : ascii := Eval cbv in ascii_of_N 34.
Definition nl : ascii := Eval cbv in ascii_of_N 10.
Definition tab : ascii := Eval cbv in ascii_of_N 9.

(** what a [validate] function returns: [true], or the message to show *)
Inductive Validation :=
| Accept
| Reject (msg : list ascii).

Record Question := {
  name : list ascii;
  message : list ascii;
  (** [initial(prev, values)]; [None] when there is no initial value: the
      function returns [undefined] or throws on a property that is not set *)
  initial : list ascii -> gmap (list ascii) (list ascii) -> option (list ascii);
  validate : list ascii -> Validation
}.

Definition noValidate (value : list ascii) : Validation := Accept.

Definition constant (s : list ascii) (prev : list ascii)
    (values : gmap (list ascii) (list ascii)) : option (list ascii) := Some s.

Definition funcPrefixValidate (value : list ascii) : Validation :=
  if testClass isWhiteSpace value
  then Reject (str "Function prefix must not contain any spaces.")
  else Accept.

Definition classPrefixValidate (value : list ascii) : Validation :=
  if testClass isWhiteSpace value
  then Reject (str "Class prefix must not contain any spaces.")
  else Accept.

Definition funcPrefixInitial (prev : list ascii)
    (values : gmap (list ascii) (list ascii)) : option (list ascii) :=
  match values !! str "slug" with
  | Some slug => Some (snakeCase slug ++ str "_")
  | None => None
  end.

Definition classPrefixInitial (prev : list ascii)
    (values : gmap (list ascii) (list ascii)) : option (list ascii) :=
  match values !! str "slug" with
  | Some slug => Some (titleSnakeCase slug ++ str "_")
  | None => None
  end.

(** a property that is not set reads as [undefined]: it equals no string,
    and a template literal spells it out *)
Definition interpolate (value : option (list ascii)) : list ascii :=
  match value with
  | Some s => s
  | None => str "undefined"
  end.

Definition githubUriInitial (prev : list ascii)
    (values : gmap (list ascii) (list ascii)) : option (list ascii) :=
  if bool_decide (values !! str "authorName" = Some (str "Denman Digital"))
     || bool_decide (values !! str "authorUri" = Some (str "https://denman.digital/"))
  then Some (str "https://github.com/Denman-Digital/" ++ interpolate (values !! str "slug"))
  else Some [].

(** the questions of the evolved variant; [repoName] is [process.argv[2]] *)
Definition questions (repoName : list ascii) : list Question :=
  [ {| name := str "slug"; message := str "Theme slug";
       initial := constant
         (if negb (bool_decide (repoName = [])) && negb (bool_decide (repoName = str "."))
          then repoName else str "my-project");
       validate := noValidate |};
    {| name := str "displayName"; message := str "Theme display name";
       initial := fun prev _ => Some (titleCase prev);
       validate := noValidate |};
    {| name := str "description"; message := str "Theme description";
       initial := constant (str "Modern responsive WordPress Theme.");
       validate := noValidate |};
    {| name := str "authorName"; message := str "Author name";
       initial := constant (str "Denman Digital");
       validate := noValidate |};
    {| name := str "authorSlug"; message := str "Author slug/GitHub username";
       initial := fun prev _ => Some (kebabCase prev);
       validate := noValidate |};
    {| name := str "authorUri"; message := str "Author URL";
       initial := fun prev _ =>
         Some (if bool_decide (prev = str "Denman Digital")
               then str "https://denman.digital/" else []);
       validate := noValidate |};
    {| name := str "githubUri"; message := str "GitHub repository URL";
       initial := githubUriInitial;
       validate := noValidate |};
    {| name := str "uri"; message := str "Theme homepage";
       initial := fun prev _ =>
         Some (match prev with [] => [] | _ :: _ => prev ++ str "#readme" end);
       validate := noValidate |};
    {| name := str "keywords"; message := str "Theme keywords";
       initial := constant (str "responsive, modern");
       validate := noValidate |};
    {| name := str "textDomain"; message := str "Theme text-domain";
       initial := fun _ values => values !! str "slug";
       validate := noValidate |};
    {| name := str "funcPrefix"; message := str "Theme function prefix";
       initial := funcPrefixInitial;
       validate := funcPrefixValidate |};
    {| name := str "classPrefix"; message := str "Theme class prefix";
       initial := classPrefixInitial;
       validate := classPrefixValidate |} ].

(** the question asked under a name *)
Definition question (repoName n : list ascii) : option Question :=
  List.find (fun q => bool_decide (name q = n)) (questions repoName).

(** The text prompt of the [prompts] package: the value submitted is what was
    typed, or the initial value when nothing was typed; a value the validator
    rejects is not submitted, its message is shown and the question stays
    open.  [typed] lists what the user submits, in order; the result is the
    accepted value ([None] when the input ends first) and the messages shown. *)
Definition submitted (dflt typed : list ascii) : list ascii :=
  match typed with
  | [] => dflt
  | _ :: _ => typed
  end.

Fixpoint ask (q : Question) (dflt : list ascii) (typed : list (list ascii))
    : option (list ascii) * list (list ascii) :=
  match typed with
  | [] => (None, [])
  | t :: later =>
    match validate q (submitted dflt t) with
    | Accept => (Some (submitted dflt t), [])
    | Reject msg =>
      let (answer, shown) := ask q dflt later in (answer, msg :: shown)
    end
  end.

(** the session: the questions in order, each with the previous answer and
    the answers so far; it stops at the first question left unanswered *)
Fixpoint collect (qs : list Question) (prev : list ascii)
    (values : gmap (list ascii) (list ascii)) (input : list (list (list ascii)))
    : gmap (list ascii) (list ascii) :=
  match qs, input with
  | q :: qs', typed :: input' =>
    match initial q prev values with
    | Some dflt =>
      match fst (ask q dflt typed) with
      | Some answer => collect qs' answer (<[name q := answer]> values) input'
      | None => values
      end
    | None => values
    end
  | _, _ => values
  end.

End Prompts.

(** ** The runtime: file store, console, exceptions and process exit *)

Module Runtime.

Import Prompts.

Inductive JsError :=
| ReferenceError (identifier : list ascii)
| NoEntry (path : list ascii)
| CommandFailed (command : list ascii)
| NoFilesMatch (pattern : list ascii)
| TypeError (message : list ascii).

Inductive Event :=
| ConsoleLog (msg : list ascii)
| ConsoleWarn (msg : list ascii)
| ConsoleError (msg : list ascii)
| ConsoleErrorValue (e : JsError)
| ExecSync (command : list ascii)
| Sleep (ms : Z)
| ReplaceRead (path : list ascii)
| ReplaceWrite (path : list ascii).

Record World := {
  files : gmap (list ascii) (list ascii);
  trace : list Event
}.

(** a computation returns, throws, or ends the process with [process.exit] *)
Inductive Result (A : Type) :=
| Value (a : A)
| Thrown (e : JsError)
| Exited (code : Z).
Arguments Value {A} a.
Arguments Thrown {A} e.
Arguments Exited {A} code.

Definition M (A : Type) : Type := World -> Result A * World.

Definition ret {A} (a : A) : M A := fun w => (Value a, w).

Definition bind {A B} (m : M A) (k : A -> M B) : M B :=
  fun w =>
    match m w with
    | (Value a, w') => k a w'
    | (Thrown e, w') => (Thrown e, w')
    | (Exited c, w') => (Exited c, w')
    end.

Notation "'let*' x ':=' m 'in' k" := (bind m (fun x => k))
  (at level 10, x name, m at level 100, k at level 200).
Notation "m ;; k" := (bind m (fun _ => k))
  (at level 100, k at level 200, right associativity).

Definition throw {A} (e : JsError) : M A := fun w => (Thrown e, w).

Definition processExit {A} (code : Z) : M A := fun w => (Exited code, w).

(** [try { body } catch (error) { handler }]; [process.exit] is not caught *)
Definition tryCatch {A} (body : M A) (handler : JsError -> M A) : M A :=
  fun w =>
    match body w with
    | (Thrown e, w') => handler e w'
    | other => other
    end.

Definition emit (e : Event) : M unit :=
  fun w => (Value tt, {| files := files w; trace := trace w ++ [e] |}).

Definition consoleLog (msg : list ascii) : M unit := emit (ConsoleLog msg).
Definition consoleWarn (msg : list ascii) : M unit := emit (ConsoleWarn msg).
Definition consoleError (msg : list ascii) : M unit := emit (ConsoleError msg).

Definition when (b : bool) (m : M unit) : M unit := if b then m else ret tt.

(** the status the operating system sees for [process.exit(code)] *)
Definition exitStatus (code : Z) : Z := code mod 256.

(** how the process ends: with a status, or with the promise of the top-level
    async function rejected and not handled *)
Inductive Termination :=
| Status (status : Z)
| UnhandledRejection (e : JsError).

Definition termination (r : Result unit) : Termination :=
  match r with
  | Value _ => Status 0
  | Exited code => Status (exitStatus code)
  | Thrown e => UnhandledRejection e
  end.

(** *** fs/promises *)

Definition fsAccess (path : list ascii) : M unit :=
  fun w =>
    match files w !! path with
    | Some _ => (Value tt, w)
    | None => (Thrown (NoEntry path), w)
    end.

Definition fsRm (path : list ascii) : M unit :=
  fun w =>
    match files w !! path with
    | Some _ => (Value tt, {| files := delete path (files w); trace := trace w |})
    | None => (Thrown (NoEntry path), w)
    end.

Definition fsRename (oldPath newPath : list ascii) : M unit :=
  fun w =>
    match files w !! oldPath with
    | Some content =>
      (Value tt, {| files := <[newPath := content]> (delete oldPath (files w));
                    trace := trace w |})
    | None => (Thrown (NoEntry oldPath), w)
    end.

(** [path.join] on strings (POSIX): the arguments that are not empty are
    joined with a slash and the result is normalised.  Normalisation reads
    the segments between slashes from left to right: an empty segment and [.]
    are dropped, [..] takes back the segment before it (or is kept, in a
    relative path, when there is none to take back), any other segment is
    kept.  [stack] holds the segments kept so far, the last one first. *)
Definition normalizeStep (allowAboveRoot : bool) (stack : list (list ascii))
    (segment : list ascii) : list (list ascii) :=
  if bool_decide (segment = []) || bool_decide (segment = str ".") then stack
  else if bool_decide (segment = str "..") then
    match stack with
    | top :: below =>
      if bool_decide (top = str "..")
      then (if allowAboveRoot then segment :: stack else stack)
      else below
    | [] => if allowAboveRoot then [segment] else []
    end
  else segment :: stack.

Definition endsWithSlash (path : list ascii) : bool :=
  match rev path with
  | c :: _ => Ascii.eqb c "/"
  | [] => false
  end.

Definition normalize (path : list ascii) : list ascii :=
  match path with
  | [] => str "."
  | first :: _ =>
    let isAbsolute := Ascii.eqb first "/" in
    let kept :=
      rev (fold_left (normalizeStep (negb isAbsolute)) (split "/" path) []) in
    match kept with
    | [] => if isAbsolute then str "/"
            else if endsWithSlash path then str "./" else str "."
    | _ :: _ =>
      (if isAbsolute then str "/" else [])
      ++ join (str "/") kept
      ++ (if endsWithSlash path then str "/" else [])
    end
  end.

Definition pathJoin (segments : list (list ascii)) : list ascii :=
  match List.filter (fun s => negb (bool_decide (s = []))) segments with
  | [] => str "."
  | joined => normalize (join (str "/") joined)
  end.

(** a file or directory name: not empty, no slash, neither [.] nor [..] *)
Definition plainName (name : list ascii) : Prop :=
  name <> [] /\ existsb (Ascii.eqb "/") name = false /\
  name <> str "." /\ name <> str "..".

(** what [path.join] makes of the directory, before the names under it *)
Definition pathBase (r : list ascii) : list ascii :=
  match r with
  | [] => []
  | first :: _ =>
    (if Ascii.eqb first "/" then str "/" else [])
    ++ match rev (fold_left (normalizeStep (negb (Ascii.eqb first "/")))
                    (split "/" r) []) with
       | [] => []
       | kept => join (str "/") kept ++ str "/"
       end
  end.

(** what [path.join] throws for an argument that is not a string *)
Definition invalidPathArgument : JsError :=
  TypeError (str "The " ++ [dq] ++ str "path" ++ [dq]
             ++ str " argument must be of type string. Received undefined").

(** *** replace-in-file *)

Inductive Pattern :=
| Text (s : list ascii)                      (** a string: first occurrence *)
| Global (lit : list ascii)                  (** [/lit/g] *)
| Between (dotAll : bool) (opening closing : list ascii).

Inductive Replacement :=
| One (s : list ascii)
| Each (l : list (list ascii)).

Inductive Selector :=
| Paths (l : list (list ascii))
| Glob (pattern : list ascii) (ignore : option (list ascii)).

Record ReplaceConfig := {
  selector : Selector;
  from : list Pattern;
  to : Replacement;
  dry : bool
}.

Definition applyPattern (p : Pattern) (template contents : list ascii) : list ascii :=
  match p with
  | Text s => replaceString s template contents
  | Global lit => replaceAll lit template contents
  | Between dotAll opening closing =>
    Banner.replaceBetween dotAll opening closing template contents
  end.

(** the replacements of one file, in the order of [from]; an index past the
    end of the [to] array is skipped *)
Fixpoint makeReplacements (from : list Pattern) (to : Replacement) (i : nat)
    (contents : list ascii) : list ascii :=
  match from with
  | [] => contents
  | p :: from' =>
    let replaced :=
      match to with
      | One s => applyPattern p s contents
      | Each l =>
        match l !! i with
        | Some s => applyPattern p s contents
        | None => contents
        end
      end in
    makeReplacements from' to (S i) replaced
  end.

Section ReplaceInFiles.

(** the glob package: whether a path matches a pattern *)
Variable globMatch : list ascii -> list ascii -> bool.

(** the glob package on one pattern: the files it matches, those under
    [ignore] left out *)
Definition globFiles (pattern : list ascii) (ignore : option (list ascii))
    (fs : gmap (list ascii) (list ascii)) : list (list ascii) :=
  filter (fun p => globMatch pattern p
                   && match ignore with
                      | Some i => negb (globMatch i p)
                      | None => true
                      end = true)
         (map fst (map_to_list fs)).

(** a listed path is a pattern without glob characters (a directory name
    with such characters is not modelled): it matches the file of that name,
    if there is one *)
Definition namedFile (path : list ascii) (fs : gmap (list ascii) (list ascii))
    : list (list ascii) :=
  match fs !! path with
  | Some _ => [path]
  | None => []
  end.

(** every pattern of [files] is globbed before any file is read; a pattern
    that matches no file rejects the whole call with
    [No files match the pattern: <pattern>] (the first such pattern, in the
    order of [files]). [inl] is the pattern of the rejection, [inr] the paths
    found *)
Fixpoint getPaths (found : list ascii -> list (list ascii))
    (patterns : list (list ascii)) : list ascii + list (list ascii) :=
  match patterns with
  | [] => inr []
  | pattern :: patterns' =>
    match found pattern with
    | [] => inl pattern
    | paths =>
      match getPaths found patterns' with
      | inl missing => inl missing
      | inr paths' => inr (paths ++ paths')
      end
    end
  end.

Definition resolve (sel : Selector) (fs : gmap (list ascii) (list ascii))
    : list ascii + list (list ascii) :=
  match sel with
  | Paths l => getPaths (fun path => namedFile path fs) l
  | Glob pattern ignore => getPaths (fun p => globFiles p ignore fs) [pattern]
  end.

Definition replaceInFile (cfg : ReplaceConfig) (path : list ascii) : M unit :=
  fun w =>
    match files w !! path with
    | None => (Thrown (NoEntry path), w)
    | Some contents =>
      let w1 := {| files := files w; trace := trace w ++ [ReplaceRead path] |} in
      let contents' := makeReplacements (from cfg) (to cfg) 0 contents in
      if bool_decide (contents' = contents) || dry cfg then (Value tt, w1)
      else (Value tt, {| files := <[path := contents']> (files w1);
                         trace := trace w1 ++ [ReplaceWrite path] |})
    end.

Fixpoint forEach (f : list ascii -> M unit) (l : list (list ascii)) : M unit :=
  match l with
  | [] => ret tt
  | p :: l' => f p ;; forEach f l'
  end.

(** the call: the paths are found first, then each file is read, replaced
    and, when it changed and the call is not a dry run, written (one file
    after the other here; the files of a call are different files) *)
Definition replaceInFiles (cfg : ReplaceConfig) : M unit :=
  fun w =>
    match resolve (selector cfg) (files w) with
    | inl pattern => (Thrown (NoFilesMatch pattern), w)
    | inr paths => forEach (replaceInFile cfg) paths w
    end.

End ReplaceInFiles.

(** *** child_process *)

Section Commands.

(** what running a command does to the files, and whether it succeeds *)
Variable shell : list ascii -> gmap (list ascii) (list ascii)
                 -> bool * gmap (list ascii) (list ascii).

Definition execSync (command : list ascii) : M unit :=
  fun w =>
    let (ok, fs) := shell command (files w) in
    let w' := {| files := fs; trace := trace w ++ [ExecSync command] |} in
    if ok then (Value tt, w') else (Thrown (CommandFailed command), w').

Definition runCommand (command : list ascii) : M bool :=
  tryCatch (execSync command ;; ret true)
    (fun error =>
       consoleError (str "Failed to execute " ++ [dq] ++ command ++ [dq]) ;;
       emit (ConsoleErrorValue error) ;;
       ret false).

End Commands.

(** *** timers and the identifiers in scope *)

(** the names a script can use unqualified: those Node provides, and those the
    script binds at its top level *)
Definition nodeGlobals : list (list ascii) :=
  map str ["require"; "process"; "console"; "Promise"; "setTimeout"]%string.

Definition lookupIdentifier (scope : list (list ascii)) (identifier : list ascii)
    : M unit :=
  if existsb (fun x => bool_decide (x = identifier)) scope then ret tt
  else throw (ReferenceError identifier).

End Runtime.

(** ** The Answer Set *)

Record Answers := {
  slug : list ascii;
  displayName : list ascii;
  description : list ascii;
  authorName : list ascii;
  authorSlug : list ascii;
  authorUri : list ascii;
  githubUri : list ascii;
  uri : list ascii;
  keywords : list ascii;
  textDomain : list ascii;
  funcPrefix : list ascii;
  classPrefix : list ascii
}.

(** the answers of a session in which every default is taken *)
Definition defaultAnswers : Answers :=
  {| slug := str "my-project";
     displayName := str "My Project";
     description := str "Modern responsive WordPress Theme.";
     authorName := str "Denman Digital";
     authorSlug := str "denman-digital";
     authorUri := str "https://denman.digital/";
     githubUri := str "https://github.com/Denman-Digital/my-project";
     uri := str "https://github.com/Denman-Digital/my-project#readme";
     keywords := str "responsive, modern";
     textDomain := str "my-project";
     funcPrefix := str "my_project_";
     classPrefix := str "My_Project_" |}.

Definition withKeywords (kw : list ascii) (a : Answers) : Answers :=
  {| slug := slug a; displayName := displayName a; description := description a;
     authorName := authorName a; authorSlug := authorSlug a; authorUri := authorUri a;
     githubUri := githubUri a; uri := uri a; keywords := kw;
     textDomain := textDomain a; funcPrefix := funcPrefix a;
     classPrefix := classPrefix a |}.

(** ** Token Substitution Engine: what the passes share *)

Module Tokens.

Import Prompts.

(** the token of the manifest pass, quotes included *)
Definition quotedKeywordsToken : list ascii :=
  [dq] ++ str "<theme_keywords>" ++ [dq].

(** [keywords.split(",").map((str) => `"${str.trim()}"`).join(", ")] *)
Definition quotedKeywords (keywords : list ascii) : list ascii :=
  join (str ", ") (map (fun s => [dq] ++ trim s ++ [dq]) (split "," keywords)).

Definition readmeHeading (a : Answers) (tail : list ascii) : list ascii :=
  str "# " ++ displayName a ++ [nl; nl] ++ description a ++ [nl; nl]
  ++ str "Based on [Denman WP Theme Starter](https://github.com/Denman-Digital/wp-theme-starter/)"
  ++ tail.

(** a dollar sign followed by one of [$], [&], a backtick or an apostrophe:
    the references a replacement string can make when the pattern is a string *)
Fixpoint hasReference (template : list ascii) : bool :=
  match template with
  | [] => false
  | c :: rest =>
    (Ascii.eqb c "$"
     && match rest with
        | [] => false
        | d :: _ => Ascii.eqb d "$" || Ascii.eqb d "&" || Ascii.eqb d "`" || Ascii.eqb d "'"
        end)
    || hasReference rest
  end.

Definition isReferenceChar (d : ascii) : bool :=
  Ascii.eqb d "$" || Ascii.eqb d "&" || Ascii.eqb d "`" || Ascii.eqb d "'".

Definition startsWithReferenceChar (s : list ascii) : bool :=
  match s with
  | [] => false
  | d :: _ => isReferenceChar d
  end.

(** the offset of the first occurrence, [indexOf] *)
Fixpoint indexOf (pattern s : list ascii) : option nat :=
  if isPrefix pattern s then Some O
  else
    match s with
    | [] => None
    | _ :: s' =>
      match indexOf pattern s' with
      | Some i => Some (S i)
      | None => None
      end
    end.

End Tokens.

(** ** The evolved variant *)

Module EvolvedCli.

Import Prompts Runtime Tokens.

(** the top-level bindings of the script *)
Definition moduleScope : list (list ascii) :=
  map str ["execSync"; "prompts"; "replaceInFiles"; "fs"; "path"; "stripCase";
           "upperCaseWords"; "titleCase"; "snakeCase"; "titleSnakeCase";
           "kebabCase"; "setTimer"; "runCommand"; "repoName"; "commands";
           "paths"]%string.

Section Script.

Variable globMatch : list ascii -> list ascii -> bool.
Variable shell : list ascii -> gmap (list ascii) (list ascii)
                 -> bool * gmap (list ascii) (list ascii).
(** the identifiers that resolve; [moduleScope ++ nodeGlobals] for the script *)
Variable scope : list (list ascii).
(** [process.argv[2]] *)
Variable repoName : list ascii.

(** [new Promise((resolve) => { setTimeout(resolve, toNumber(duration)); })]:
    the executor runs at once, and what it throws rejects the promise. *)
Definition setTimer (duration : Z) : M unit :=
  lookupIdentifier scope (str "setTimeout") ;;
  lookupIdentifier scope (str "toNumber") ;;
  emit (Sleep duration).

Definition gitCheckout : list ascii :=
  str "git clone -b npx --depth 1 https://github.com/Denman-Digital/wp-theme-starter.git  "
  ++ repoName.
Definition newRepo : list ascii :=
  str "cd " ++ repoName
  ++ str " && rm -rf .git && git init && git add --all && git commit -m "
  ++ [dq] ++ str "Created new theme from wp-theme-starter" ++ [dq].
Definition installDeps : list ascii :=
  str "cd " ++ repoName ++ str " && npm install".

Definition package : list ascii := pathJoin [repoName; str "package.json"].
Definition packageSample : list ascii := pathJoin [repoName; str "package-sample.json"].
Definition composer : list ascii := pathJoin [repoName; str "composer.json"].
Definition composerSample : list ascii := pathJoin [repoName; str "composer-sample.json"].
Definition composerIncludes : list ascii :=
  pathJoin [repoName; str "includes"; str "composer.json"].
Definition composerIncludesSample : list ascii :=
  pathJoin [repoName; str "includes"; str "composer-sample.json"].
Definition styleCSS : list ascii := pathJoin [repoName; str "style.css"].

(** the first [try] block *)
Definition promotePackage : M unit :=
  tryCatch
    (fsAccess packageSample ;;
     consoleLog (nl :: str "Generating new package.json from package-sample.json") ;;
     fsRm package ;;
     fsRename packageSample package)
    (fun _ =>
       consoleError (str "Unable to generate new package.json from package-sample.json")).

(** the second [try] block *)
Definition promoteComposer : M unit :=
  tryCatch
    (fsAccess packageSample ;;
     consoleLog (nl :: str "Generating new composer.json's from composer-sample.json's") ;;
     fsRm composer ;;
     fsRename composerSample composer ;;
     fsRm composerIncludes ;;
     fsRename composerIncludesSample composerIncludes)
    (fun _ => consoleError (str "Unable to generate new composer.json's")).

Definition promoteManifests : M unit := promotePackage ;; promoteComposer.

Variable a : Answers.

Definition metadataPass : ReplaceConfig :=
  {| selector := Paths [styleCSS; package; composer; composerIncludes];
     from := [Global (str "<theme_slug>"); Global (str "<theme_display_name>");
              Global (str "<theme_description>"); Global (str "<theme_author_name>");
              Global (str "<theme_author_uri>"); Global (str "<theme_author_slug>");
              Global (str "<theme_github_uri>"); Global (str "<theme_uri>");
              Global (str "wp-theme-starter-text-domain")];
     to := Each [slug a; displayName a; description a; authorName a; authorUri a;
                 authorSlug a; githubUri a; uri a; textDomain a];
     dry := false |}.

Definition styleKeywordsPass : ReplaceConfig :=
  {| selector := Paths [styleCSS];
     from := [Text (str "<theme_keywords>")];
     to := One (keywords a);
     dry := false |}.

Definition manifestKeywordsPass : ReplaceConfig :=
  {| selector := Paths [package; composer; composerIncludes];
     from := [Text quotedKeywordsToken];
     to := One (quotedKeywords (keywords a));
     dry := false |}.

Definition phpPass : ReplaceConfig :=
  {| selector := Glob (pathJoin [repoName; str "**/*.php"]) (Some (str "**/vendor/**/*.php"));
     from := [Global (str "<theme_slug>"); Global (str "wp-theme-starter-text-domain");
              Global (str "wp_theme_starter_"); Global (str "WP_Theme_Starter_")];
     to := Each [slug a; textDomain a; funcPrefix a; classPrefix a];
     dry := false |}.

Definition readmePass : ReplaceConfig :=
  {| selector := Paths [pathJoin [repoName; str "readme.md"]];
     from := [Between true (str "<!-- start_banner") (str "end_banner -->")];
     to := One (readmeHeading a [nl; nl]);
     dry := false |}.

(** the third [try] block *)
Definition substitute : M unit :=
  tryCatch
    (consoleLog (str "Customizing theme metadata") ;;
     replaceInFiles globMatch metadataPass ;;
     replaceInFiles globMatch styleKeywordsPass ;;
     replaceInFiles globMatch manifestKeywordsPass ;;
     replaceInFiles globMatch phpPass ;;
     replaceInFiles globMatch readmePass)
    (fun error => emit (ConsoleErrorValue error)).

(** from the delay before the reset to the end *)
Definition resetAndInstall : M unit :=
  consoleLog (str "Creating a blank-slate Git repo") ;;
  setTimer 2000 ;;
  let* didClearRepo := runCommand shell newRepo in
  when (negb didClearRepo)
    (consoleWarn (str "Was unable to finish removing boilerplate's development Git history and initialize new blank repo")) ;;
  consoleLog (nl :: str "Installing dependencies for " ++ repoName) ;;
  setTimer 2000 ;;
  let* didInstallDeps := runCommand shell installDeps in
  when (negb didInstallDeps) (processExit (-1)) ;;
  consoleLog (nl :: str "Congratulations! Use the following commands to get started:") ;;
  consoleLog ([nl; tab] ++ str "cd " ++ repoName ++ str " && npm start").

(** the body of the async function, after the answers are in *)
Definition script : M unit :=
  consoleLog (str "Cloning the template repository to " ++ [dq] ++ repoName ++ [dq]) ;;
  let* didCheckOut := runCommand shell gitCheckout in
  when (negb didCheckOut) (processExit (-1)) ;;
  promoteManifests ;;
  substitute ;;
  resetAndInstall.

End Script.

(** the script as it is: [toNumber] is bound nowhere *)
Definition main (globMatch : list ascii -> list ascii -> bool)
    (shell : list ascii -> gmap (list ascii) (list ascii)
             -> bool * gmap (list ascii) (list ascii))
    (repoName : list ascii) (a : Answers) : M unit :=
  script globMatch shell (moduleScope ++ nodeGlobals) repoName a.

(** the script for a command line: [argv2] is [process.argv[2]], [None] when
    no directory is named.  [repoName] is then [undefined], and the table of
    paths, which is built when the module is loaded, is not: [path.join]
    throws before the prompts. *)
Definition run (globMatch : list ascii -> list ascii -> bool)
    (shell : list ascii -> gmap (list ascii) (list ascii)
             -> bool * gmap (list ascii) (list ascii))
    (argv2 : option (list ascii)) (a : Answers) : M unit :=
  match argv2 with
  | Some repoName => main globMatch shell repoName a
  | None => throw invalidPathArgument
  end.

(** the scope the script would have with [toNumber] bound *)
Definition scopeWithToNumber : list (list ascii) :=
  str "toNumber" :: moduleScope ++ nodeGlobals.

End EvolvedCli.

(** ** bin/cli.js *)

Module BinCli.

Import Prompts Runtime Tokens.

Section Script.

Variable globMatch : list ascii -> list ascii -> bool.
Variable shell : list ascii -> gmap (list ascii) (list ascii)
                 -> bool * gmap (list ascii) (list ascii).
Variable repoName : list ascii.

Definition gitCheckout : list ascii :=
  str "git clone -b npx --depth 1 https://github.com/Denman-Digital/wp-theme-starter.git  "
  ++ repoName.
Definition installDeps : list ascii :=
  str "cd " ++ repoName ++ str " && npm install".

Definition package : list ascii := pathJoin [repoName; str "package.json"].
Definition packageSample : list ascii := pathJoin [repoName; str "package-sample.json"].
Definition styleCSS : list ascii := pathJoin [repoName; str "style.css"].

Definition promotePackage : M unit :=
  tryCatch
    (fsAccess packageSample ;;
     consoleLog (str "Generating new package.json from package-sample.json") ;;
     fsRm package ;;
     fsRename packageSample package)
    (fun _ =>
       consoleError (str "Unable to generate new package.json from package-sample.json")).

Variable a : Answers.

Definition metadataPass : ReplaceConfig :=
  {| selector := Paths [styleCSS; package];
     from := [Global (str "<theme_slug>"); Global (str "<theme_display_name>");
              Global (str "<theme_description>"); Global (str "<theme_author_name>");
              Global (str "<theme_author_uri>"); Global (str "<theme_github_uri>");
              Global (str "<theme_uri>"); Global (str "wp-theme-starter-text-domain")];
     to := Each [slug a; displayName a; description a; authorName a; authorUri a;
                 githubUri a; uri a; textDomain a];
     dry := true |}.

Definition styleKeywordsPass : ReplaceConfig :=
  {| selector := Paths [styleCSS];
     from := [Text (str "<theme_keywords>")];
     to := One (keywords a);
     dry := true |}.

Definition manifestKeywordsPass : ReplaceConfig :=
  {| selector := Paths [package];
     from := [Text quotedKeywordsToken];
     to := One (quotedKeywords (keywords a));
     dry := true |}.

Definition phpPass : ReplaceConfig :=
  {| selector := Glob (pathJoin [repoName; str "**/*.php"]) (Some (str "**/vendor/**/*.php"));
     from := [Global (str "<theme_slug>"); Global (str "wp-theme-starter-text-domain");
              Global (str "wp_theme_starter_"); Global (str "WP_Theme_Starter_")];
     to := Each [slug a; textDomain a; funcPrefix a; classPrefix a];
     dry := true |}.

Definition readmePass : ReplaceConfig :=
  {| selector := Paths [pathJoin [repoName; str "readme.md"]];
     from := [Between false (str "<!-- start_banner ") (str " end_banner -->")];
     to := One (readmeHeading a ("}" :: [nl; nl]));
     dry := true |}.

Definition substitute : M unit :=
  tryCatch
    (consoleLog (str "Customizing theme metadata.") ;;
     replaceInFiles globMatch metadataPass ;;
     replaceInFiles globMatch styleKeywordsPass ;;
     replaceInFiles globMatch manifestKeywordsPass ;;
     replaceInFiles globMatch phpPass ;;
     replaceInFiles globMatch readmePass)
    (fun error => emit (ConsoleErrorValue error)).

Definition install : M unit :=
  consoleLog (str "Installing dependencies for " ++ repoName) ;;
  let* didInstallDeps := runCommand shell installDeps in
  when (negb didInstallDeps) (processExit (-1)) ;;
  consoleLog (str "Congratulations! Use the following commands to get started:") ;;
  consoleLog ([nl; tab] ++ str "cd " ++ repoName ++ str " && npm start").

Definition clone : M unit :=
  consoleLog (str "Cloning the template repository to " ++ [dq] ++ repoName ++ [dq]) ;;
  let* didCheckOut := runCommand shell gitCheckout in
  when (negb didCheckOut) (processExit (-1)).

Definition main : M unit :=
  clone ;;
  promotePackage ;;
  substitute ;;
  install.

(** the clone, manifest-promotion and install steps alone *)
Definition withoutSubstitution : M unit :=
  clone ;;
  promotePackage ;;
  install.

End Script.

(** the script for a command line: [argv2] is [process.argv[2]], [None] when
    no directory is named.  [repoName] is then [undefined]: the template
    literals spell it out, so the clone goes to a directory of that name, and
    [path.join], which comes after the clone and outside every [try], throws. *)
Definition run (globMatch : list ascii -> list ascii -> bool)
    (shell : list ascii -> gmap (list ascii) (list ascii)
             -> bool * gmap (list ascii) (list ascii))
    (argv2 : option (list ascii)) (a : Answers) : M unit :=
  match argv2 with
  | Some repoName => main globMatch shell repoName a
  | None => clone shell (interpolate None) ;; throw invalidPathArgument
  end.

End BinCli.

(** ** What a computation may do *)

Module Effects.

Import Runtime.

Definition substitutionEvent (e : Event) : bool :=
  match e with
  | ReplaceRead _ | ReplaceWrite _ => true
  | _ => false
  end.

Definition writeEvent (e : Event) : bool :=
  match e with
  | ReplaceWrite _ => true
  | _ => false
  end.

Definition execEvent (e : Event) : bool :=
  match e with
  | ExecSync _ => true
  | _ => false
  end.

Definition notExec (e : Event) : bool := negb (execEvent e).
Definition notWrite (e : Event) : bool := negb (writeEvent e).

(** [m] adds only events that satisfy [ok] to the trace and never ends the
    process; with [frame], it leaves every file as it is *)
Definition behaves {A} (ok : Event -> bool) (frame : bool) (m : M A) : Prop :=
  forall w, exists evs,
    trace (snd (m w)) = trace w ++ evs /\ forallb ok evs = true /\
    (frame = true -> files (snd (m w)) = files w) /\
    (forall code, fst (m w) <> Exited code).

(** [m] always returns *)
Definition returns {A} (m : M A) : Prop :=
  forall w, exists a w', m w = (Value a, w').

(** the store before any command has run *)
Definition emptyWorld : World := {| files := ∅; trace := [] |}.

End Effects.

(** ** Sample environments *)

Module Samples.

Import Runtime.

(** no path matches any glob pattern *)
Definition noGlob (pattern path : list ascii) : bool := false.

(** every command succeeds and changes no file, but the repo reset fails *)
Definition resetFails (repoName : list ascii) (command : list ascii)
    (fs : gmap (list ascii) (list ascii)) : bool * gmap (list ascii) (list ascii) :=
  (negb (bool_decide (command = EvolvedCli.newRepo repoName)), fs).

(** a clone that holds every manifest and its sample *)
Definition clonedManifests (repoName : list ascii) : gmap (list ascii) (list ascii) :=
  <[EvolvedCli.package repoName := str "package"]>
  (<[EvolvedCli.packageSample repoName := str "package sample"]>
  (<[EvolvedCli.composer repoName := str "composer"]>
  (<[EvolvedCli.composerSample repoName := str "composer sample"]>
  (<[EvolvedCli.composerIncludes repoName := str "includes composer"]>
  (<[EvolvedCli.composerIncludesSample repoName := str "includes composer sample"]> ∅))))).

End Samples.

(** ** Vocabulary for the further properties *)

Module Facts.

Import Prompts Runtime.

(** whitespace, underscore or hyphen: what [stripCase] treats as a gap *)
Definition isSeparator (c : ascii) : bool := isWhiteSpace c || isDashUnderscore c.

(** the characters of a string that are not separators, in order *)
Definition content (s : list ascii) : list ascii :=
  List.filter (fun c => negb (isSeparator c)) s.

Definition isUnderscore (c : ascii) : bool := Ascii.eqb c "_".
Definition isHyphen (c : ascii) : bool := Ascii.eqb c "-".

(** some suffix of the string satisfies [P] *)
Fixpoint anySuffix (P : list ascii -> bool) (s : list ascii) : bool :=
  P s || match s with
         | [] => false
         | _ :: s' => anySuffix P s'
         end.

(** the pattern has a place to match in the contents (for [Between], a place
    where its opening text matches) *)
Definition mayMatch (p : Pattern) (contents : list ascii) : bool :=
  match p with
  | Text s => anySuffix (isPrefix s) contents
  | Global lit => anySuffix (isPrefix lit) contents
  | Between _ opening _ => anySuffix (Banner.isPrefixCI opening) contents
  end.

(** the files of a store after [bin/cli.js] has looked at the package sample *)
Definition promotedPackage (repoName : list ascii)
    (fs : gmap (list ascii) (list ascii)) : gmap (list ascii) (list ascii) :=
  match fs !! BinCli.packageSample repoName, fs !! BinCli.package repoName with
  | Some sample, Some _ =>
    <[BinCli.package repoName := sample]>
      (delete (BinCli.packageSample repoName) (delete (BinCli.package repoName) fs))
  | _, _ => fs
  end.

(** the answers of a session of the evolved script in which every default is
    taken, for the directory argument [repoName] *)
Definition defaultValues (repoName : list ascii) : gmap (list ascii) (list ascii) :=
  <[str "classPrefix" := titleSnakeCase repoName ++ str "_"]>
  (<[str "funcPrefix" := snakeCase repoName ++ str "_"]>
  (<[str "textDomain" := repoName]>
  (<[str "keywords" := str "responsive, modern"]>
  (<[str "uri" := str "https://github.com/Denman-Digital/" ++ repoName ++ str "#readme"]>
  (<[str "githubUri" := str "https://github.com/Denman-Digital/" ++ repoName]>
  (<[str "authorUri" := []]>
  (<[str "authorSlug" := str "denman-digital"]>
  (<[str "authorName" := str "Denman Digital"]>
  (<[str "description" := str "Modern responsive WordPress Theme."]>
  (<[str "displayName" := titleCase repoName]>
  (<[str "slug" := repoName]> ∅))))))))))).

End Facts.

(** ** Readings of the description of the case transformers *)

Module Reading.

(** a space before each run of the letters of a class; [spaceBeforeUpperRuns]
    is this for the class A-Z *)
Fixpoint spaceBeforeRunsOf (capital : ascii -> bool) (inRun : bool)
    (s : list ascii) : list ascii :=
  match s with
  | [] => []
  | c :: s' =>
    if capital c then
      (if inRun then [c] else [" "; c]) ++ spaceBeforeRunsOf capital true s'
    else c :: spaceBeforeRunsOf capital false s'
  end.

(** the description of [stripCase], with [capital] for its uppercase letters *)
Definition stripCaseOf (capital : ascii -> bool) (s : list ascii) : list ascii :=
  toLowerCase
    (trim
      (runsToChar isWhiteSpace " " false
        (runsToChar isDashUnderscore " " false
          (spaceBeforeRunsOf capital false s)))).

(** [d] is [c], or [c] is a capital and [d] the letter 32 places above it *)
Definition lowered (c d : ascii) : Prop :=
  d = c \/ (isUpper c = true /\ code d = (code c + 32)%N).

(** every letter A-Z stands at the start or directly after a whitespace
    character; [afterSpace] tells whether the string continues such a place *)
Fixpoint capitalsAfterSpace (afterSpace : bool) (s : list ascii) : bool :=
  match s with
  | [] => true
  | c :: s' =>
    (if isUpperAZ c then afterSpace else true)
    && capitalsAfterSpace (isWhiteSpace c) s'
  end.

(** [upperCaseWords] with a space put before each letter it capitalises,
    unless the letter stands at the start or after a whitespace character:
    what the first three replacements of [stripCase] and its [trim] make of
    an output of [titleCase] *)
Fixpoint respaced (afterSpace prevWord : bool) (t : list ascii) : list ascii :=
  match t with
  | [] => []
  | c :: t' =>
    if isLowerAZ c && negb prevWord then
      (if afterSpace then [] else [" "]) ++ toUpperCaseChar c :: respaced false true t'
    else c :: respaced (isWhiteSpace c) (isWordChar c) t'
  end.

(** LATIN CAPITAL LETTER E WITH ACUTE, and the small letter *)
Definition capitalEAcute : ascii := Eval cbv in ascii_of_N 201.
Definition smallEAcute : ascii := Eval cbv in ascii_of_N 233.

End Reading.
(** * Properties *)

(** ** Sample values of the case transformers *)

Example stripCase_sample :
  stripCase (str "This is-my__sampleText  ABC") = str "this is my sample text abc".
Proof. reflexivity. Qed.

Example titleCase_sample : titleCase (str "this is my sample") = str "This Is My Sample".
Proof. reflexivity. Qed.

Example snakeCase_sample : snakeCase (str "This is my sample") = str "this_is_my_sample".
Proof. reflexivity. Qed.

Example titleSnakeCase_sample :
  titleSnakeCase (str "This is my sample") = str "This_Is_My_Sample".
Proof. reflexivity. Qed.

Example kebabCase_sample : kebabCase (str "This is my sample") = str "this-is-my-sample".
Proof. reflexivity. Qed.


(** ** Character classes *)

Section CharFacts.

Local Ltac all_chars c :=
  destruct c as [[] [] [] [] [] [] [] []]; vm_compute; try reflexivity; try discriminate; auto.

Lemma toLower_not_upper c : isUpper (toLowerCaseChar c) = false.
Proof. all_chars c. Qed.

Lemma toLower_dash c : isDashUnderscore (toLowerCaseChar c) = isDashUnderscore c.
Proof. all_chars c. Qed.

Lemma toLower_space c : isWhiteSpace (toLowerCaseChar c) = isWhiteSpace c.
Proof. all_chars c. Qed.

Lemma toLower_oddSpace c : isOddSpace (toLowerCaseChar c) = isOddSpace c.
Proof. all_chars c. Qed.

Lemma toLower_fix c : isUpper c = false -> toLowerCaseChar c = c.
Proof. unfold toLowerCaseChar. intros ->. reflexivity. Qed.

Lemma upperAZ_upper c : isUpperAZ c = true -> isUpper c = true.
Proof. unfold isUpper. intros ->. reflexivity. Qed.

Lemma not_upper_not_AZ c : isUpper c = false -> isUpperAZ c = false.
Proof. unfold isUpper. destruct (isUpperAZ c); [discriminate | reflexivity]. Qed.

Lemma space_not_odd c : isWhiteSpace c = true -> isOddSpace c = false -> c = " ".
Proof. all_chars c. Qed.

Lemma oddSpace_space c : isWhiteSpace c = false -> isOddSpace c = false.
Proof. unfold isOddSpace. intros ->. reflexivity. Qed.

Lemma dash_not_space c : isDashUnderscore c = true -> isWhiteSpace c = false.
Proof. all_chars c. Qed.

Lemma dash_not_upper c : isDashUnderscore c = true -> isUpper c = false.
Proof. all_chars c. Qed.

End CharFacts.

(** ** The regular-expression replacements refine the word-by-word description *)

Section Refinement.

Lemma getSubstitution_char m pre post caps (r : ascii) :
  getSubstitution m pre post caps [r] = [r].
Proof. simpl. destruct (Ascii.eqb r "$"); reflexivity. Qed.

Lemma getSubstitution_space_group m pre post :
  getSubstitution m pre post [m] (str " $1") = " " :: m.
Proof. simpl. rewrite app_nil_r. reflexivity. Qed.

Lemma replaceRunsFrom_char cls (r : ascii) pre run s :
  replaceRunsFrom cls false [r] pre run s =
  (match run with [] => [] | _ :: _ => [r] end)
    ++ runsToChar cls r (match run with [] => false | _ :: _ => true end) s.
Proof.
  revert pre run. induction s as [|c s IH]; intros pre run;
    cbn [replaceRunsFrom runsToChar].
  - destruct run; cbn [emitRun app]; [reflexivity|].
    rewrite getSubstitution_char. reflexivity.
  - destruct (cls c) eqn:Hc.
    + rewrite IH. destruct run; reflexivity.
    + rewrite IH. cbn [app]. destruct run; cbn [emitRun app]; [reflexivity|].
      rewrite getSubstitution_char. reflexivity.
Qed.

Lemma replaceRuns_char cls (r : ascii) s :
  replaceRuns cls false [r] s = runsToChar cls r false s.
Proof. unfold replaceRuns. rewrite replaceRunsFrom_char. reflexivity. Qed.

Lemma replaceRunsFrom_upper pre run s :
  replaceRunsFrom isUpperAZ true (str " $1") pre run s =
  (match run with [] => [] | _ :: _ => " " :: run end)
    ++ spaceBeforeUpperRuns (match run with [] => false | _ :: _ => true end) s.
Proof.
  revert pre run. induction s as [|c s IH]; intros pre run.
  - cbn [replaceRunsFrom spaceBeforeUpperRuns]. destruct run; cbn [emitRun]; [reflexivity|].
    rewrite getSubstitution_space_group. simpl. rewrite app_nil_r. reflexivity.
  - cbn [replaceRunsFrom spaceBeforeUpperRuns]. destruct (isUpperAZ c) eqn:Hc.
    + rewrite IH. destruct run; cbn; [reflexivity|].
      rewrite <- app_assoc. reflexivity.
    + rewrite IH. cbn [app]. destruct run; cbn [emitRun app]; [reflexivity|].
      rewrite getSubstitution_space_group. reflexivity.
Qed.

Lemma replaceRuns_upper s :
  replaceRuns isUpperAZ true (str " $1") s = spaceBeforeUpperRuns false s.
Proof. unfold replaceRuns. rewrite replaceRunsFrom_upper. reflexivity. Qed.

Lemma stripCase_refines s : stripCase s = stripCaseSpec s.
Proof.
  unfold stripCase, stripCaseSpec.
  change (str " ") with [" "].
  rewrite !replaceRuns_char, replaceRuns_upper. reflexivity.
Qed.

End Refinement.

(** ** Trimming *)

Section Trim.

Lemma trimStart_split s :
  exists ws, s = ws ++ trimStart s /\ forallb isWhiteSpace ws = true.
Proof.
  induction s as [|c s [ws [E H]]]; [exists []; split; reflexivity|].
  simpl. destruct (isWhiteSpace c) eqn:Hc.
  - exists (c :: ws). simpl. rewrite Hc, H. split; [congruence | reflexivity].
  - exists []. split; reflexivity.
Qed.

Lemma trimEnd_split s :
  exists ws, s = trimEnd s ++ ws /\ forallb isWhiteSpace ws = true.
Proof.
  destruct (trimStart_split (rev s)) as [ws [E H]].
  exists (rev ws). split.
  - unfold trimEnd. rewrite <- rev_app_distr, <- E, rev_involutive. reflexivity.
  - rewrite forallb_forall in *. intros x Hx. apply H, in_rev, Hx.
Qed.

Lemma startsWithSpace_trimStart s : startsWithSpace (trimStart s) = false.
Proof.
  induction s as [|c s IH]; [reflexivity|].
  simpl. destruct (isWhiteSpace c) eqn:Hc; [exact IH | simpl; exact Hc].
Qed.

Lemma endsWithSpace_trimEnd s : endsWithSpace (trimEnd s) = false.
Proof.
  unfold endsWithSpace, trimEnd. rewrite rev_involutive.
  apply startsWithSpace_trimStart.
Qed.

Lemma startsWithSpace_trimEnd s :
  startsWithSpace s = false -> startsWithSpace (trimEnd s) = false.
Proof.
  destruct (trimEnd_split s) as [ws [E _]]. intros H.
  destruct (trimEnd s) as [|c t]; [reflexivity|].
  rewrite E in H. exact H.
Qed.

Lemma trimStart_id s : startsWithSpace s = false -> trimStart s = s.
Proof. destruct s as [|c s]; simpl; [reflexivity | intros ->; reflexivity]. Qed.

Lemma trimEnd_id s : endsWithSpace s = false -> trimEnd s = s.
Proof.
  unfold endsWithSpace, trimEnd. intros H.
  rewrite trimStart_id by exact H. apply rev_involutive.
Qed.

Lemma trim_id s :
  startsWithSpace s = false -> endsWithSpace s = false -> trim s = s.
Proof. intros H1 H2. unfold trim. rewrite trimStart_id by exact H1. apply trimEnd_id, H2. Qed.

Lemma existsb_app_false (P : ascii -> bool) a b :
  existsb P (a ++ b) = false <-> existsb P a = false /\ existsb P b = false.
Proof. rewrite existsb_app. apply orb_false_iff. Qed.

Lemma existsb_trim (P : ascii -> bool) s :
  existsb P s = false -> existsb P (trim s) = false.
Proof.
  intros H. unfold trim.
  destruct (trimStart_split s) as [ws [E _]].
  destruct (trimEnd_split (trimStart s)) as [ws' [E' _]].
  rewrite E, E' in H.
  apply existsb_app_false in H as [_ H]. apply existsb_app_false in H as [H _].
  exact H.
Qed.

Lemma startsWithSpace_trim s : startsWithSpace (trim s) = false.
Proof. apply startsWithSpace_trimEnd, startsWithSpace_trimStart. Qed.

Lemma endsWithSpace_trim s : endsWithSpace (trim s) = false.
Proof. apply endsWithSpace_trimEnd. Qed.

Lemma startsWithSpace_app a b :
  a <> [] -> startsWithSpace (a ++ b) = startsWithSpace a.
Proof. destruct a; [congruence | reflexivity]. Qed.

Lemma hasDoubleSpace_app_l a b :
  hasDoubleSpace (a ++ b) = false -> hasDoubleSpace a = false.
Proof.
  induction a as [|x a IH]; [reflexivity|].
  simpl. intros H. apply orb_false_iff in H as [H1 H2].
  rewrite (IH H2), orb_false_r.
  destruct a as [|y a]; [apply andb_false_r | exact H1].
Qed.

Lemma hasDoubleSpace_app_r a b :
  hasDoubleSpace (a ++ b) = false -> hasDoubleSpace b = false.
Proof.
  induction a as [|x a IH]; [trivial|].
  simpl. intros H. apply orb_false_iff in H as [_ H]. exact (IH H).
Qed.

Lemma hasDoubleSpace_trim s :
  hasDoubleSpace s = false -> hasDoubleSpace (trim s) = false.
Proof.
  intros H. unfold trim.
  destruct (trimStart_split s) as [ws [E _]].
  destruct (trimEnd_split (trimStart s)) as [ws' [E' _]].
  rewrite E, E' in H.
  apply hasDoubleSpace_app_r, hasDoubleSpace_app_l in H. exact H.
Qed.

End Trim.

(** ** Lowercasing *)

Section Lower.

Lemma hasUpper_toLowerCase s : hasUpper (toLowerCase s) = false.
Proof.
  induction s as [|c s IH]; [reflexivity|].
  simpl. rewrite toLower_not_upper. exact IH.
Qed.

Lemma existsb_toLowerCase (P : ascii -> bool) s :
  (forall c, P (toLowerCaseChar c) = P c) ->
  existsb P (toLowerCase s) = existsb P s.
Proof.
  intros HP. induction s as [|c s IH]; [reflexivity|].
  simpl. rewrite HP. f_equal. exact IH.
Qed.

Lemma startsWithSpace_toLowerCase s :
  startsWithSpace (toLowerCase s) = startsWithSpace s.
Proof. destruct s; [reflexivity | apply toLower_space]. Qed.

Lemma endsWithSpace_toLowerCase s :
  endsWithSpace (toLowerCase s) = endsWithSpace s.
Proof.
  unfold endsWithSpace, toLowerCase. rewrite <- map_rev.
  apply startsWithSpace_toLowerCase.
Qed.

Lemma hasDoubleSpace_toLowerCase s :
  hasDoubleSpace (toLowerCase s) = hasDoubleSpace s.
Proof.
  induction s as [|c s IH]; [reflexivity|].
  cbn [toLowerCase map hasDoubleSpace].
  fold (toLowerCase s). rewrite IH, toLower_space, startsWithSpace_toLowerCase.
  reflexivity.
Qed.

Lemma toLowerCase_id s : hasUpper s = false -> toLowerCase s = s.
Proof.
  induction s as [|c s IH]; [reflexivity|].
  simpl. intros H. apply orb_false_iff in H as [H1 H2].
  rewrite toLower_fix by exact H1. f_equal. exact (IH H2).
Qed.

End Lower.

(** ** Runs *)

Section Runs.

Variable cls : ascii -> bool.
Variable r : ascii.

Lemma runsToChar_removes b s :
  cls r = false -> existsb cls (runsToChar cls r b s) = false.
Proof.
  intros Hr. revert b. induction s as [|c s IH]; intros b; [reflexivity|].
  simpl. destruct (cls c) eqn:Hc.
  - destruct b; simpl; rewrite ?Hr; apply IH.
  - simpl. rewrite Hc. apply IH.
Qed.

Lemma runsToChar_keeps (P : ascii -> bool) b s :
  P r = false -> existsb P s = false -> existsb P (runsToChar cls r b s) = false.
Proof.
  intros Hr. revert b. induction s as [|c s IH]; intros b; [reflexivity|].
  simpl. intros H. apply orb_false_iff in H as [H1 H2].
  destruct (cls c); [destruct b|]; simpl; rewrite ?Hr, ?H1; apply IH, H2.
Qed.

Lemma runsToChar_id b s : existsb cls s = false -> runsToChar cls r b s = s.
Proof.
  revert b. induction s as [|c s IH]; intros b; [reflexivity|].
  simpl. intros H. apply orb_false_iff in H as [H1 H2].
  rewrite H1. f_equal. apply IH, H2.
Qed.

End Runs.

Lemma spaceBeforeUpperRuns_id b s :
  existsb isUpperAZ s = false -> spaceBeforeUpperRuns b s = s.
Proof.
  revert b. induction s as [|c s IH]; intros b; [reflexivity|].
  simpl. intros H. apply orb_false_iff in H as [H1 H2].
  rewrite H1. f_equal. apply IH, H2.
Qed.

Lemma spaceBeforeUpperRuns_keeps (P : ascii -> bool) b s :
  P " " = false -> existsb P s = false ->
  existsb P (spaceBeforeUpperRuns b s) = false.
Proof.
  intros Hr. revert b. induction s as [|c s IH]; intros b; [reflexivity|].
  simpl. intros H. apply orb_false_iff in H as [H1 H2].
  destruct (isUpperAZ c); [destruct b|]; simpl; rewrite ?Hr, ?H1; apply IH, H2.
Qed.

Lemma collapse_true_start s :
  startsWithSpace (runsToChar isWhiteSpace " " true s) = false.
Proof.
  induction s as [|c s IH]; [reflexivity|].
  simpl. destruct (isWhiteSpace c) eqn:Hc; [exact IH | simpl; exact Hc].
Qed.

Lemma collapse_noDouble b s :
  hasDoubleSpace (runsToChar isWhiteSpace " " b s) = false.
Proof.
  revert b. induction s as [|c s IH]; intros b; [reflexivity|].
  simpl. destruct (isWhiteSpace c) eqn:Hc.
  - destruct b; simpl; [apply IH|].
    rewrite collapse_true_start. apply IH.
  - simpl. rewrite Hc. apply IH.
Qed.

Lemma collapse_noOdd b s :
  hasOddSpace (runsToChar isWhiteSpace " " b s) = false.
Proof.
  revert b. induction s as [|c s IH]; intros b; [reflexivity|].
  simpl. destruct (isWhiteSpace c) eqn:Hc.
  - destruct b; simpl; apply IH.
  - simpl. rewrite (oddSpace_space _ Hc). apply IH.
Qed.

Lemma collapse_id b s :
  hasDoubleSpace s = false -> hasOddSpace s = false ->
  (b = true -> startsWithSpace s = false) ->
  runsToChar isWhiteSpace " " b s = s.
Proof.
  revert b. induction s as [|c s IH]; intros b; [reflexivity|].
  simpl. intros H1 H2 H3.
  apply orb_false_iff in H1 as [H1 H1'], H2 as [H2 H2'].
  destruct (isWhiteSpace c) eqn:Hc.
  - destruct b; [specialize (H3 eq_refl); discriminate|].
    simpl. rewrite (space_not_odd c Hc H2). f_equal.
    apply IH; auto.
  - f_equal. apply IH; auto. discriminate.
Qed.

(** ** [stripCase] reaches its normal form and stays there *)

Lemma stripCase_stripped s : stripped (stripCase s) = true.
Proof.
  rewrite stripCase_refines. unfold stripCaseSpec, stripped.
  set (u := spaceBeforeUpperRuns false s).
  set (d := runsToChar isDashUnderscore " " false u).
  set (w := runsToChar isWhiteSpace " " false d).
  rewrite hasUpper_toLowerCase.
  unfold hasDashUnderscore, hasOddSpace.
  rewrite (existsb_toLowerCase _ _ toLower_dash), (existsb_toLowerCase _ _ toLower_oddSpace).
  rewrite startsWithSpace_toLowerCase, endsWithSpace_toLowerCase, hasDoubleSpace_toLowerCase.
  rewrite startsWithSpace_trim, endsWithSpace_trim.
  rewrite (hasDoubleSpace_trim w) by apply collapse_noDouble.
  rewrite (existsb_trim isOddSpace w) by apply collapse_noOdd.
  rewrite (existsb_trim isDashUnderscore w); [reflexivity|].
  apply runsToChar_keeps; [reflexivity|].
  apply runsToChar_removes. reflexivity.
Qed.

Lemma stripped_inv s :
  stripped s = true ->
  hasUpper s = false /\ hasDashUnderscore s = false /\ hasOddSpace s = false /\
  startsWithSpace s = false /\ endsWithSpace s = false /\ hasDoubleSpace s = false.
Proof.
  unfold stripped. intros H.
  repeat (apply andb_true_iff in H as [H ?]).
  repeat split; apply negb_true_iff; assumption.
Qed.

Lemma hasUpper_AZ s : hasUpper s = false -> existsb isUpperAZ s = false.
Proof.
  induction s as [|c s IH]; [reflexivity|].
  simpl. intros H. apply orb_false_iff in H as [H1 H2].
  rewrite (not_upper_not_AZ _ H1). apply IH, H2.
Qed.

Lemma stripCase_fixes s : stripped s = true -> stripCase s = s.
Proof.
  intros H. apply stripped_inv in H as (Hu & Hd & Ho & Hs & He & Hdd).
  rewrite stripCase_refines. unfold stripCaseSpec.
  rewrite spaceBeforeUpperRuns_id by (apply hasUpper_AZ, Hu).
  rewrite (runsToChar_id isDashUnderscore) by exact Hd.
  rewrite collapse_id by (auto; discriminate).
  rewrite trim_id by assumption.
  apply toLowerCase_id, Hu.
Qed.

(** ** Snake and kebab case are fixed on their outputs *)

Section Separators.

Variable r : ascii.
Hypothesis r_sep : isDashUnderscore r = true.

Lemma runsToChar_separated b t :
  hasDoubleSpace t = false -> (b = true -> startsWithSpace t = false) ->
  runsToChar isWhiteSpace r b t = separated r t.
Proof.
  revert b. induction t as [|c t IH]; intros b; [reflexivity|].
  simpl. intros H1 H3. apply orb_false_iff in H1 as [H1 H1'].
  destruct (isWhiteSpace c) eqn:Hc.
  - destruct b; [specialize (H3 eq_refl); discriminate|].
    simpl. f_equal. apply IH; auto.
  - f_equal. apply IH; auto. discriminate.
Qed.

Lemma dashes_separated b t :
  hasDoubleSpace t = false -> hasOddSpace t = false ->
  hasDashUnderscore t = false -> (b = true -> startsWithSpace t = false) ->
  runsToChar isDashUnderscore " " b (separated r t) = t.
Proof.
  revert b. induction t as [|c t IH]; intros b; [reflexivity|].
  simpl. intros H1 H2 H4 H3.
  apply orb_false_iff in H1 as [H1 H1'], H2 as [H2 H2'], H4 as [H4 H4'].
  destruct (isWhiteSpace c) eqn:Hc.
  - destruct b; [specialize (H3 eq_refl); discriminate|].
    rewrite r_sep. simpl. rewrite (space_not_odd c Hc H2). f_equal.
    apply IH; auto.
  - rewrite H4. f_equal. apply IH; auto. discriminate.
Qed.

Lemma separated_no_AZ t :
  hasUpper t = false -> existsb isUpperAZ (separated r t) = false.
Proof.
  induction t as [|c t IH]; [reflexivity|].
  simpl. intros H. apply orb_false_iff in H as [H1 H2].
  rewrite (IH H2), orb_false_r.
  destruct (isWhiteSpace c).
  - apply not_upper_not_AZ, dash_not_upper, r_sep.
  - apply not_upper_not_AZ, H1.
Qed.

Lemma stripCase_separated t : stripped t = true -> stripCase (separated r t) = t.
Proof.
  intros H. apply stripped_inv in H as (Hu & Hd & Ho & Hs & He & Hdd).
  rewrite stripCase_refines. unfold stripCaseSpec.
  rewrite spaceBeforeUpperRuns_id by (apply separated_no_AZ, Hu).
  rewrite dashes_separated by (auto; discriminate).
  rewrite collapse_id by (auto; discriminate).
  rewrite trim_id by assumption.
  apply toLowerCase_id, Hu.
Qed.

Lemma separate_fixed s :
  replaceRuns isWhiteSpace false [r]
    (stripCase (replaceRuns isWhiteSpace false [r] (stripCase s)))
  = replaceRuns isWhiteSpace false [r] (stripCase s).
Proof.
  pose proof (stripCase_stripped s) as H.
  destruct (stripped_inv _ H) as (_ & _ & _ & _ & _ & Hdd).
  rewrite !replaceRuns_char.
  rewrite (runsToChar_separated false (stripCase s)) by (auto; discriminate).
  rewrite stripCase_separated by exact H.
  apply runsToChar_separated; [exact Hdd | discriminate].
Qed.

End Separators.

Lemma stripCase_idempotent s : stripCase (stripCase s) = stripCase s.
Proof. apply stripCase_fixes, stripCase_stripped. Qed.

Lemma snakeCase_idempotent s : snakeCase (snakeCase s) = snakeCase s.
Proof. apply (separate_fixed "_"). reflexivity. Qed.

Lemma kebabCase_idempotent s : kebabCase (kebabCase s) = kebabCase s.
Proof. apply (separate_fixed "-"). reflexivity. Qed.

(** ** Title case on plain words *)

Section TitleCase.

Local Ltac all_chars c :=
  destruct c as [[] [] [] [] [] [] [] []]; vm_compute; try reflexivity; try discriminate; auto.

Lemma plainChar_toLower c : plainChar (toLowerCaseChar c) = plainChar c.
Proof. all_chars c. Qed.

Lemma simple_of_plain c :
  plainChar c = true -> isUpper c = false -> isDashUnderscore c = false ->
  isOddSpace c = false -> simpleChar c = true.
Proof. all_chars c. Qed.

Lemma simple_cases c :
  simpleChar c = true ->
  (isLowerAZ c = true /\ isWordChar c = true /\ isWhiteSpace c = false /\
   isUpperAZ c = false /\ isUpperAZ (toUpperCaseChar c) = true /\
   isWhiteSpace (toUpperCaseChar c) = false) \/
  (isLowerAZ c = false /\ isWordChar c = true /\ isWhiteSpace c = false /\
   isUpperAZ c = false /\ toUpperCaseChar c = c) \/
  (isLowerAZ c = false /\ isWordChar c = false /\ isWhiteSpace c = true /\
   isUpperAZ c = false).
Proof.
  destruct c as [[] [] [] [] [] [] [] []]; vm_compute; intros H; try discriminate H;
    first [ left; repeat split; reflexivity
          | right; left; repeat split; reflexivity
          | right; right; repeat split; reflexivity ].
Qed.

Lemma simple_space c : simpleChar c = true -> isWhiteSpace c = true -> c = " ".
Proof. all_chars c. Qed.

Lemma simple_lower_upper c :
  simpleChar c = true -> toLowerCaseChar (toUpperCaseChar c) = c /\ toLowerCaseChar c = c.
Proof.
  destruct c as [[] [] [] [] [] [] [] []]; vm_compute; intros H; try discriminate H;
    split; reflexivity.
Qed.

Lemma simple_upper_classes c :
  simpleChar c = true ->
  isWhiteSpace (toUpperCaseChar c) = isWhiteSpace c /\
  isDashUnderscore (toUpperCaseChar c) = false /\ isDashUnderscore c = false.
Proof.
  destruct c as [[] [] [] [] [] [] [] []]; vm_compute; intros H; try discriminate H;
    repeat split; reflexivity.
Qed.

Lemma plainWords_stripCase s :
  plainWords s = true -> forallb simpleChar (stripCase s) = true.
Proof.
  intros Hp.
  assert (Hq : existsb (fun c => negb (plainChar c)) (stripCase s) = false).
  { rewrite stripCase_refines. unfold stripCaseSpec.
    rewrite (existsb_toLowerCase (fun c => negb (plainChar c)))
      by (intros c; rewrite plainChar_toLower; reflexivity).
    apply existsb_trim.
    apply runsToChar_keeps; [reflexivity|].
    apply runsToChar_keeps; [reflexivity|].
    apply spaceBeforeUpperRuns_keeps; [reflexivity|].
    unfold plainWords in Hp. clear -Hp.
    induction s as [|c s IH]; [reflexivity|].
    simpl in *. apply andb_true_iff in Hp as [H1 H2].
    rewrite H1. simpl. exact (IH H2). }
  destruct (stripped_inv _ (stripCase_stripped s)) as (Hu & Hd & Ho & _).
  unfold hasUpper, hasDashUnderscore, hasOddSpace in *.
  induction (stripCase s) as [|c t IH]; [reflexivity|].
  simpl in *.
  apply orb_false_iff in Hq as [Hq Hq'], Hu as [Hu Hu'], Hd as [Hd Hd'], Ho as [Ho Ho'].
  rewrite IH by assumption. rewrite Bool.andb_true_r.
  apply simple_of_plain; try assumption.
  apply negb_false_iff, Hq.
Qed.

Lemma title_core t : forall bw bu bc,
  forallb simpleChar t = true -> hasDoubleSpace t = false ->
  (bc = true -> startsWithSpace t = false) ->
  (bw = false -> bu = false) -> (bc = true -> bw = false) ->
  runsToChar isWhiteSpace " " bc
    (spaceBeforeUpperRuns bu (upperCaseWordsFrom bw t))
  = (if negb bw && negb bc && startsWithLetter t then [" "] else [])
      ++ upperCaseWordsFrom bw t.
Proof.
  induction t as [|c t IH]; intros bw bu bc Hs Hd Hc Hu Hw.
  - simpl. rewrite !Bool.andb_false_r. reflexivity.
  - cbn [forallb hasDoubleSpace] in Hs, Hd.
    apply andb_true_iff in Hs as [Hs Hs'].
    apply orb_false_iff in Hd as [Hd Hd'].
    cbn [upperCaseWordsFrom startsWithLetter toUpperCase map].
    destruct (simple_cases c Hs) as
      [(Hl & Hwd & Hsp & Haz & Hup & Hus) | [(Hl & Hwd & Hsp & Haz & Hup) | (Hl & Hwd & Hsp & Haz)]];
      rewrite Hwd, Hl.
    + (* a letter *)
      destruct bw; cbn [andb negb app spaceBeforeUpperRuns].
      * rewrite Haz. cbn [runsToChar]. rewrite Hsp.
        rewrite (IH true false false); auto; try discriminate.
      * rewrite Hup, (Hu eq_refl). cbn [app runsToChar].
        replace (isWhiteSpace " ") with true by reflexivity.
        rewrite Hus.
        rewrite (IH true true false); auto; try discriminate.
        destruct bc; reflexivity.
    + (* a digit *)
      assert (E : (if true && negb bw then [toUpperCaseChar c] else [c]) = [c])
        by (destruct bw; cbn; rewrite ?Hup; reflexivity).
      rewrite E, Bool.andb_false_r. cbn [app spaceBeforeUpperRuns]. rewrite Haz.
      cbn [runsToChar]. rewrite Hsp.
      rewrite (IH true false false); auto; try discriminate.
    + (* a space *)
      rewrite Bool.andb_false_r. cbn [andb app spaceBeforeUpperRuns]. rewrite Haz.
      cbn [runsToChar]. rewrite Hsp.
      destruct bc; [cbn in Hc; rewrite Hsp in Hc; specialize (Hc eq_refl); discriminate|].
      rewrite Hsp in Hd. cbn [andb] in Hd.
      rewrite (IH false false true); auto.
      cbn [negb andb app]. f_equal. symmetry. apply simple_space; assumption.
Qed.

Lemma upperCaseWordsFrom_spaces bw t :
  forallb simpleChar t = true ->
  map isWhiteSpace (upperCaseWordsFrom bw t) = map isWhiteSpace t.
Proof.
  revert bw. induction t as [|c t IH]; intros bw; [reflexivity|].
  cbn [forallb]. intros H. apply andb_true_iff in H as [H1 H2].
  cbn [upperCaseWordsFrom toUpperCase map].
  destruct (simple_upper_classes c H1) as (E & _).
  destruct (isWordChar c && negb bw); cbn [app map]; rewrite ?E, IH by exact H2; reflexivity.
Qed.

Lemma startsWithSpace_map s : startsWithSpace s = hd false (map isWhiteSpace s).
Proof. destruct s; reflexivity. Qed.

Lemma endsWithSpace_map s : endsWithSpace s = hd false (rev (map isWhiteSpace s)).
Proof. unfold endsWithSpace. rewrite startsWithSpace_map, map_rev. reflexivity. Qed.

Lemma upperCaseWordsFrom_no_dash bw t :
  forallb simpleChar t = true ->
  existsb isDashUnderscore (upperCaseWordsFrom bw t) = false.
Proof.
  revert bw. induction t as [|c t IH]; intros bw; [reflexivity|].
  cbn [forallb]. intros H. apply andb_true_iff in H as [H1 H2].
  cbn [upperCaseWordsFrom toUpperCase map].
  destruct (simple_upper_classes c H1) as (_ & E1 & E2).
  destruct (isWordChar c && negb bw); cbn [app existsb]; rewrite ?E1, ?E2, IH by exact H2; reflexivity.
Qed.

Lemma toLowerCase_upperCaseWordsFrom bw t :
  forallb simpleChar t = true -> toLowerCase (upperCaseWordsFrom bw t) = t.
Proof.
  revert bw. induction t as [|c t IH]; intros bw; [reflexivity|].
  cbn [forallb]. intros H. apply andb_true_iff in H as [H1 H2].
  cbn [upperCaseWordsFrom toUpperCase map].
  destruct (simple_lower_upper c H1) as (E1 & E2).
  destruct (isWordChar c && negb bw); cbn [app toLowerCase map];
    fold (toLowerCase (upperCaseWordsFrom (isWordChar c) t));
    rewrite ?E1, ?E2, IH by exact H2; reflexivity.
Qed.

Lemma stripCase_upperCaseWords t :
  stripped t = true -> forallb simpleChar t = true ->
  stripCase (upperCaseWords t) = t.
Proof.
  intros H Hs. apply stripped_inv in H as (Hu & Hd & Ho & Hst & He & Hdd).
  rewrite stripCase_refines. unfold stripCaseSpec, upperCaseWords.
  rewrite (runsToChar_id isDashUnderscore)
    by (apply spaceBeforeUpperRuns_keeps;
        [reflexivity | apply upperCaseWordsFrom_no_dash, Hs]).
  rewrite (title_core t false false false) by (auto; discriminate).
  assert (Ht : trim (upperCaseWordsFrom false t) = upperCaseWordsFrom false t).
  { apply trim_id.
    - rewrite startsWithSpace_map, upperCaseWordsFrom_spaces by exact Hs.
      rewrite <- startsWithSpace_map. exact Hst.
    - rewrite endsWithSpace_map, upperCaseWordsFrom_spaces by exact Hs.
      rewrite <- endsWithSpace_map. exact He. }
  destruct (negb false && negb false && startsWithLetter t).
  - change (trim ([" "] ++ upperCaseWordsFrom false t))
      with (trim (upperCaseWordsFrom false t)).
    rewrite Ht. apply toLowerCase_upperCaseWordsFrom, Hs.
  - cbn [app]. rewrite Ht. apply toLowerCase_upperCaseWordsFrom, Hs.
Qed.

Lemma stripCase_titleCase s :
  plainWords s = true -> stripCase (titleCase s) = stripCase s.
Proof.
  intros H. unfold titleCase.
  apply stripCase_upperCaseWords;
    [apply stripCase_stripped | apply plainWords_stripCase, H].
Qed.

End TitleCase.

(** ** Prompt defaults and validation *)

Section PromptFacts.

Import Prompts.

Lemma existsb_In_space v :
  existsb isWhiteSpace v = true <-> exists c, In c v /\ isWhiteSpace c = true.
Proof. apply existsb_exists. Qed.

Lemma existsb_none_space v :
  existsb isWhiteSpace v = false <-> forall c, In c v -> isWhiteSpace c = false.
Proof.
  split.
  - intros H c Hc. destruct (isWhiteSpace c) eqn:E; [|reflexivity].
    assert (existsb isWhiteSpace v = true) by (apply existsb_exists; eauto).
    congruence.
  - intros H. destruct (existsb isWhiteSpace v) eqn:E; [|reflexivity].
    apply existsb_exists in E as (c & Hc & Hs). rewrite (H c Hc) in Hs. discriminate.
Qed.

Lemma question_funcPrefix repoName :
  question repoName (str "funcPrefix") =
  Some {| name := str "funcPrefix"; message := str "Theme function prefix";
          initial := funcPrefixInitial; validate := funcPrefixValidate |}.
Proof. reflexivity. Qed.

Lemma question_classPrefix repoName :
  question repoName (str "classPrefix") =
  Some {| name := str "classPrefix"; message := str "Theme class prefix";
          initial := classPrefixInitial; validate := classPrefixValidate |}.
Proof. reflexivity. Qed.

Lemma prefix_question repoName n q :
  n = str "funcPrefix" \/ n = str "classPrefix" ->
  question repoName n = Some q ->
  exists msg, forall v,
    validate q v = if testClass isWhiteSpace v then Reject msg else Accept.
Proof.
  intros [-> | ->] H.
  - rewrite question_funcPrefix in H. injection H as <-.
    exists (str "Function prefix must not contain any spaces."). reflexivity.
  - rewrite question_classPrefix in H. injection H as <-.
    exists (str "Class prefix must not contain any spaces."). reflexivity.
Qed.

End PromptFacts.

(** C9: with the slug answered "my-project", the function-prefix question
    offers "my_project_" (the snake case of the slug and an underscore) and
    the class-prefix question offers "My_Project_" (its title snake case and
    an underscore). *)
Theorem prefix_defaults (repoName prev : list ascii)
    (values : gmap (list ascii) (list ascii)) :
  values !! str "slug" = Some (str "my-project") ->
  (exists q, Prompts.question repoName (str "funcPrefix") = Some q /\
     Prompts.initial q prev values = Some (str "my_project_") /\
     Prompts.initial q prev values = Some (snakeCase (str "my-project") ++ str "_")) /\
  (exists q, Prompts.question repoName (str "classPrefix") = Some q /\
     Prompts.initial q prev values = Some (str "My_Project_") /\
     Prompts.initial q prev values = Some (titleSnakeCase (str "my-project") ++ str "_")).
Proof.
  intros H. split; eexists.
  - split; [apply question_funcPrefix|]. cbn [Prompts.initial].
    unfold Prompts.funcPrefixInitial. rewrite H. split; reflexivity.
  - split; [apply question_classPrefix|]. cbn [Prompts.initial].
    unfold Prompts.classPrefixInitial. rewrite H. split; reflexivity.
Qed.

Lemma prefix_defaults_witness :
  (exists q, Prompts.question [] (str "funcPrefix") = Some q /\
     Prompts.initial q [] {[ str "slug" := str "my-project" ]} = Some (str "my_project_") /\
     Prompts.initial q [] {[ str "slug" := str "my-project" ]}
       = Some (snakeCase (str "my-project") ++ str "_")) /\
  (exists q, Prompts.question [] (str "classPrefix") = Some q /\
     Prompts.initial q [] {[ str "slug" := str "my-project" ]} = Some (str "My_Project_") /\
     Prompts.initial q [] {[ str "slug" := str "my-project" ]}
       = Some (titleSnakeCase (str "my-project") ++ str "_")).
Proof.
  apply (prefix_defaults [] [] {[ str "slug" := str "my-project" ]}).
  reflexivity.
Defined.

(** a whole session: no directory argument, every question answered with the
    return key *)
Example session_defaults :
  let values := Prompts.collect (Prompts.questions []) [] ∅ (repeat [[]] 12) in
  values !! str "slug" = Some (str "my-project") /\
  values !! str "displayName" = Some (str "My Project") /\
  values !! str "authorSlug" = Some (str "denman-digital") /\
  values !! str "githubUri" = Some (str "https://github.com/Denman-Digital/my-project") /\
  values !! str "uri" = Some (str "https://github.com/Denman-Digital/my-project#readme") /\
  values !! str "funcPrefix" = Some (str "my_project_") /\
  values !! str "classPrefix" = Some (str "My_Project_").
Proof. vm_compute. repeat split; reflexivity. Qed.

(** C10: the validation of the function-prefix and class-prefix questions
    rejects exactly the answers that contain a whitespace character: such an
    answer gets an error message and the question is asked again, and an
    answer without whitespace is accepted. *)
Theorem prefix_validation (repoName n : list ascii) (q : Prompts.Question) :
  n = str "funcPrefix" \/ n = str "classPrefix" ->
  Prompts.question repoName n = Some q ->
  forall v : list ascii,
    ((exists c, In c v /\ isWhiteSpace c = true) <->
       exists msg, Prompts.validate q v = Prompts.Reject msg) /\
    ((forall c, In c v -> isWhiteSpace c = false) <->
       Prompts.validate q v = Prompts.Accept) /\
    (forall dflt later,
       (exists c, In c v /\ isWhiteSpace c = true) ->
       exists msg,
         Prompts.ask q dflt (v :: later)
         = (fst (Prompts.ask q dflt later), msg :: snd (Prompts.ask q dflt later))) /\
    (forall dflt later,
       v <> [] -> (forall c, In c v -> isWhiteSpace c = false) ->
       Prompts.ask q dflt (v :: later) = (Some v, [])).
Proof.
  intros Hn Hq v. destruct (prefix_question repoName n q Hn Hq) as [msg Hv].
  unfold testClass in Hv.
  repeat split.
  - intros H. apply existsb_In_space in H. exists msg. rewrite Hv, H. reflexivity.
  - intros [m H]. apply existsb_In_space. rewrite Hv in H.
    destruct (existsb isWhiteSpace v); [reflexivity | discriminate].
  - intros H. apply existsb_none_space in H. rewrite Hv, H. reflexivity.
  - intros H. apply existsb_none_space. rewrite Hv in H.
    destruct (existsb isWhiteSpace v); [discriminate | reflexivity].
  - intros dflt later H. apply existsb_In_space in H. exists msg.
    assert (Hs : Prompts.submitted dflt v = v).
    { destruct v; [simpl in H; discriminate | reflexivity]. }
    cbn [Prompts.ask]. rewrite Hs, Hv, H.
    destruct (Prompts.ask q dflt later). reflexivity.
  - intros dflt later Hne H. apply existsb_none_space in H.
    assert (Hs : Prompts.submitted dflt v = v).
    { destruct v; [congruence | reflexivity]. }
    cbn [Prompts.ask]. rewrite Hs, Hv, H. reflexivity.
Qed.

Lemma prefix_validation_witness :
  (exists msg,
     Prompts.ask
       {| Prompts.name := str "funcPrefix"; Prompts.message := str "Theme function prefix";
          Prompts.initial := Prompts.funcPrefixInitial;
          Prompts.validate := Prompts.funcPrefixValidate |}
       (str "my_project_") [str "my theme_"; str "my_theme_"]
     = (fst (Prompts.ask
          {| Prompts.name := str "funcPrefix"; Prompts.message := str "Theme function prefix";
             Prompts.initial := Prompts.funcPrefixInitial;
             Prompts.validate := Prompts.funcPrefixValidate |}
          (str "my_project_") [str "my_theme_"]),
        msg :: snd (Prompts.ask
          {| Prompts.name := str "funcPrefix"; Prompts.message := str "Theme function prefix";
             Prompts.initial := Prompts.funcPrefixInitial;
             Prompts.validate := Prompts.funcPrefixValidate |}
          (str "my_project_") [str "my_theme_"]))).
Proof.
  refine (proj1 (proj2 (proj2
    (prefix_validation [] (str "funcPrefix") _ (or_introl eq_refl) eq_refl
       (str "my theme_")))) (str "my_project_") [str "my_theme_"] _).
  exists " ". split; [vm_compute; tauto | reflexivity].
Defined.

(** ** Replacement strings without references *)

Section References.

Import Prompts Tokens.

Lemma hasReference_cons c rest :
  hasReference (c :: rest) =
  (Ascii.eqb c "$" && startsWithReferenceChar rest) || hasReference rest.
Proof. destruct rest; reflexivity. Qed.

Lemma getSubstitution_plain m pre post t :
  hasReference t = false -> getSubstitution m pre post [] t = t.
Proof.
  induction t as [|c rest IH]; [reflexivity|].
  rewrite hasReference_cons. intros H. apply orb_false_iff in H as [H1 H2].
  specialize (IH H2). cbn [getSubstitution].
  destruct (Ascii.eqb c "$") eqn:Hc; [|rewrite IH; reflexivity].
  destruct rest as [|d r]; [reflexivity|].
  cbn [andb startsWithReferenceChar] in H1. unfold isReferenceChar in H1.
  apply orb_false_iff in H1 as [H1 Hq]. apply orb_false_iff in H1 as [H1 Hb].
  apply orb_false_iff in H1 as [Hd Ha].
  rewrite Hd, Ha, Hb, Hq.
  assert (Hone : match digitValue d with
                 | O => c :: getSubstitution m pre post [] (d :: r)
                 | S i =>
                   match nth_error (@nil (list ascii)) i with
                   | Some cap => cap ++ getSubstitution m pre post [] r
                   | None => c :: getSubstitution m pre post [] (d :: r)
                   end
                 end = c :: d :: r).
  { destruct (digitValue d) as [|i]; [rewrite IH; reflexivity|].
    destruct i; cbn [nth_error]; rewrite IH; reflexivity. }
  destruct (isDigit d); [|rewrite IH; reflexivity].
  cbv zeta. rewrite Hone.
  destruct r as [|d2 r2]; [reflexivity|].
  destruct (isDigit d2); [|reflexivity].
  destruct (10 * digitValue d + digitValue d2)%nat as [|i]; [reflexivity|].
  destruct i; reflexivity.
Qed.

Lemma hasReference_app_inv x y :
  hasReference (x ++ y) = false -> hasReference x = false /\ hasReference y = false.
Proof.
  induction x as [|c x IH]; [intros H; split; [reflexivity | exact H]|].
  cbn [app]. rewrite !hasReference_cons. intros H.
  apply orb_false_iff in H as [H1 H2]. destruct (IH H2) as [Hx Hy].
  split; [|exact Hy]. rewrite Hx, Bool.orb_false_r.
  destruct x; [apply Bool.andb_false_r | exact H1].
Qed.

Lemma hasReference_app x y :
  hasReference x = false -> hasReference y = false ->
  startsWithReferenceChar y = false -> hasReference (x ++ y) = false.
Proof.
  intros Hx Hy Hs. induction x as [|c x IH]; [exact Hy|].
  cbn [app]. rewrite hasReference_cons in *.
  apply orb_false_iff in Hx as [H1 H2]. rewrite (IH H2), Bool.orb_false_r.
  destruct x; [cbn [app]; rewrite Hs; apply Bool.andb_false_r | exact H1].
Qed.

Lemma hasReference_trim s : hasReference s = false -> hasReference (trim s) = false.
Proof.
  intros H. unfold trim.
  destruct (trimStart_split s) as [ws [E _]].
  destruct (trimEnd_split (trimStart s)) as [ws' [E' _]].
  rewrite E, E' in H.
  apply hasReference_app_inv in H as [_ H]. apply hasReference_app_inv in H as [H _].
  exact H.
Qed.

Lemma hasReference_splitFrom cur s :
  hasReference (cur ++ s) = false ->
  Forall (fun seg => hasReference seg = false) (splitFrom "," cur s).
Proof.
  revert cur. induction s as [|c s IH]; intros cur H.
  - rewrite app_nil_r in H. constructor; [exact H | constructor].
  - cbn [splitFrom]. destruct (Ascii.eqb c ",").
    + apply hasReference_app_inv in H as [H1 H2].
      constructor; [exact H1|]. apply IH. cbn [app].
      change (c :: s) with ([c] ++ s) in H2.
      apply hasReference_app_inv in H2 as [_ H2]. exact H2.
    + apply IH. rewrite <- app_assoc. exact H.
Qed.

Lemma hasReference_join items :
  Forall (fun x => hasReference x = false) items ->
  Forall (fun x => startsWithReferenceChar x = false) items ->
  hasReference (join (str ", ") items) = false.
Proof.
  induction items as [|x items IH]; [reflexivity|].
  intros H1 H2. inversion H1 as [|? ? Hx H1']; inversion H2 as [|? ? Hs H2']; subst.
  cbn [join]. destruct items as [|y items]; [exact Hx|].
  apply hasReference_app; [exact Hx | | reflexivity].
  change (hasReference (join (str ", ") (y :: items)) = false).
  apply IH; assumption.
Qed.

Lemma hasReference_quotedKeywords kw :
  hasReference kw = false -> hasReference (quotedKeywords kw) = false.
Proof.
  intros H. unfold quotedKeywords, split.
  pose proof (hasReference_splitFrom [] kw H) as Hs.
  induction Hs as [|seg segs Hseg Hs IH] using Forall_ind.
  - reflexivity.
  - assert (Hq : hasReference ([dq] ++ trim seg ++ [dq]) = false).
    { change (hasReference (trim seg ++ [dq]) = false).
      apply hasReference_app; [apply hasReference_trim, Hseg | reflexivity | reflexivity]. }
    cbn [map join]. destruct (map _ segs) as [|y items] eqn:E; [exact Hq|].
    apply hasReference_app; [exact Hq | | reflexivity].
    exact IH.
Qed.

Lemma replaceStringFrom_indexOf pattern template pre s i :
  indexOf pattern s = Some i ->
  replaceStringFrom pattern template pre s =
  take i s
    ++ getSubstitution pattern (pre ++ take i s) (drop (i + length pattern) s) [] template
    ++ drop (i + length pattern) s.
Proof.
  revert pre i. induction s as [|c s IH]; intros pre i.
  - cbn [indexOf replaceStringFrom]. destruct (isPrefix pattern []); [|discriminate].
    intros [= <-]. rewrite app_nil_r. reflexivity.
  - cbn [indexOf replaceStringFrom]. destruct (isPrefix pattern (c :: s)).
    + intros [= <-]. rewrite app_nil_r. reflexivity.
    + destruct (indexOf pattern s) as [j|] eqn:E; [|discriminate].
      intros [= <-]. rewrite (IH (pre ++ [c]) j eq_refl).
      cbn [take drop app plus]. rewrite <- app_assoc. reflexivity.
Qed.

Lemma replaceString_plain pattern template s i :
  hasReference template = false -> indexOf pattern s = Some i ->
  replaceString pattern template s =
  take i s ++ template ++ drop (i + length pattern) s.
Proof.
  intros Ht Hi. unfold replaceString.
  rewrite (replaceStringFrom_indexOf _ _ _ _ _ Hi), getSubstitution_plain by exact Ht.
  reflexivity.
Qed.

End References.

(** ** The keywords of the manifests *)

Section Keywords.

Import Prompts Runtime Tokens.

Lemma manifestKeywords_replacements repoName a contents :
  makeReplacements (from (EvolvedCli.manifestKeywordsPass repoName a))
    (to (EvolvedCli.manifestKeywordsPass repoName a)) 0 contents
  = replaceString quotedKeywordsToken (quotedKeywords (keywords a)) contents.
Proof. reflexivity. Qed.

Lemma replaceInFile_contents cfg path w contents :
  files w !! path = Some contents -> dry cfg = false ->
  files (snd (replaceInFile cfg path w)) !! path
  = Some (makeReplacements (from cfg) (to cfg) 0 contents).
Proof.
  intros H Hd. unfold replaceInFile. rewrite H, Hd, Bool.orb_false_r.
  case_bool_decide as E; cbn [snd files].
  - rewrite E. exact H.
  - apply lookup_insert_eq.
Qed.

End Keywords.

(** C8, as the script has it: in the pass over the manifest files, what
    replaces the quoted keywords token (and is written, where the pass is not
    a dry run) is the keywords answer split on commas, each segment trimmed and
    wrapped in double quotes, joined by a comma and a space, for every keywords
    answer in which no dollar sign is followed by a dollar sign, an ampersand,
    a backtick or an apostrophe. *)
Theorem keywords_replacement (repoName : list ascii) (a : Answers)
    (contents : list ascii) (i : nat) :
  Tokens.hasReference (keywords a) = false ->
  Tokens.indexOf Tokens.quotedKeywordsToken contents = Some i ->
  let written :=
    take i contents
      ++ join (str ", ")
           (map (fun s => [Prompts.dq] ++ trim s ++ [Prompts.dq]) (split "," (keywords a)))
      ++ drop (i + length Tokens.quotedKeywordsToken) contents in
  Runtime.makeReplacements
    (Runtime.from (EvolvedCli.manifestKeywordsPass repoName a))
    (Runtime.to (EvolvedCli.manifestKeywordsPass repoName a)) 0 contents = written /\
  Runtime.makeReplacements
    (Runtime.from (BinCli.manifestKeywordsPass repoName a))
    (Runtime.to (BinCli.manifestKeywordsPass repoName a)) 0 contents = written /\
  forall path w,
    Runtime.files w !! path = Some contents ->
    Runtime.files
      (snd (Runtime.replaceInFile (EvolvedCli.manifestKeywordsPass repoName a) path w))
      !! path = Some written.
Proof.
  intros Hk Hi written.
  assert (E : Runtime.makeReplacements
    (Runtime.from (EvolvedCli.manifestKeywordsPass repoName a))
    (Runtime.to (EvolvedCli.manifestKeywordsPass repoName a)) 0 contents = written).
  { rewrite manifestKeywords_replacements.
    apply replaceString_plain; [apply hasReference_quotedKeywords, Hk | exact Hi]. }
  split; [exact E|]. split; [exact E|].
  intros path w Hw. rewrite <- E. apply replaceInFile_contents; [exact Hw | reflexivity].
Qed.

Lemma keywords_replacement_witness :
  Runtime.makeReplacements
    (Runtime.from (EvolvedCli.manifestKeywordsPass (str "t") defaultAnswers))
    (Runtime.to (EvolvedCli.manifestKeywordsPass (str "t") defaultAnswers)) 0
    (str "{ keywords: [" ++ Tokens.quotedKeywordsToken ++ str "] }")
  = str "{ keywords: [" ++ [Prompts.dq] ++ str "responsive" ++ [Prompts.dq]
      ++ str ", " ++ [Prompts.dq] ++ str "modern" ++ [Prompts.dq] ++ str "] }".
Proof.
  apply (proj1 (keywords_replacement (str "t") defaultAnswers
    (str "{ keywords: [" ++ Tokens.quotedKeywordsToken ++ str "] }") 13
    ltac:(vm_compute; reflexivity) ltac:(vm_compute; reflexivity))).
Defined.

(** C8 as stated fails: for the keywords answer "C$$, php" the manifest
    receives "C$", "php", not "C$$", "php". *)
Lemma dollar_keywords_differ :
  let a := withKeywords (str "C$$, php") defaultAnswers in
  let contents := str "{ keywords: [" ++ Tokens.quotedKeywordsToken ++ str "] }" in
  Runtime.makeReplacements
    (Runtime.from (EvolvedCli.manifestKeywordsPass (str "t") a))
    (Runtime.to (EvolvedCli.manifestKeywordsPass (str "t") a)) 0 contents
  = str "{ keywords: [" ++ [Prompts.dq] ++ str "C$" ++ [Prompts.dq]
      ++ str ", " ++ [Prompts.dq] ++ str "php" ++ [Prompts.dq] ++ str "] }" /\
  Runtime.makeReplacements
    (Runtime.from (EvolvedCli.manifestKeywordsPass (str "t") a))
    (Runtime.to (EvolvedCli.manifestKeywordsPass (str "t") a)) 0 contents
  <> str "{ keywords: ["
       ++ join (str ", ")
            (map (fun s => [Prompts.dq] ++ trim s ++ [Prompts.dq])
               (split "," (str "C$$, php")))
       ++ str "] }".
Proof. split; [vm_compute; reflexivity | vm_compute; discriminate]. Qed.

(** ** Running the scripts *)

Section RunLemmas.

Import Prompts Runtime Effects.

Variable shell : list ascii -> gmap (list ascii) (list ascii)
                 -> bool * gmap (list ascii) (list ascii).

Lemma bind_value {A B} (m : M A) (k : A -> M B) w a w' :
  m w = (Value a, w') -> bind m k w = k a w'.
Proof. unfold bind. intros ->. reflexivity. Qed.

Lemma bind_thrown {A B} (m : M A) (k : A -> M B) w e w' :
  m w = (Thrown e, w') -> bind m k w = (Thrown e, w').
Proof. unfold bind. intros ->. reflexivity. Qed.

Lemma bind_exited {A B} (m : M A) (k : A -> M B) w c w' :
  m w = (Exited c, w') -> bind m k w = (Exited c, w').
Proof. unfold bind. intros ->. reflexivity. Qed.

Lemma runCommand_fails command w :
  fst (shell command (files w)) = false ->
  runCommand shell command w =
  (Value false,
   {| files := snd (shell command (files w));
      trace := trace w ++ [ExecSync command;
                           ConsoleError (str "Failed to execute " ++ [dq] ++ command ++ [dq]);
                           ConsoleErrorValue (CommandFailed command)] |}).
Proof.
  intros H. unfold runCommand, tryCatch, bind, execSync, consoleError, emit, ret.
  destruct (shell command (files w)) as [ok fs]. cbn [fst] in H. subst ok.
  cbn [snd files trace]. rewrite <- !app_assoc. reflexivity.
Qed.

Lemma runCommand_succeeds command w :
  fst (shell command (files w)) = true ->
  runCommand shell command w =
  (Value true,
   {| files := snd (shell command (files w));
      trace := trace w ++ [ExecSync command] |}).
Proof.
  intros H. unfold runCommand, tryCatch, bind, execSync, ret.
  destruct (shell command (files w)) as [ok fs]. cbn [fst] in H. subst ok.
  reflexivity.
Qed.

End RunLemmas.

(** C1: when the clone command fails, the process exits at once with a
    non-zero status, and the Token Substitution Engine reads and writes no
    file: the run consists of the clone command and the report of its failure.
    Both for the evolved script and for [bin/cli.js]. *)
Theorem clone_failure_exits
    (globMatch : list ascii -> list ascii -> bool)
    (shell : list ascii -> gmap (list ascii) (list ascii)
             -> bool * gmap (list ascii) (list ascii))
    (repoName : list ascii) (a : Answers) (w : Runtime.World) :
  fst (shell (EvolvedCli.gitCheckout repoName) (Runtime.files w)) = false ->
  let failed :=
    {| Runtime.files := snd (shell (EvolvedCli.gitCheckout repoName) (Runtime.files w));
       Runtime.trace := Runtime.trace w ++
         [Runtime.ConsoleLog (str "Cloning the template repository to "
                                ++ [Prompts.dq] ++ repoName ++ [Prompts.dq]);
          Runtime.ExecSync (EvolvedCli.gitCheckout repoName);
          Runtime.ConsoleError (str "Failed to execute " ++ [Prompts.dq]
                                  ++ EvolvedCli.gitCheckout repoName ++ [Prompts.dq]);
          Runtime.ConsoleErrorValue
            (Runtime.CommandFailed (EvolvedCli.gitCheckout repoName))] |} in
  EvolvedCli.main globMatch shell repoName a w = (Runtime.Exited (-1), failed) /\
  BinCli.main globMatch shell repoName a w = (Runtime.Exited (-1), failed) /\
  Runtime.termination (Runtime.Exited (-1)) = Runtime.Status 255 /\
  (forall e, In e (skipn (length (Runtime.trace w)) (Runtime.trace failed)) ->
             Effects.substitutionEvent e = false).
Proof.
  intros H failed.
  assert (Hrun : Runtime.runCommand shell (EvolvedCli.gitCheckout repoName)
            {| Runtime.files := Runtime.files w;
               Runtime.trace := Runtime.trace w ++
                 [Runtime.ConsoleLog (str "Cloning the template repository to "
                                        ++ [Prompts.dq] ++ repoName ++ [Prompts.dq])] |}
          = (Runtime.Value false, failed)).
  { rewrite runCommand_fails by exact H. unfold failed. cbn [Runtime.files Runtime.trace].
    rewrite <- app_assoc. reflexivity. }
  repeat split.
  - unfold EvolvedCli.main, EvolvedCli.script.
    erewrite bind_value by reflexivity.
    erewrite bind_value by exact Hrun.
    reflexivity.
  - unfold BinCli.main, BinCli.clone.
    erewrite bind_exited; [reflexivity|].
    erewrite bind_value by reflexivity.
    erewrite bind_value by exact Hrun.
    reflexivity.
  - unfold failed. cbn [Runtime.trace].
    rewrite skipn_app, skipn_all, Nat.sub_diag. cbn [skipn app].
    intros e [<- | [<- | [<- | [<- | []]]]]; reflexivity.
Qed.

Lemma clone_failure_exits_witness :
  fst (EvolvedCli.main (fun _ _ => false) (fun _ fs => (false, fs)) (str "t")
         defaultAnswers {| Runtime.files := ∅; Runtime.trace := [] |})
  = Runtime.Exited (-1).
Proof.
  rewrite (proj1 (clone_failure_exits (fun _ _ => false) (fun _ fs => (false, fs))
                    (str "t") defaultAnswers
                    {| Runtime.files := ∅; Runtime.trace := [] |} eq_refl)).
  reflexivity.
Defined.

(** ** Effects of the building blocks *)

Section EffectLemmas.

Import Prompts Runtime Effects.

Variable ok : Event -> bool.
Variable frame : bool.

Lemma behaves_ret {A} (a : A) : behaves ok frame (ret a).
Proof.
  intros w. exists []. cbn. rewrite app_nil_r. repeat split; discriminate.
Qed.

Lemma behaves_throw {A} e : behaves ok frame (@throw A e).
Proof.
  intros w. exists []. cbn. rewrite app_nil_r. repeat split; discriminate.
Qed.

Lemma behaves_emit e : ok e = true -> behaves ok frame (emit e).
Proof.
  intros H w. exists [e]. cbn. rewrite H. repeat split; discriminate.
Qed.

Lemma behaves_bind {A B} (m : M A) (k : A -> M B) :
  behaves ok frame m -> (forall a, behaves ok frame (k a)) ->
  behaves ok frame (bind m k).
Proof.
  intros Hm Hk w. unfold bind.
  destruct (Hm w) as (e1 & T1 & O1 & F1 & X1).
  destruct (m w) as [r w1]. cbn [fst snd] in *. destruct r as [a | e | c].
  - destruct (Hk a w1) as (e2 & T2 & O2 & F2 & X2).
    exists (e1 ++ e2). rewrite T2, T1, app_assoc, forallb_app, O1, O2.
    repeat split; [|exact X2]. intros Hf. rewrite (F2 Hf). exact (F1 Hf).
  - exists e1. cbn [fst snd]. repeat split; [assumption .. | discriminate].
  - exfalso. exact (X1 c eq_refl).
Qed.

Lemma behaves_tryCatch {A} (body : M A) (handler : JsError -> M A) :
  behaves ok frame body -> (forall e, behaves ok frame (handler e)) ->
  behaves ok frame (tryCatch body handler).
Proof.
  intros Hm Hk w. unfold tryCatch.
  destruct (Hm w) as (e1 & T1 & O1 & F1 & X1).
  destruct (body w) as [r w1]. cbn [fst snd] in *. destruct r as [a | e | c].
  - exists e1. cbn [fst snd]. repeat split; [assumption .. | discriminate].
  - destruct (Hk e w1) as (e2 & T2 & O2 & F2 & X2).
    exists (e1 ++ e2). rewrite T2, T1, app_assoc, forallb_app, O1, O2.
    repeat split; [|exact X2]. intros Hf. rewrite (F2 Hf). exact (F1 Hf).
  - exfalso. exact (X1 c eq_refl).
Qed.

Lemma returns_tryCatch {A} (body : M A) (handler : JsError -> M A) :
  behaves ok frame body -> (forall e, returns (handler e)) ->
  returns (tryCatch body handler).
Proof.
  intros Hm Hk w. unfold tryCatch.
  destruct (Hm w) as (e1 & _ & _ & _ & X1).
  destruct (body w) as [r w1]. cbn [fst] in X1. destruct r as [a | e | c].
  - eauto.
  - apply Hk.
  - exfalso. exact (X1 c eq_refl).
Qed.

Lemma returns_emit e : returns (emit e).
Proof. intros w. eexists _, _. reflexivity. Qed.

Lemma behaves_fsAccess path : behaves ok frame (fsAccess path).
Proof.
  intros w. exists []. unfold fsAccess. rewrite app_nil_r.
  destruct (files w !! path); cbn; repeat split; discriminate.
Qed.

Lemma behaves_lookupIdentifier scope identifier :
  behaves ok frame (lookupIdentifier scope identifier).
Proof.
  unfold lookupIdentifier. destruct (existsb _ scope);
    [apply behaves_ret | apply behaves_throw].
Qed.

Lemma behaves_forEach (f : list ascii -> M unit) l :
  (forall p, behaves ok frame (f p)) -> behaves ok frame (forEach f l).
Proof.
  intros H. induction l as [|p l IH]; cbn [forEach].
  - apply behaves_ret.
  - apply behaves_bind; [apply H | intros _; exact IH].
Qed.

Lemma behaves_replaceInFile cfg path :
  (forall p, ok (ReplaceRead p) = true) ->
  dry cfg = true \/ (frame = false /\ forall p, ok (ReplaceWrite p) = true) ->
  behaves ok frame (replaceInFile cfg path).
Proof.
  intros Hr Hd w. unfold replaceInFile.
  destruct (files w !! path) as [contents|].
  - destruct Hd as [Hd | [Hf Hw]].
    + rewrite Hd, Bool.orb_true_r. exists [ReplaceRead path].
      cbn. rewrite Hr. repeat split; discriminate.
    + destruct (_ || _).
      * exists [ReplaceRead path]. cbn. rewrite Hr.
        repeat split; try congruence; discriminate.
      * exists [ReplaceRead path; ReplaceWrite path]. cbn. rewrite Hr, Hw, <- app_assoc.
        repeat split; try congruence; discriminate.
  - exists []. cbn. rewrite app_nil_r. repeat split; discriminate.
Qed.

Lemma behaves_replaceInFiles globMatch cfg :
  (forall p, ok (ReplaceRead p) = true) ->
  dry cfg = true \/ (frame = false /\ forall p, ok (ReplaceWrite p) = true) ->
  behaves ok frame (replaceInFiles globMatch cfg).
Proof.
  intros Hr Hd w. unfold replaceInFiles.
  destruct (resolve globMatch (selector cfg) (files w)) as [pattern | paths].
  - exists []. cbn. rewrite app_nil_r. repeat split; discriminate.
  - apply behaves_forEach. intros p. apply behaves_replaceInFile; assumption.
Qed.

End EffectLemmas.

Section FileSteps.

Import Prompts Runtime Effects.

Variable ok : Event -> bool.

Lemma behaves_fsRm path : behaves ok false (fsRm path).
Proof.
  intros w. exists []. unfold fsRm. rewrite app_nil_r.
  destruct (files w !! path); cbn; repeat split; discriminate.
Qed.

Lemma behaves_fsRename oldPath newPath : behaves ok false (fsRename oldPath newPath).
Proof.
  intros w. exists []. unfold fsRename. rewrite app_nil_r.
  destruct (files w !! oldPath); cbn; repeat split; discriminate.
Qed.

End FileSteps.

(** ** The stages of the scripts *)

Section Stages.

Import Prompts Runtime Effects.

Variable globMatch : list ascii -> list ascii -> bool.
Variable shell : list ascii -> gmap (list ascii) (list ascii)
                 -> bool * gmap (list ascii) (list ascii).
Variable repoName : list ascii.
Variable a : Answers.

Lemma returns_bind {A B} (m : M A) (k : A -> M B) :
  returns m -> (forall x, returns (k x)) -> returns (bind m k).
Proof.
  intros Hm Hk w. destruct (Hm w) as (x & w1 & E).
  rewrite (bind_value _ _ _ _ _ E). apply Hk.
Qed.

Lemma evolved_promotePackage_behaves :
  behaves notExec false (EvolvedCli.promotePackage repoName).
Proof.
  apply behaves_tryCatch; [|intros e; apply behaves_emit; reflexivity].
  apply behaves_bind; [apply behaves_fsAccess | intros _].
  apply behaves_bind; [apply behaves_emit; reflexivity | intros _].
  apply behaves_bind; [apply behaves_fsRm | intros _].
  apply behaves_fsRename.
Qed.

Lemma evolved_promoteComposer_behaves :
  behaves notExec false (EvolvedCli.promoteComposer repoName).
Proof.
  apply behaves_tryCatch; [|intros e; apply behaves_emit; reflexivity].
  apply behaves_bind; [apply behaves_fsAccess | intros _].
  apply behaves_bind; [apply behaves_emit; reflexivity | intros _].
  apply behaves_bind; [apply behaves_fsRm | intros _].
  apply behaves_bind; [apply behaves_fsRename | intros _].
  apply behaves_bind; [apply behaves_fsRm | intros _].
  apply behaves_fsRename.
Qed.

Lemma evolved_promoteManifests_behaves :
  behaves notExec false (EvolvedCli.promoteManifests repoName).
Proof.
  apply behaves_bind; [apply evolved_promotePackage_behaves | intros _].
  apply evolved_promoteComposer_behaves.
Qed.

Lemma evolved_promoteManifests_returns :
  returns (EvolvedCli.promoteManifests repoName).
Proof.
  apply returns_bind; [|intros _].
  - eapply returns_tryCatch; [|intros e; apply returns_emit].
    apply behaves_bind; [apply (behaves_fsAccess notExec false) | intros _].
    apply behaves_bind; [apply behaves_emit; reflexivity | intros _].
    apply behaves_bind; [apply behaves_fsRm | intros _].
    apply behaves_fsRename.
  - eapply returns_tryCatch; [|intros e; apply returns_emit].
    apply behaves_bind; [apply (behaves_fsAccess notExec false) | intros _].
    apply behaves_bind; [apply behaves_emit; reflexivity | intros _].
    apply behaves_bind; [apply behaves_fsRm | intros _].
    apply behaves_bind; [apply behaves_fsRename | intros _].
    apply behaves_bind; [apply behaves_fsRm | intros _].
    apply behaves_fsRename.
Qed.

Lemma evolved_substitute_body_behaves :
  behaves notExec false
    (consoleLog (str "Customizing theme metadata") ;;
     replaceInFiles globMatch (EvolvedCli.metadataPass repoName a) ;;
     replaceInFiles globMatch (EvolvedCli.styleKeywordsPass repoName a) ;;
     replaceInFiles globMatch (EvolvedCli.manifestKeywordsPass repoName a) ;;
     replaceInFiles globMatch (EvolvedCli.phpPass repoName a) ;;
     replaceInFiles globMatch (EvolvedCli.readmePass repoName a)).
Proof.
  apply behaves_bind; [apply behaves_emit; reflexivity | intros _].
  repeat (apply behaves_bind; [|intros _]);
    (apply behaves_replaceInFiles;
     [intros p; reflexivity | right; split; [reflexivity | intros p; reflexivity]]).
Qed.

Lemma evolved_substitute_behaves :
  behaves notExec false (EvolvedCli.substitute globMatch repoName a).
Proof.
  apply behaves_tryCatch;
    [apply evolved_substitute_body_behaves | intros e; apply behaves_emit; reflexivity].
Qed.

Lemma evolved_substitute_returns :
  returns (EvolvedCli.substitute globMatch repoName a).
Proof.
  eapply returns_tryCatch;
    [apply evolved_substitute_body_behaves | intros e; apply returns_emit].
Qed.

Lemma setTimer_throws duration w :
  EvolvedCli.setTimer (EvolvedCli.moduleScope ++ nodeGlobals) duration w
  = (Thrown (ReferenceError (str "toNumber")), w).
Proof.
  unfold EvolvedCli.setTimer.
  erewrite bind_value; [|unfold lookupIdentifier;
    replace (existsb _ _) with true by (vm_compute; reflexivity); reflexivity].
  erewrite bind_thrown; [reflexivity|]. unfold lookupIdentifier.
  replace (existsb _ _) with false by (vm_compute; reflexivity). reflexivity.
Qed.

Lemma notExec_In evs command :
  forallb notExec evs = true -> ~ In (ExecSync command) evs.
Proof.
  intros H Hin. rewrite forallb_forall in H. specialize (H _ Hin). discriminate.
Qed.

(** a run of the evolved script in which the clone succeeds *)
Lemma evolved_run_after_clone w :
  fst (shell (EvolvedCli.gitCheckout repoName) (files w)) = true ->
  exists w' evs,
    EvolvedCli.main globMatch shell repoName a w
      = (Thrown (ReferenceError (str "toNumber")), w') /\
    trace w' = trace w
      ++ ConsoleLog (str "Cloning the template repository to " ++ [dq] ++ repoName ++ [dq])
      :: ExecSync (EvolvedCli.gitCheckout repoName)
      :: evs ++ [ConsoleLog (str "Creating a blank-slate Git repo")] /\
    forallb notExec evs = true.
Proof.
  intros H. unfold EvolvedCli.main, EvolvedCli.script.
  erewrite bind_value by reflexivity.
  erewrite bind_value by (apply runCommand_succeeds; exact H).
  cbn [negb when]. erewrite bind_value by reflexivity.
  set (w2 := {| files := _; trace := _ |}).
  destruct (evolved_promoteManifests_returns w2) as ([] & w3 & E3).
  destruct (evolved_promoteManifests_behaves w2) as (e3 & T3 & O3 & _).
  rewrite E3 in T3. cbn [snd] in T3.
  erewrite bind_value by exact E3.
  destruct (evolved_substitute_returns w3) as ([] & w4 & E4).
  destruct (evolved_substitute_behaves w3) as (e4 & T4 & O4 & _).
  rewrite E4 in T4. cbn [snd] in T4.
  erewrite bind_value by exact E4.
  unfold EvolvedCli.resetAndInstall.
  erewrite bind_value by reflexivity.
  erewrite bind_thrown by apply setTimer_throws.
  eexists _, (e3 ++ e4). split; [reflexivity|].
  cbn [trace]. rewrite T4, T3. subst w2. cbn [trace].
  rewrite forallb_app, O3, O4. split; [|reflexivity].
  rewrite <- !app_assoc. reflexivity.
Qed.

End Stages.

(** C4: every call of [setTimer] fails on the unbound [toNumber], so the
    promise it returns is rejected; a run of the evolved script that gets past
    the clone is rejected at the delay before the repo reset, and neither the
    reset nor the install command is run. *)
Theorem setTimer_always_rejects
    (globMatch : list ascii -> list ascii -> bool)
    (shell : list ascii -> gmap (list ascii) (list ascii)
             -> bool * gmap (list ascii) (list ascii))
    (repoName : list ascii) (a : Answers) :
  (forall duration w,
     EvolvedCli.setTimer (EvolvedCli.moduleScope ++ Runtime.nodeGlobals) duration w
     = (Runtime.Thrown (Runtime.ReferenceError (str "toNumber")), w)) /\
  (forall w,
     fst (shell (EvolvedCli.gitCheckout repoName) (Runtime.files w)) = true ->
     exists w' evs,
       EvolvedCli.main globMatch shell repoName a w
         = (Runtime.Thrown (Runtime.ReferenceError (str "toNumber")), w') /\
       Runtime.trace w' = Runtime.trace w ++ evs /\
       ~ In (Runtime.ExecSync (EvolvedCli.newRepo repoName)) evs /\
       ~ In (Runtime.ExecSync (EvolvedCli.installDeps repoName)) evs).
Proof.
  split; [apply setTimer_throws|].
  intros w H.
  destruct (evolved_run_after_clone globMatch shell repoName a w H)
    as (w' & evs & E & T & O).
  eexists w', _. split; [exact E|]. split; [exact T|].
  split; intros [Hin | [Hin | Hin]]; try discriminate Hin;
    (apply in_app_or in Hin as [Hin | [Hin | []]]; [|discriminate Hin]);
    exact (notExec_In _ _ O Hin).
Qed.

Lemma setTimer_always_rejects_witness :
  exists w' evs,
    EvolvedCli.main (fun _ _ => false) (fun _ fs => (true, fs)) (str "t") defaultAnswers
      {| Runtime.files := ∅; Runtime.trace := [] |}
      = (Runtime.Thrown (Runtime.ReferenceError (str "toNumber")), w') /\
    Runtime.trace w' = [] ++ evs /\
    ~ In (Runtime.ExecSync (EvolvedCli.newRepo (str "t"))) evs /\
    ~ In (Runtime.ExecSync (EvolvedCli.installDeps (str "t"))) evs.
Proof.
  apply (proj2 (setTimer_always_rejects (fun _ _ => false) (fun _ fs => (true, fs))
                  (str "t") defaultAnswers)
           {| Runtime.files := ∅; Runtime.trace := [] |}).
  reflexivity.
Defined.

(** ** bin/cli.js: the dry run *)

Section DryRun.

Import Prompts Runtime Effects.

Variable globMatch : list ascii -> list ascii -> bool.
Variable shell : list ascii -> gmap (list ascii) (list ascii)
                 -> bool * gmap (list ascii) (list ascii).
Variable repoName : list ascii.
Variable a : Answers.

Lemma bin_substitute_body_behaves :
  behaves notWrite true
    (consoleLog (str "Customizing theme metadata.") ;;
     replaceInFiles globMatch (BinCli.metadataPass repoName a) ;;
     replaceInFiles globMatch (BinCli.styleKeywordsPass repoName a) ;;
     replaceInFiles globMatch (BinCli.manifestKeywordsPass repoName a) ;;
     replaceInFiles globMatch (BinCli.phpPass repoName a) ;;
     replaceInFiles globMatch (BinCli.readmePass repoName a)).
Proof.
  apply behaves_bind; [apply behaves_emit; reflexivity | intros _].
  repeat (apply behaves_bind; [|intros _]);
    (apply behaves_replaceInFiles; [intros p; reflexivity | left; reflexivity]).
Qed.

Lemma bin_substitute_behaves :
  behaves notWrite true (BinCli.substitute globMatch repoName a).
Proof.
  apply behaves_tryCatch;
    [apply bin_substitute_body_behaves | intros e; apply behaves_emit; reflexivity].
Qed.

Lemma bin_substitute_returns : returns (BinCli.substitute globMatch repoName a).
Proof.
  eapply returns_tryCatch;
    [apply bin_substitute_body_behaves | intros e; apply returns_emit].
Qed.

Lemma bin_install_run w :
  fst (BinCli.install shell repoName w)
  = (if fst (shell (BinCli.installDeps repoName) (files w))
     then Value tt else Exited (-1)) /\
  files (snd (BinCli.install shell repoName w))
  = snd (shell (BinCli.installDeps repoName) (files w)).
Proof.
  unfold BinCli.install, runCommand, tryCatch, bind, execSync, consoleLog,
    consoleError, emit, when, processExit, ret.
  cbn [files trace].
  destruct (shell (BinCli.installDeps repoName) (files w)) as [[] fs];
    split; reflexivity.
Qed.

Lemma bin_install_files w1 w2 :
  files w1 = files w2 ->
  fst (BinCli.install shell repoName w1) = fst (BinCli.install shell repoName w2) /\
  files (snd (BinCli.install shell repoName w1))
  = files (snd (BinCli.install shell repoName w2)).
Proof.
  intros E.
  destruct (bin_install_run w1) as [-> ->], (bin_install_run w2) as [-> ->].
  rewrite E. split; reflexivity.
Qed.

Lemma bin_main_without_substitution w :
  fst (BinCli.main globMatch shell repoName a w)
  = fst (BinCli.withoutSubstitution shell repoName w) /\
  files (snd (BinCli.main globMatch shell repoName a w))
  = files (snd (BinCli.withoutSubstitution shell repoName w)).
Proof.
  unfold BinCli.main, BinCli.withoutSubstitution.
  destruct (BinCli.clone shell repoName w) as [[[] | e | c] w1] eqn:E1.
  - rewrite (bind_value _ _ _ _ _ E1), (bind_value _ _ _ _ _ E1).
    destruct (BinCli.promotePackage repoName w1) as [[[] | e | c] w2] eqn:E2.
    + rewrite (bind_value _ _ _ _ _ E2), (bind_value _ _ _ _ _ E2).
      destruct (bin_substitute_returns w2) as ([] & w3 & E3).
      destruct (bin_substitute_behaves w2) as (evs & _ & _ & F & _).
      rewrite E3 in F. cbn [snd] in F.
      rewrite (bind_value _ _ _ _ _ E3).
      apply bin_install_files, F. reflexivity.
    + rewrite (bind_thrown _ _ _ _ _ E2), (bind_thrown _ _ _ _ _ E2). split; reflexivity.
    + rewrite (bind_exited _ _ _ _ _ E2), (bind_exited _ _ _ _ _ E2). split; reflexivity.
  - rewrite (bind_thrown _ _ _ _ _ E1), (bind_thrown _ _ _ _ _ E1). split; reflexivity.
  - rewrite (bind_exited _ _ _ _ _ E1), (bind_exited _ _ _ _ _ E1). split; reflexivity.
Qed.

End DryRun.

(** C5: in [bin/cli.js] every substitution pass is a dry run, so the
    substitution stage leaves every file as it was (its events are reads, never
    writes), and the files at the end of a run are those the clone, the
    manifest promotion and the install leave. *)
Theorem dry_run_substitution
    (globMatch : list ascii -> list ascii -> bool)
    (shell : list ascii -> gmap (list ascii) (list ascii)
             -> bool * gmap (list ascii) (list ascii))
    (repoName : list ascii) (a : Answers) (w : Runtime.World) :
  forallb Runtime.dry
    [BinCli.metadataPass repoName a; BinCli.styleKeywordsPass repoName a;
     BinCli.manifestKeywordsPass repoName a; BinCli.phpPass repoName a;
     BinCli.readmePass repoName a] = true /\
  (exists w' evs,
     BinCli.substitute globMatch repoName a w = (Runtime.Value tt, w') /\
     Runtime.files w' = Runtime.files w /\
     Runtime.trace w' = Runtime.trace w ++ evs /\
     forallb Effects.notWrite evs = true) /\
  fst (BinCli.main globMatch shell repoName a w)
  = fst (BinCli.withoutSubstitution shell repoName w) /\
  Runtime.files (snd (BinCli.main globMatch shell repoName a w))
  = Runtime.files (snd (BinCli.withoutSubstitution shell repoName w)).
Proof.
  split; [reflexivity|]. split; [|apply bin_main_without_substitution].
  destruct (bin_substitute_returns globMatch repoName a w) as ([] & w' & E).
  destruct (bin_substitute_behaves globMatch repoName a w) as (evs & T & O & F & _).
  rewrite E in T, F. cbn [snd] in T, F.
  exists w', evs. repeat split; auto.
Qed.

(** ** Paths *)

Section Paths.

Import Runtime.

Lemma splitFrom_free sep cur x s :
  existsb (Ascii.eqb sep) x = false ->
  splitFrom sep cur (x ++ s) = splitFrom sep (cur ++ x) s.
Proof.
  revert cur. induction x as [|c x IH]; intros cur H.
  - rewrite app_nil_r. reflexivity.
  - cbn [existsb] in H. apply orb_false_iff in H as [H1 H2].
    cbn [app splitFrom]. rewrite Ascii.eqb_sym, H1, (IH _ H2), <- app_assoc.
    reflexivity.
Qed.

Lemma split_join sep segs :
  segs <> [] -> forallb (fun x => negb (existsb (Ascii.eqb sep) x)) segs = true ->
  split sep (join [sep] segs) = segs.
Proof.
  unfold split. induction segs as [|x segs IH]; [congruence|]. intros _ H.
  cbn [forallb] in H. apply andb_true_iff in H as [H1 H2].
  apply negb_true_iff in H1. cbn [join]. destruct segs as [|y segs].
  - rewrite <- (app_nil_r x) at 1. rewrite splitFrom_free by exact H1. reflexivity.
  - rewrite splitFrom_free by exact H1. cbn [app splitFrom].
    rewrite Ascii.eqb_refl. f_equal. apply IH; [discriminate | exact H2].
Qed.

Lemma splitFrom_app sep cur a b :
  splitFrom sep cur (a ++ sep :: b) = splitFrom sep cur a ++ splitFrom sep [] b.
Proof.
  revert cur. induction a as [|c a IH]; intros cur.
  - cbn [app splitFrom]. rewrite Ascii.eqb_refl. reflexivity.
  - cbn [app splitFrom]. destruct (Ascii.eqb c sep); [|apply IH].
    rewrite IH. reflexivity.
Qed.

Lemma join_app sep a b :
  b <> [] ->
  join sep (a ++ b)
  = match a with
    | [] => join sep b
    | _ :: _ => join sep a ++ sep ++ join sep b
    end.
Proof.
  intros Hb. induction a as [|x a IH]; [reflexivity|].
  cbn [app join]. destruct a as [|y a].
  - cbn [app]. destruct b; [congruence | reflexivity].
  - cbn [app] in IH |- *. rewrite IH, <- !app_assoc. reflexivity.
Qed.

Lemma normalizeStep_plain allow stack name :
  plainName name -> normalizeStep allow stack name = name :: stack.
Proof.
  intros (H1 & _ & H2 & H3). unfold normalizeStep.
  rewrite !bool_decide_eq_false_2 by assumption. reflexivity.
Qed.

Lemma fold_normalizeStep_plain allow names : forall stack,
  Forall plainName names ->
  fold_left (normalizeStep allow) names stack = rev names ++ stack.
Proof.
  induction names as [|name names IH]; intros stack H; [reflexivity|].
  inversion H as [|? ? Hn Hs]; subst.
  cbn [fold_left rev]. rewrite normalizeStep_plain by exact Hn.
  rewrite IH by exact Hs. rewrite <- app_assoc. reflexivity.
Qed.

Lemma endsWithSlash_app a b : b <> [] -> endsWithSlash (a ++ b) = endsWithSlash b.
Proof.
  intros Hb. unfold endsWithSlash. rewrite rev_app_distr.
  destruct (rev b) as [|c l] eqn:E; [|reflexivity].
  apply (f_equal (@rev ascii)) in E. rewrite rev_involutive in E. contradiction.
Qed.

Lemma endsWithSlash_plain name : plainName name -> endsWithSlash name = false.
Proof.
  intros (H1 & H2 & _). unfold endsWithSlash.
  destruct (rev name) as [|c l] eqn:E; [reflexivity|].
  apply (f_equal (@rev ascii)) in E. rewrite rev_involutive in E. subst name.
  cbn [rev] in H2. rewrite existsb_app in H2. apply orb_false_iff in H2 as [_ H2].
  cbn [existsb] in H2. apply orb_false_iff in H2 as [H2 _].
  rewrite Ascii.eqb_sym. exact H2.
Qed.

Lemma join_nonempty sep name names : name <> [] -> join sep (name :: names) <> [].
Proof.
  intros H. cbn [join]. destruct names; [exact H|].
  destruct name; [congruence | discriminate].
Qed.

Lemma endsWithSlash_join names :
  names <> [] -> Forall plainName names -> endsWithSlash (join (str "/") names) = false.
Proof.
  induction names as [|name names IH]; [congruence|]. intros _ H.
  inversion H as [|? ? Hn Hs]; subst. cbn [join].
  destruct names as [|n2 names]; [apply endsWithSlash_plain, Hn|].
  assert (Hne : str "/" ++ join (str "/") (n2 :: names) <> []) by discriminate.
  rewrite (endsWithSlash_app name _ Hne).
  inversion Hs as [|? ? Hn2 _]; subst.
  rewrite endsWithSlash_app by (apply join_nonempty, Hn2).
  apply IH; [discriminate | exact Hs].
Qed.

Lemma plain_no_slash names :
  Forall plainName names ->
  forallb (fun x => negb (existsb (Ascii.eqb "/") x)) names = true.
Proof.
  induction 1 as [|name names (_ & H & _) _ IH]; [reflexivity|].
  cbn [forallb]. rewrite H, IH. reflexivity.
Qed.

Lemma pathJoin_plain r names :
  names <> [] -> Forall plainName names ->
  pathJoin (r :: names) = pathBase r ++ join (str "/") names.
Proof.
  intros Hne Hp.
  assert (Hf : List.filter (fun s => negb (bool_decide (s = []))) names = names).
  { clear Hne. induction Hp as [|name names (H & _) _ IH]; [reflexivity|].
    cbn [List.filter]. rewrite bool_decide_eq_false_2 by exact H.
    cbn [negb]. rewrite IH. reflexivity. }
  destruct names as [|name names]; [congruence|].
  inversion Hp as [|? ? Hn Hs]; subst.
  pose proof (join_nonempty (str "/") name names (proj1 Hn)) as Hj.
  pose proof (endsWithSlash_join (name :: names) Hne Hp) as He.
  pose proof (split_join "/" (name :: names) Hne (plain_no_slash _ Hp)) as Hsp.
  change ["/"] with (str "/") in Hsp.
  assert (Hfr : List.filter (fun s => negb (bool_decide (s = []))) (r :: name :: names)
                = if negb (bool_decide (r = [])) then r :: name :: names
                  else name :: names).
  { change (List.filter (fun s => negb (bool_decide (s = []))) (r :: name :: names))
      with (if negb (bool_decide (r = []))
            then r :: List.filter (fun s => negb (bool_decide (s = []))) (name :: names)
            else List.filter (fun s => negb (bool_decide (s = []))) (name :: names)).
    rewrite Hf. reflexivity. }
  unfold pathJoin. rewrite Hfr. clear Hfr Hf.
  destruct r as [|first r].
  - rewrite bool_decide_eq_true_2 by reflexivity. cbn [negb pathBase app].
    destruct (join (str "/") (name :: names)) as [|c j] eqn:Ej; [congruence|].
    assert (Hc : Ascii.eqb c "/" = false).
    { destruct Hn as (H1 & H2 & _). destruct name as [|c' name']; [congruence|].
      cbn [existsb] in H2. apply orb_false_iff in H2 as [H2 _].
      assert (c = c') by (cbn [join] in Ej; destruct names; cbn in Ej; congruence).
      subst c'. rewrite Ascii.eqb_sym. exact H2. }
    unfold normalize. rewrite He, Hsp, Hc. cbn [negb].
    rewrite fold_normalizeStep_plain by exact Hp.
    rewrite app_nil_r, rev_involutive. cbn [app]. rewrite app_nil_r.
    exact Ej.
  - rewrite bool_decide_eq_false_2 by discriminate. cbn [negb].
    change (join (str "/") ((first :: r) :: name :: names))
      with (first :: (r ++ "/" :: join (str "/") (name :: names))).
    unfold normalize.
    change (first :: r ++ "/" :: join (str "/") (name :: names))
      with ((first :: r) ++ ["/"] ++ join (str "/") (name :: names)).
    rewrite (endsWithSlash_app (first :: r) (["/"] ++ join (str "/") (name :: names)))
      by discriminate.
    rewrite (endsWithSlash_app ["/"] _ Hj), He.
    change ((first :: r) ++ ["/"] ++ join (str "/") (name :: names))
      with ((first :: r) ++ "/" :: join (str "/") (name :: names)).
    unfold split. rewrite splitFrom_app. fold (split "/" (first :: r)).
    fold (split "/" (join (str "/") (name :: names))). rewrite Hsp.
    rewrite fold_left_app, fold_normalizeStep_plain by exact Hp.
    rewrite rev_app_distr, rev_involutive.
    unfold pathBase.
    set (kept := rev (fold_left (normalizeStep (negb (Ascii.eqb first "/")))
                        (split "/" (first :: r)) [])).
    rewrite (join_app (str "/") kept (name :: names) Hne).
    destruct kept as [|k kept'].
    + cbn [app]. rewrite !app_nil_r. reflexivity.
    + rewrite !app_nil_r, <- !app_assoc. reflexivity.
Qed.

End Paths.

(** sample values of [path.join] *)
Example pathJoin_samples :
  Runtime.pathJoin [str "."; str "package.json"] = str "package.json" /\
  Runtime.pathJoin [str "t/"; str "package.json"] = str "t/package.json" /\
  Runtime.pathJoin [[]; str "package.json"] = str "package.json" /\
  Runtime.pathJoin [str "../x"; str "a"] = str "../x/a" /\
  Runtime.pathJoin [str "/abs//y/.."; str "includes"; str "composer.json"]
  = str "/abs/includes/composer.json" /\
  Runtime.pathJoin [str "a/../.."; str "b"] = str "../b" /\
  Runtime.pathJoin [str "/.."; str "b"] = str "/b" /\
  Runtime.pathJoin [str "t"; str "**/*.php"] = str "t/**/*.php" /\
  Runtime.pathJoin [str "."] = str "." /\
  Runtime.pathJoin [str "./"] = str "./" /\
  Runtime.pathJoin [str "/"] = str "/" /\
  Runtime.pathJoin [str "a/"] = str "a/" /\
  Runtime.pathJoin [] = str "." /\
  Runtime.pathJoin [str "my theme"; str "style.css"] = str "my theme/style.css".
Proof. vm_compute. repeat split. Qed.

(** the names the scripts put under the directory are plain *)
Ltac plain_paths :=
  rewrite !pathJoin_plain by (repeat constructor; discriminate); cbn [join].

(** ** Manifest promotion in the evolved script *)

Section Promotion.

Import Prompts Runtime Effects.

Variable repoName : list ascii.

Lemma package_sample_distinct :
  EvolvedCli.packageSample repoName <> EvolvedCli.package repoName.
Proof.
  unfold EvolvedCli.packageSample, EvolvedCli.package. plain_paths.
  intros E. apply app_inv_head in E. discriminate E.
Qed.

(** the package pair: the sample is there and so is the manifest *)
Lemma promotePackage_promotes w sample manifest :
  files w !! EvolvedCli.packageSample repoName = Some sample ->
  files w !! EvolvedCli.package repoName = Some manifest ->
  EvolvedCli.promotePackage repoName w =
  (Value tt,
   {| files := <[EvolvedCli.package repoName := sample]>
                 (delete (EvolvedCli.packageSample repoName)
                    (delete (EvolvedCli.package repoName) (files w)));
      trace := trace w ++
        [ConsoleLog (nl :: str "Generating new package.json from package-sample.json")] |}).
Proof.
  intros Hs Hm.
  unfold EvolvedCli.promotePackage, tryCatch, bind, fsAccess, fsRm, fsRename,
    consoleLog, emit.
  rewrite Hs. cbn [files trace]. rewrite Hm. cbn [files trace].
  rewrite lookup_delete_ne by (apply not_eq_sym, package_sample_distinct).
  rewrite Hs. reflexivity.
Qed.

(** the package pair: no sample *)
Lemma promotePackage_sample_absent w :
  files w !! EvolvedCli.packageSample repoName = None ->
  EvolvedCli.promotePackage repoName w =
  (Value tt,
   {| files := files w;
      trace := trace w ++
        [ConsoleError (str "Unable to generate new package.json from package-sample.json")] |}).
Proof.
  intros Hs.
  unfold EvolvedCli.promotePackage, tryCatch, bind, fsAccess, consoleError, emit.
  rewrite Hs. reflexivity.
Qed.

(** the package pair: a sample, but no manifest to delete *)
Lemma promotePackage_manifest_absent w sample :
  files w !! EvolvedCli.packageSample repoName = Some sample ->
  files w !! EvolvedCli.package repoName = None ->
  EvolvedCli.promotePackage repoName w =
  (Value tt,
   {| files := files w;
      trace := trace w ++
        [ConsoleLog (nl :: str "Generating new package.json from package-sample.json");
         ConsoleError (str "Unable to generate new package.json from package-sample.json")] |}).
Proof.
  intros Hs Hm.
  unfold EvolvedCli.promotePackage, tryCatch, bind, fsAccess, fsRm,
    consoleLog, consoleError, emit.
  rewrite Hs. cbn [files trace]. rewrite Hm. cbn [files trace].
  rewrite <- app_assoc. reflexivity.
Qed.

(** once the package sample has been promoted, the composer block finds no
    package sample and gives up, whatever composer samples there are *)
Lemma composer_skipped_after_package w sample manifest :
  files w !! EvolvedCli.packageSample repoName = Some sample ->
  files w !! EvolvedCli.package repoName = Some manifest ->
  EvolvedCli.promoteManifests repoName w =
  (Value tt,
   {| files := <[EvolvedCli.package repoName := sample]>
                 (delete (EvolvedCli.packageSample repoName)
                    (delete (EvolvedCli.package repoName) (files w)));
      trace := trace w ++
        [ConsoleLog (nl :: str "Generating new package.json from package-sample.json");
         ConsoleError (str "Unable to generate new composer.json's")] |}).
Proof.
  intros Hs Hm. unfold EvolvedCli.promoteManifests.
  rewrite (bind_value _ _ _ _ _ (promotePackage_promotes w sample manifest Hs Hm)).
  unfold EvolvedCli.promoteComposer, tryCatch, bind, fsAccess, consoleError, emit.
  cbn [files trace].
  rewrite lookup_insert_ne by (apply not_eq_sym, package_sample_distinct).
  rewrite lookup_delete_eq. cbn [files trace]. rewrite <- app_assoc. reflexivity.
Qed.

End Promotion.

(** C3, where the script departs from it: a clone that holds the three
    manifests and their three samples.  The package manifest is promoted; the
    composer block then looks for the package sample, which has just been
    renamed away, and reports a failure: both composer manifests keep their
    contents and both composer samples stay. *)
Theorem composer_samples_not_promoted :
  let w := {| Runtime.files := Samples.clonedManifests (str "t"); Runtime.trace := [] |} in
  let w' := snd (EvolvedCli.promoteManifests (str "t") w) in
  Runtime.files w' !! EvolvedCli.package (str "t") = Some (str "package sample") /\
  Runtime.files w' !! EvolvedCli.packageSample (str "t") = None /\
  Runtime.files w' !! EvolvedCli.composerSample (str "t") = Some (str "composer sample") /\
  Runtime.files w' !! EvolvedCli.composer (str "t") = Some (str "composer") /\
  Runtime.files w' !! EvolvedCli.composerIncludesSample (str "t")
    = Some (str "includes composer sample") /\
  Runtime.files w' !! EvolvedCli.composerIncludes (str "t") = Some (str "includes composer") /\
  Runtime.trace w' =
    [Runtime.ConsoleLog
       (Prompts.nl :: str "Generating new package.json from package-sample.json");
     Runtime.ConsoleError (str "Unable to generate new composer.json's")].
Proof. vm_compute. repeat split; reflexivity. Qed.

(** C2, where the script departs from it: the clone and the install would
    succeed and the repo reset would fail.  The clone leaves no file, so both
    promotions log that they could not be done and the first substitution
    pass is rejected for want of [t/style.css], which the script logs.  The
    run then ends at the delay before the reset, with the promise of the
    script rejected: no warning is printed and neither the reset nor the
    install command is run. *)
Theorem reset_failure_run :
  let run :=
    EvolvedCli.main Samples.noGlob (Samples.resetFails (str "t")) (str "t")
      defaultAnswers Effects.emptyWorld in
  Runtime.termination (fst run)
    = Runtime.UnhandledRejection (Runtime.ReferenceError (str "toNumber")) /\
  Runtime.termination (fst run) <> Runtime.Status 0 /\
  Runtime.trace (snd run) =
    [Runtime.ConsoleLog (str "Cloning the template repository to "
                           ++ [Prompts.dq] ++ str "t" ++ [Prompts.dq]);
     Runtime.ExecSync (EvolvedCli.gitCheckout (str "t"));
     Runtime.ConsoleError
       (str "Unable to generate new package.json from package-sample.json");
     Runtime.ConsoleError (str "Unable to generate new composer.json's");
     Runtime.ConsoleLog (str "Customizing theme metadata");
     Runtime.ConsoleErrorValue (Runtime.NoFilesMatch (str "t/style.css"));
     Runtime.ConsoleLog (str "Creating a blank-slate Git repo")].
Proof. vm_compute. repeat split; try reflexivity. discriminate. Qed.

(** ** Exit codes *)

Section ExitCodes.

Import Prompts Runtime Effects.

Variable globMatch : list ascii -> list ascii -> bool.
Variable shell : list ascii -> gmap (list ascii) (list ascii)
                 -> bool * gmap (list ascii) (list ascii).
Variable repoName : list ascii.
Variable a : Answers.

(** [bin/cli.js], which has no reset step: the run ends with a non-zero
    status when the clone fails or the install fails, and returns otherwise *)
Lemma bin_exit_codes w :
  (fst (shell (BinCli.gitCheckout repoName) (files w)) = false ->
   fst (BinCli.main globMatch shell repoName a w) = Exited (-1)) /\
  (fst (shell (BinCli.gitCheckout repoName) (files w)) = true ->
   exists w3,
     fst (BinCli.main globMatch shell repoName a w)
     = if fst (shell (BinCli.installDeps repoName) (files w3))
       then Value tt else Exited (-1)).
Proof.
  split; intros H.
  - unfold BinCli.main, BinCli.clone.
    erewrite bind_exited; [reflexivity|].
    erewrite bind_value by reflexivity.
    erewrite bind_value by (apply runCommand_fails; exact H).
    reflexivity.
  - destruct (bin_main_without_substitution globMatch shell repoName a w) as [-> _].
    unfold BinCli.withoutSubstitution, BinCli.clone.
    erewrite bind_value;
      [|erewrite bind_value by reflexivity;
        erewrite bind_value by (apply runCommand_succeeds; exact H); reflexivity].
    set (w1 := {| files := _; trace := _ |}).
    assert (Hp : returns (BinCli.promotePackage repoName)).
    { eapply returns_tryCatch; [|intros e; apply returns_emit].
      apply behaves_bind; [apply (behaves_fsAccess notExec false) | intros _].
      apply behaves_bind; [apply behaves_emit; reflexivity | intros _].
      apply behaves_bind; [apply behaves_fsRm | intros _].
      apply behaves_fsRename. }
    destruct (Hp w1) as ([] & w2 & E2).
    rewrite (bind_value _ _ _ _ _ E2).
    exists w2. apply bin_install_run.
Qed.

Lemma setTimer_sleeps duration w :
  EvolvedCli.setTimer EvolvedCli.scopeWithToNumber duration w
  = (Value tt, {| files := files w; trace := trace w ++ [Sleep duration] |}).
Proof.
  unfold EvolvedCli.setTimer.
  erewrite bind_value; [|unfold lookupIdentifier;
    replace (existsb _ _) with true by (vm_compute; reflexivity); reflexivity].
  erewrite bind_value; [reflexivity|]. unfold lookupIdentifier.
  replace (existsb _ _) with true by (vm_compute; reflexivity). reflexivity.
Qed.

(** the last stage of the evolved script, had [toNumber] been bound: a failed
    reset prints the warning and the install still runs; the status is
    non-zero when the install fails and only then *)
Lemma resetAndInstall_with_toNumber w :
  let reset := shell (EvolvedCli.newRepo repoName) (files w) in
  let install := shell (EvolvedCli.installDeps repoName) (snd reset) in
  let run := EvolvedCli.resetAndInstall shell EvolvedCli.scopeWithToNumber repoName w in
  fst run = (if fst install then Value tt else Exited (-1)) /\
  files (snd run) = snd install /\
  In (ExecSync (EvolvedCli.installDeps repoName)) (trace (snd run)) /\
  (fst reset = false ->
   In (ConsoleWarn (str "Was unable to finish removing boilerplate's development Git history and initialize new blank repo"))
      (trace (snd run))).
Proof.
  cbv zeta. unfold EvolvedCli.resetAndInstall.
  erewrite bind_value by reflexivity.
  erewrite bind_value by apply setTimer_sleeps.
  destruct (fst (shell (EvolvedCli.newRepo repoName) (files w))) eqn:H1.
  - erewrite bind_value by (apply runCommand_succeeds; exact H1).
    cbn [negb when]. do 2 erewrite bind_value by reflexivity.
    erewrite bind_value by apply setTimer_sleeps. cbn [files trace].
    destruct (fst (shell (EvolvedCli.installDeps repoName)
                     (snd (shell (EvolvedCli.newRepo repoName) (files w))))) eqn:H2.
    + erewrite bind_value by (apply runCommand_succeeds; exact H2).
      cbn [negb when]. do 2 erewrite bind_value by reflexivity.
      cbn [consoleLog emit fst snd files trace]. repeat split; [|discriminate].
      rewrite !in_app_iff. cbn [In]. tauto.
    + erewrite bind_value by (apply runCommand_fails; exact H2).
      cbn [negb when]. erewrite bind_exited by reflexivity.
      cbn [fst snd files trace]. repeat split; [|discriminate].
      rewrite !in_app_iff. cbn [In]. tauto.
  - erewrite bind_value by (apply runCommand_fails; exact H1).
    cbn [negb when]. do 2 erewrite bind_value by reflexivity.
    erewrite bind_value by apply setTimer_sleeps. cbn [files trace].
    destruct (fst (shell (EvolvedCli.installDeps repoName)
                     (snd (shell (EvolvedCli.newRepo repoName) (files w))))) eqn:H2.
    + erewrite bind_value by (apply runCommand_succeeds; exact H2).
      cbn [negb when]. do 2 erewrite bind_value by reflexivity.
      cbn [consoleLog emit fst snd files trace]. repeat split; intros; rewrite !in_app_iff; cbn [In]; tauto.
    + erewrite bind_value by (apply runCommand_fails; exact H2).
      cbn [negb when]. erewrite bind_exited by reflexivity.
      cbn [fst snd files trace]. repeat split; intros; rewrite !in_app_iff; cbn [In]; tauto.
Qed.

End ExitCodes.

(** * Further properties *)

(** ** What the case transformers keep *)

Section Content.

Import Facts.

Local Ltac all_chars c :=
  destruct c as [[] [] [] [] [] [] [] []]; vm_compute; try reflexivity; try discriminate; auto.

Lemma toLower_separator c : isSeparator (toLowerCaseChar c) = isSeparator c.
Proof. unfold isSeparator. rewrite toLower_space, toLower_dash. reflexivity. Qed.

Lemma toLower_toUpper c : toLowerCaseChar (toUpperCaseChar c) = toLowerCaseChar c.
Proof. all_chars c. Qed.

Lemma toUpper_toUpper c : toUpperCaseChar (toUpperCaseChar c) = toUpperCaseChar c.
Proof. all_chars c. Qed.

Lemma toUpper_word c : isWordChar (toUpperCaseChar c) = isWordChar c.
Proof. all_chars c. Qed.

Lemma toUpper_space c : isWhiteSpace (toUpperCaseChar c) = isWhiteSpace c.
Proof. all_chars c. Qed.

Lemma dash_hyphen c : isDashUnderscore c = false -> isHyphen c = false /\ isUnderscore c = false.
Proof. all_chars c. Qed.

Lemma content_app a b : content (a ++ b) = content a ++ content b.
Proof. apply List.filter_app. Qed.

Lemma content_spaces ws : forallb isWhiteSpace ws = true -> content ws = [].
Proof.
  induction ws as [|c ws IH]; [reflexivity|].
  cbn [forallb]. intros H. apply andb_true_iff in H as [H1 H2].
  unfold content. cbn [List.filter]. unfold isSeparator. rewrite H1. exact (IH H2).
Qed.

Lemma content_spaceBeforeUpperRuns b s : content (spaceBeforeUpperRuns b s) = content s.
Proof.
  revert b. induction s as [|c s IH]; intros b; [reflexivity|].
  cbn [spaceBeforeUpperRuns]. destruct (isUpperAZ c).
  - destruct b; rewrite content_app; unfold content at 1 3; cbn [List.filter];
      destruct (negb (isSeparator c)); cbn [app]; fold (content s);
      fold (content (spaceBeforeUpperRuns true s)); rewrite IH; reflexivity.
  - unfold content. cbn [List.filter]. fold (content s).
    fold (content (spaceBeforeUpperRuns false s)). rewrite IH. reflexivity.
Qed.

Lemma content_runsToChar cls r b s :
  (forall c, cls c = true -> isSeparator c = true) -> isSeparator r = true ->
  content (runsToChar cls r b s) = content s.
Proof.
  intros Hc Hr. revert b. induction s as [|c s IH]; intros b; [reflexivity|].
  cbn [runsToChar]. destruct (cls c) eqn:E.
  - rewrite content_app, IH. unfold content at 1 3. cbn [List.filter].
    rewrite (Hc c E). cbn [negb]. destruct b; cbn [List.filter app]; rewrite ?Hr; reflexivity.
  - unfold content. cbn [List.filter]. fold (content s).
    fold (content (runsToChar cls r false s)). rewrite IH. reflexivity.
Qed.

Lemma content_trim s : content (trim s) = content s.
Proof.
  unfold trim.
  destruct (trimStart_split s) as [ws [E H]].
  destruct (trimEnd_split (trimStart s)) as [ws' [E' H']].
  rewrite E at 2. rewrite E' at 2.
  rewrite !content_app, (content_spaces ws H), (content_spaces ws' H'), app_nil_r.
  reflexivity.
Qed.

Lemma content_toLowerCase s : content (toLowerCase s) = toLowerCase (content s).
Proof.
  induction s as [|c s IH]; [reflexivity|].
  unfold content, toLowerCase. cbn [map List.filter]. rewrite toLower_separator.
  fold (toLowerCase s). fold (content (toLowerCase s)). fold (content s).
  rewrite IH. destruct (negb (isSeparator c)); reflexivity.
Qed.

Lemma content_stripCase s : content (stripCase s) = toLowerCase (content s).
Proof.
  rewrite stripCase_refines. unfold stripCaseSpec.
  rewrite content_toLowerCase, content_trim.
  rewrite content_runsToChar;
    [| intros c H; unfold isSeparator; rewrite H; reflexivity | reflexivity].
  rewrite content_runsToChar;
    [| intros c H; unfold isSeparator; rewrite H; apply Bool.orb_true_r | reflexivity].
  rewrite content_spaceBeforeUpperRuns. reflexivity.
Qed.

Lemma content_nil_iff s : content s = [] <-> forallb isSeparator s = true.
Proof.
  induction s as [|c s IH]; [split; reflexivity|].
  unfold content. cbn [List.filter forallb]. fold (content s).
  destruct (isSeparator c); cbn [negb andb]; [exact IH|].
  split; discriminate.
Qed.

Lemma stripped_content_nil t : stripped t = true -> content t = [] -> t = [].
Proof.
  intros H Hc. apply stripped_inv in H as (_ & Hd & _ & Hs & _).
  destruct t as [|c t]; [reflexivity|]. exfalso.
  cbn in Hs. unfold hasDashUnderscore in Hd. cbn in Hd.
  apply orb_false_iff in Hd as [Hd _].
  unfold content in Hc. cbn [List.filter] in Hc. unfold isSeparator in Hc.
  rewrite Hs, Hd in Hc. discriminate.
Qed.

Lemma upperCaseWordsFrom_length b s :
  length (upperCaseWordsFrom b s) = length s.
Proof.
  revert b. induction s as [|c s IH]; intros b; [reflexivity|].
  cbn [upperCaseWordsFrom]. rewrite length_app, IH.
  destruct (isWordChar c && negb b); reflexivity.
Qed.

Lemma upperCaseWordsFrom_idempotent b s :
  upperCaseWordsFrom b (upperCaseWordsFrom b s) = upperCaseWordsFrom b s.
Proof.
  revert b. induction s as [|c s IH]; intros b; [reflexivity|].
  cbn [upperCaseWordsFrom toUpperCase map].
  destruct (isWordChar c && negb b) eqn:E; cbn [app upperCaseWordsFrom toUpperCase map].
  - rewrite toUpper_word, E, toUpper_toUpper, IH. reflexivity.
  - rewrite E, IH. reflexivity.
Qed.

Lemma toLowerCase_upperCaseWordsFrom_any b s :
  toLowerCase (upperCaseWordsFrom b s) = toLowerCase s.
Proof.
  revert b. induction s as [|c s IH]; intros b; [reflexivity|].
  cbn [upperCaseWordsFrom toUpperCase map].
  destruct (isWordChar c && negb b); cbn [app toLowerCase map];
    fold (toLowerCase (upperCaseWordsFrom (isWordChar c) s)); fold (toLowerCase s);
    rewrite ?toLower_toUpper, IH; reflexivity.
Qed.

Lemma toLowerCase_runsToChar cls r b s :
  (forall c, cls (toLowerCaseChar c) = cls c) -> toLowerCaseChar r = r ->
  toLowerCase (runsToChar cls r b s) = runsToChar cls r b (toLowerCase s).
Proof.
  intros Hc Hr. revert b. induction s as [|c s IH]; intros b; [reflexivity|].
  cbn [runsToChar toLowerCase map]. fold (toLowerCase s). rewrite Hc.
  destruct (cls c).
  - unfold toLowerCase at 1. rewrite map_app. fold (toLowerCase (runsToChar cls r true s)).
    rewrite IH. destruct b; cbn [map]; rewrite ?Hr; reflexivity.
  - cbn [toLowerCase map]. fold (toLowerCase (runsToChar cls r false s)).
    rewrite IH. reflexivity.
Qed.

Lemma stripCase_lower s : toLowerCase (stripCase s) = stripCase s.
Proof.
  apply toLowerCase_id.
  destruct (stripped_inv _ (stripCase_stripped s)) as (H & _). exact H.
Qed.

Lemma snakeCase_separated s : snakeCase s = separated "_" (stripCase s).
Proof.
  destruct (stripped_inv _ (stripCase_stripped s)) as (_ & _ & _ & _ & _ & Hdd).
  unfold snakeCase. change (str "_") with ["_"]. rewrite replaceRuns_char.
  apply runsToChar_separated; [exact Hdd | discriminate].
Qed.

Lemma kebabCase_separated s : kebabCase s = separated "-" (stripCase s).
Proof.
  destruct (stripped_inv _ (stripCase_stripped s)) as (_ & _ & _ & _ & _ & Hdd).
  unfold kebabCase. change (str "-") with ["-"]. rewrite replaceRuns_char.
  apply runsToChar_separated; [exact Hdd | discriminate].
Qed.

Lemma stripCase_snakeCase s : stripCase (snakeCase s) = stripCase s.
Proof.
  rewrite snakeCase_separated.
  apply stripCase_separated; [reflexivity | apply stripCase_stripped].
Qed.

Lemma stripCase_kebabCase s : stripCase (kebabCase s) = stripCase s.
Proof.
  rewrite kebabCase_separated.
  apply stripCase_separated; [reflexivity | apply stripCase_stripped].
Qed.

Lemma content_separated r t :
  isSeparator r = true -> content (separated r t) = content t.
Proof.
  intros Hr. induction t as [|c t IH]; [reflexivity|].
  unfold content, separated. cbn [map List.filter].
  fold (separated r t). fold (content (separated r t)). fold (content t). rewrite IH.
  destruct (isWhiteSpace c) eqn:E; [|reflexivity].
  unfold isSeparator at 2. rewrite Hr, E. reflexivity.
Qed.

Lemma existsb_weaken (P Q : ascii -> bool) s :
  (forall c, Q c = false -> P c = false) ->
  existsb Q s = false -> existsb P s = false.
Proof.
  intros H. induction s as [|c s IH]; [reflexivity|].
  cbn [existsb]. intros E. apply orb_false_iff in E as [E1 E2].
  rewrite (H c E1), (IH E2). reflexivity.
Qed.

Lemma replaceRuns_no_space r s :
  isWhiteSpace r = false ->
  existsb isWhiteSpace (replaceRuns isWhiteSpace false [r] s) = false.
Proof. intros H. rewrite replaceRuns_char. apply runsToChar_removes, H. Qed.

End Content.

(** X1: for every string, the characters of [stripCase s] other than its single
    spaces are the characters of [s] other than whitespace, underscores and
    hyphens, lowercased and in the same order: nothing is dropped or moved *)
Theorem stripCase_keeps_content (s : list ascii) :
  Facts.content (stripCase s) = toLowerCase (Facts.content s) /\
  Facts.content (snakeCase s) = toLowerCase (Facts.content s) /\
  Facts.content (kebabCase s) = toLowerCase (Facts.content s).
Proof.
  split; [apply content_stripCase|].
  rewrite snakeCase_separated, kebabCase_separated.
  rewrite !content_separated by reflexivity.
  split; apply content_stripCase.
Qed.

(** X2: [stripCase] returns the empty string exactly for the strings made of
    whitespace, underscores and hyphens only (the empty string among them) *)
Theorem stripCase_empty_iff (s : list ascii) :
  (stripCase s = [] -> forallb Facts.isSeparator s = true) /\
  (forallb Facts.isSeparator s = true -> stripCase s = []).
Proof.
  split; intros H.
  - apply content_nil_iff.
    pose proof (content_stripCase s) as E. rewrite H in E.
    destruct (Facts.content s); [reflexivity | discriminate E].
  - apply stripped_content_nil; [apply stripCase_stripped|].
    rewrite content_stripCase. apply content_nil_iff in H. rewrite H. reflexivity.
Qed.

(** X3: [upperCaseWords] changes no length, changes at most the case of a
    character, and applying it twice is applying it once *)
Theorem upperCaseWords_only_case (s : list ascii) :
  length (upperCaseWords s) = length s /\
  toLowerCase (upperCaseWords s) = toLowerCase s /\
  upperCaseWords (upperCaseWords s) = upperCaseWords s.
Proof.
  unfold upperCaseWords. split; [apply upperCaseWordsFrom_length|].
  split; [apply toLowerCase_upperCaseWordsFrom_any | apply upperCaseWordsFrom_idempotent].
Qed.

(** X4: title case differs from strip case, and title snake case from snake case,
    in the case of letters only: lowercasing gives the other back *)
Theorem titleCase_lowercased (s : list ascii) :
  toLowerCase (titleCase s) = stripCase s /\
  toLowerCase (titleSnakeCase s) = snakeCase s /\
  length (titleCase s) = length (stripCase s).
Proof.
  split; [|split].
  - unfold titleCase, upperCaseWords.
    rewrite toLowerCase_upperCaseWordsFrom_any. apply stripCase_lower.
  - unfold titleSnakeCase, snakeCase, titleCase, upperCaseWords.
    change (str "_") with ["_"]. rewrite !replaceRuns_char.
    rewrite toLowerCase_runsToChar by (first [apply toLower_space | reflexivity]).
    rewrite toLowerCase_upperCaseWordsFrom_any, stripCase_lower. reflexivity.
  - apply upperCaseWordsFrom_length.
Qed.

(** X5: snake case and kebab case carry the same information as strip case:
    [stripCase] undoes either, and each converts into the other *)
Theorem snake_kebab_round_trip (s : list ascii) :
  stripCase (snakeCase s) = stripCase s /\
  stripCase (kebabCase s) = stripCase s /\
  kebabCase (snakeCase s) = kebabCase s /\
  snakeCase (kebabCase s) = snakeCase s.
Proof.
  split; [apply stripCase_snakeCase|]. split; [apply stripCase_kebabCase|].
  split.
  - unfold kebabCase at 1. rewrite stripCase_snakeCase. reflexivity.
  - unfold snakeCase at 1. rewrite stripCase_kebabCase. reflexivity.
Qed.

(** X6: snake case and kebab case hold no whitespace, no letter A-Z and no
    capital letter of U+00C0..U+00DE; snake case holds no hyphen, kebab case no
    underscore; title snake case holds no whitespace *)
Theorem snake_kebab_alphabet (s : list ascii) :
  (existsb isWhiteSpace (snakeCase s) = false /\
   existsb isUpperAZ (snakeCase s) = false /\
   existsb isLatin1Upper (snakeCase s) = false /\
   existsb Facts.isHyphen (snakeCase s) = false) /\
  (existsb isWhiteSpace (kebabCase s) = false /\
   existsb isUpperAZ (kebabCase s) = false /\
   existsb isLatin1Upper (kebabCase s) = false /\
   existsb Facts.isUnderscore (kebabCase s) = false) /\
  existsb isWhiteSpace (titleSnakeCase s) = false.
Proof.
  destruct (stripped_inv _ (stripCase_stripped s)) as (Hu & Hd & _).
  unfold hasUpper, hasDashUnderscore in *.
  assert (Ha : existsb isUpperAZ (stripCase s) = false)
    by (apply (existsb_weaken _ isUpper);
        [intros c H; unfold isUpper in H; apply orb_false_iff in H as [H _]; exact H
        | exact Hu]).
  assert (Hl : existsb isLatin1Upper (stripCase s) = false)
    by (apply (existsb_weaken _ isUpper);
        [intros c H; unfold isUpper in H; apply orb_false_iff in H as [_ H]; exact H
        | exact Hu]).
  assert (Hh : existsb Facts.isHyphen (stripCase s) = false)
    by (apply (existsb_weaken _ isDashUnderscore); [apply dash_hyphen | exact Hd]).
  assert (Hn : existsb Facts.isUnderscore (stripCase s) = false)
    by (apply (existsb_weaken _ isDashUnderscore); [apply dash_hyphen | exact Hd]).
  unfold snakeCase, kebabCase, titleSnakeCase.
  change (str "_") with ["_"]. change (str "-") with ["-"].
  repeat split; try (apply replaceRuns_no_space; reflexivity);
    rewrite replaceRuns_char; apply runsToChar_keeps; (reflexivity || assumption).
Qed.

(** ** Defaults of the prompt table *)

Section PromptDefaults.

Import Prompts Facts.

Lemma funcPrefix_default_valid slug :
  funcPrefixValidate (snakeCase slug ++ str "_") = Accept.
Proof.
  unfold funcPrefixValidate, testClass. rewrite existsb_app.
  unfold snakeCase. change (str "_") with ["_"].
  rewrite replaceRuns_no_space by reflexivity. reflexivity.
Qed.

Lemma classPrefix_default_valid slug :
  classPrefixValidate (titleSnakeCase slug ++ str "_") = Accept.
Proof.
  unfold classPrefixValidate, testClass. rewrite existsb_app.
  unfold titleSnakeCase. change (str "_") with ["_"].
  rewrite replaceRuns_no_space by reflexivity. reflexivity.
Qed.

Lemma question_authorUri repoName :
  exists q, question repoName (str "authorUri") = Some q /\
    forall prev values,
      initial q prev values =
      Some (if bool_decide (prev = str "Denman Digital")
            then str "https://denman.digital/" else []).
Proof. eexists. split; [reflexivity|]. intros prev values. reflexivity. Qed.

Lemma kebabCase_not_name name : kebabCase name <> str "Denman Digital".
Proof.
  intros E.
  assert (H : existsb isWhiteSpace (kebabCase name) = false).
  { unfold kebabCase. change (str "-") with ["-"].
    apply replaceRuns_no_space. reflexivity. }
  rewrite E in H. discriminate H.
Qed.

Lemma collect_default q qs prev values input dflt :
  initial q prev values = Some dflt -> validate q dflt = Accept ->
  collect (q :: qs) prev values ([[]] :: input)
  = collect qs dflt (<[name q := dflt]> values) input.
Proof.
  intros Hi Hv. cbn [collect]. rewrite Hi. cbn [ask submitted]. rewrite Hv.
  reflexivity.
Qed.

Lemma slug_default repoName :
  repoName <> [] -> repoName <> str "." ->
  (if negb (bool_decide (repoName = [])) && negb (bool_decide (repoName = str "."))
   then repoName else str "my-project") = repoName.
Proof.
  intros H1 H2. rewrite !bool_decide_eq_false_2 by assumption. reflexivity.
Qed.

End PromptDefaults.

(** X7: whatever the slug, the defaults offered for the function prefix and the
    class prefix pass their own validation: taking the default at either
    question is never answered with the error message *)
Theorem prefix_defaults_accepted (repoName prev : list ascii)
    (values : gmap (list ascii) (list ascii)) (n dflt : list ascii)
    (q : Prompts.Question) (later : list (list ascii)) :
  n = str "funcPrefix" \/ n = str "classPrefix" ->
  Prompts.question repoName n = Some q ->
  Prompts.initial q prev values = Some dflt ->
  Prompts.validate q dflt = Prompts.Accept /\
  Prompts.ask q dflt ([] :: later) = (Some dflt, []).
Proof.
  intros Hn Hq Hi.
  assert (Hv : Prompts.validate q dflt = Prompts.Accept).
  { destruct Hn as [-> | ->].
    - rewrite question_funcPrefix in Hq. injection Hq as <-.
      cbn [Prompts.initial Prompts.validate] in *.
      unfold Prompts.funcPrefixInitial in Hi.
      destruct (values !! str "slug") as [slug|]; [|discriminate Hi].
      injection Hi as <-. apply funcPrefix_default_valid.
    - rewrite question_classPrefix in Hq. injection Hq as <-.
      cbn [Prompts.initial Prompts.validate] in *.
      unfold Prompts.classPrefixInitial in Hi.
      destruct (values !! str "slug") as [slug|]; [|discriminate Hi].
      injection Hi as <-. apply classPrefix_default_valid. }
  split; [exact Hv|]. cbn [Prompts.ask Prompts.submitted]. rewrite Hv. reflexivity.
Qed.

Lemma prefix_defaults_accepted_witness :
  Prompts.validate
    {| Prompts.name := str "classPrefix"; Prompts.message := str "Theme class prefix";
       Prompts.initial := Prompts.classPrefixInitial;
       Prompts.validate := Prompts.classPrefixValidate |}
    (str "Acme_Shop_Theme_") = Prompts.Accept /\
  Prompts.ask
    {| Prompts.name := str "classPrefix"; Prompts.message := str "Theme class prefix";
       Prompts.initial := Prompts.classPrefixInitial;
       Prompts.validate := Prompts.classPrefixValidate |}
    (str "Acme_Shop_Theme_") [[]; str "x"] = (Some (str "Acme_Shop_Theme_"), []).
Proof.
  refine (prefix_defaults_accepted [] [] {[ str "slug" := str "acme shop-theme" ]}
           (str "classPrefix") (str "Acme_Shop_Theme_")
           {| Prompts.name := str "classPrefix"; Prompts.message := str "Theme class prefix";
              Prompts.initial := Prompts.classPrefixInitial;
              Prompts.validate := Prompts.classPrefixValidate |}
           [str "x"] (or_intror eq_refl) _ _).
  - reflexivity.
  - vm_compute; reflexivity.
Defined.

(** X8: in the evolved table the author-URL question follows the author-slug
    question, whose default is the kebab case of the author name; that default
    is never the text "Denman Digital", so after a default author slug the
    author URL offered is empty, whatever the author name *)
Theorem authorUri_default_empty (repoName : list ascii) :
  exists before qSlug qUri after,
    Prompts.questions repoName = before ++ qSlug :: qUri :: after /\
    Prompts.name qSlug = str "authorSlug" /\
    Prompts.name qUri = str "authorUri" /\
    forall authorName values values',
      Prompts.initial qSlug authorName values = Some (kebabCase authorName) /\
      Prompts.initial qUri (kebabCase authorName) values' = Some [].
Proof.
  unfold Prompts.questions.
  eexists [_; _; _; _], _, _, _. split; [reflexivity|].
  split; [reflexivity|]. split; [reflexivity|].
  intros authorName values values'. cbn [Prompts.initial].
  split; [reflexivity|].
  rewrite bool_decide_eq_false_2 by apply kebabCase_not_name. reflexivity.
Qed.


(** X9: a session of the evolved script in which every default is taken, for a
    directory argument other than "." : each answer follows from the argument
    (slug and text domain are the argument, the display name its title case,
    the prefixes its snake and title snake case with an underscore), and the
    author URL is empty *)
Theorem default_session (repoName : list ascii) :
  repoName <> [] -> repoName <> str "." ->
  Prompts.collect (Prompts.questions repoName) [] ∅ (repeat [[]] 12)
  = Facts.defaultValues repoName.
Proof.
  intros H1 H2. unfold Prompts.questions. rewrite (slug_default _ H1 H2).
  cbn [repeat].
  do 5 (erewrite collect_default; [|cbn [Prompts.initial]; reflexivity|reflexivity];
        cbn [Prompts.name]).
  change (kebabCase (str "Denman Digital")) with (str "denman-digital").
  erewrite collect_default; [|cbn [Prompts.initial];
    rewrite bool_decide_eq_false_2 by discriminate; reflexivity|reflexivity].
  cbn [Prompts.name].
  erewrite collect_default;
    [|cbn [Prompts.initial]; unfold Prompts.githubUriInitial;
      rewrite (bool_decide_eq_true_2 (_ !! str "authorName" = _))
        by (repeat (rewrite lookup_insert_ne by discriminate); apply lookup_insert_eq);
      cbn [orb];
      replace (_ !! str "slug") with (Some repoName)
        by (symmetry; repeat (rewrite lookup_insert_ne by discriminate);
            apply lookup_insert_eq);
      reflexivity
     |reflexivity].
  cbn [Prompts.name].
  erewrite collect_default; [|cbn [Prompts.initial]; reflexivity|reflexivity].
  cbn [Prompts.name].
  erewrite collect_default; [|cbn [Prompts.initial]; reflexivity|reflexivity].
  cbn [Prompts.name].
  erewrite collect_default;
    [|cbn [Prompts.initial];
      repeat (rewrite lookup_insert_ne by discriminate); apply lookup_insert_eq
     |reflexivity].
  cbn [Prompts.name].
  erewrite collect_default;
    [|cbn [Prompts.initial]; unfold Prompts.funcPrefixInitial;
      repeat (rewrite lookup_insert_ne by discriminate); rewrite lookup_insert_eq;
      reflexivity
     |apply funcPrefix_default_valid].
  cbn [Prompts.name].
  erewrite collect_default;
    [|cbn [Prompts.initial]; unfold Prompts.classPrefixInitial;
      repeat (rewrite lookup_insert_ne by discriminate); rewrite lookup_insert_eq;
      reflexivity
     |apply classPrefix_default_valid].
  cbn [Prompts.name Prompts.collect].
  reflexivity.
Qed.

Lemma default_session_witness :
  Prompts.collect (Prompts.questions (str "acme-theme")) [] ∅ (repeat [[]] 12)
  = Facts.defaultValues (str "acme-theme").
Proof.
  apply (default_session (str "acme-theme")); discriminate.
Defined.


(** ** Splitting and quoting the keywords *)

Section Split.

Import Prompts Tokens Facts.

Lemma splitFrom_nonempty sep cur s : splitFrom sep cur s <> [].
Proof.
  revert cur. induction s as [|c s IH]; intros cur; cbn [splitFrom]; [discriminate|].
  destruct (Ascii.eqb c sep); [discriminate | apply IH].
Qed.

Lemma join_splitFrom sep cur s : join [sep] (splitFrom sep cur s) = cur ++ s.
Proof.
  revert cur. induction s as [|c s IH]; intros cur.
  - cbn. rewrite app_nil_r. reflexivity.
  - cbn [splitFrom]. destruct (Ascii.eqb c sep) eqn:E.
    + apply Ascii.eqb_eq in E. subst c. cbn [join].
      pose proof (splitFrom_nonempty sep [] s) as Hn.
      destruct (splitFrom sep [] s) as [|y l] eqn:Es; [congruence|].
      rewrite <- Es, IH. reflexivity.
    + rewrite IH, <- app_assoc. reflexivity.
Qed.

Lemma splitFrom_segments_free sep cur s :
  existsb (Ascii.eqb sep) cur = false ->
  forallb (fun x => negb (existsb (Ascii.eqb sep) x)) (splitFrom sep cur s) = true.
Proof.
  revert cur. induction s as [|c s IH]; intros cur H.
  - cbn. rewrite H. reflexivity.
  - cbn [splitFrom]. destruct (Ascii.eqb c sep) eqn:E.
    + cbn [forallb]. rewrite H. apply IH. reflexivity.
    + apply IH. rewrite existsb_app, H. cbn. rewrite Ascii.eqb_sym, E. reflexivity.
Qed.

End Split.

(** X10: the keywords: splitting on commas loses nothing (joining the segments on
    commas gives the answer back, and no segment holds a comma), and for any
    non-empty list of comma-free keywords, however padded with whitespace, the
    manifests receive exactly those keywords, trimmed and quoted, in order *)
Theorem quotedKeywords_of_list (keywords : list ascii) (segs : list (list ascii)) :
  join (str ",") (split "," keywords) = keywords /\
  forallb (fun x => negb (existsb (Ascii.eqb ",") x)) (split "," keywords) = true /\
  (segs <> [] ->
   forallb (fun x => negb (existsb (Ascii.eqb ",") x)) segs = true ->
   Tokens.quotedKeywords (join (str ",") segs)
   = join (str ", ") (map (fun s => [Prompts.dq] ++ trim s ++ [Prompts.dq]) segs)).
Proof.
  split; [apply (join_splitFrom "," [] keywords)|].
  split; [apply splitFrom_segments_free; reflexivity|].
  intros Hn Hf. unfold Tokens.quotedKeywords.
  change (str ",") with [","]. rewrite split_join by assumption. reflexivity.
Qed.

Lemma quotedKeywords_of_list_witness :
  Tokens.quotedKeywords (join (str ",") [str " responsive "; str "modern theme"; []])
  = join (str ", ")
      (map (fun s => [Prompts.dq] ++ trim s ++ [Prompts.dq])
         [str " responsive "; str "modern theme"; []]).
Proof.
  apply (proj2 (proj2 (quotedKeywords_of_list []
           [str " responsive "; str "modern theme"; []])));
    [discriminate | reflexivity].
Defined.

(** ** Files the passes leave alone *)

Section Untouched.

Import Prompts Runtime Tokens Facts Effects.

Lemma anySuffix_cons P c s : anySuffix P (c :: s) = false -> P (c :: s) = false /\ anySuffix P s = false.
Proof. cbn [anySuffix]. intros H. apply orb_false_iff in H. exact H. Qed.

Lemma replaceStringFrom_absent pattern template pre s :
  anySuffix (isPrefix pattern) s = false ->
  replaceStringFrom pattern template pre s = s.
Proof.
  revert pre. induction s as [|c s IH]; intros pre H.
  - cbn in H. apply orb_false_iff in H as [H _]. cbn [replaceStringFrom]. rewrite H.
    reflexivity.
  - apply anySuffix_cons in H as [H1 H2]. cbn [replaceStringFrom]. rewrite H1, IH by exact H2.
    reflexivity.
Qed.

Lemma replaceAllFrom_absent lit template pre s :
  anySuffix (isPrefix lit) s = false ->
  replaceAllFrom lit template pre 0 s = s.
Proof.
  revert pre. induction s as [|c s IH]; intros pre H; [reflexivity|].
  apply anySuffix_cons in H as [H1 H2]. cbn [replaceAllFrom]. rewrite H1, IH by exact H2.
  reflexivity.
Qed.

Lemma replaceBetweenFrom_absent dotAll opening closing template pre s :
  anySuffix (Banner.isPrefixCI opening) s = false ->
  Banner.replaceBetweenFrom dotAll opening closing template pre 0 s = s.
Proof.
  revert pre. induction s as [|c s IH]; intros pre H; [reflexivity|].
  apply anySuffix_cons in H as [H1 H2]. cbn [Banner.replaceBetweenFrom].
  rewrite H1, IH by exact H2. reflexivity.
Qed.

Lemma applyPattern_absent p template contents :
  mayMatch p contents = false -> applyPattern p template contents = contents.
Proof.
  destruct p; cbn [mayMatch applyPattern]; intros H.
  - apply replaceStringFrom_absent, H.
  - apply replaceAllFrom_absent, H.
  - apply replaceBetweenFrom_absent, H.
Qed.

Lemma makeReplacements_absent from to i contents :
  existsb (fun p => mayMatch p contents) from = false ->
  makeReplacements from to i contents = contents.
Proof.
  revert i. induction from as [|p from IH]; intros i H; [reflexivity|].
  cbn [existsb] in H. apply orb_false_iff in H as [H1 H2].
  cbn [makeReplacements].
  assert (E : match to with
              | One s => applyPattern p s contents
              | Each l => match l !! i with
                          | Some s => applyPattern p s contents
                          | None => contents
                          end
              end = contents).
  { destruct to as [s | l]; [apply applyPattern_absent, H1|].
    destruct (l !! i); [apply applyPattern_absent, H1 | reflexivity]. }
  rewrite E. apply IH, H2.
Qed.

Lemma replaceInFile_absent cfg path w contents :
  files w !! path = Some contents ->
  existsb (fun p => mayMatch p contents) (from cfg) = false ->
  replaceInFile cfg path w
  = (Value tt, {| files := files w; trace := trace w ++ [ReplaceRead path] |}).
Proof.
  intros Hf Ha. unfold replaceInFile. rewrite Hf, (makeReplacements_absent _ _ _ _ Ha).
  rewrite bool_decide_eq_true_2 by reflexivity. reflexivity.
Qed.









End Untouched.

(** X11: for each of the five passes of the evolved script: a file in which no
    token of the pass has a place to match is read and left as it is, and no
    write takes place *)
Theorem pass_without_tokens
    (repoName : list ascii) (a : Answers) (cfg : Runtime.ReplaceConfig)
    (path contents : list ascii) (w : Runtime.World) :
  In cfg [EvolvedCli.metadataPass repoName a; EvolvedCli.styleKeywordsPass repoName a;
          EvolvedCli.manifestKeywordsPass repoName a; EvolvedCli.phpPass repoName a;
          EvolvedCli.readmePass repoName a] ->
  Runtime.files w !! path = Some contents ->
  existsb (fun p => Facts.mayMatch p contents) (Runtime.from cfg) = false ->
  Runtime.replaceInFile cfg path w
  = (Runtime.Value tt,
     {| Runtime.files := Runtime.files w;
        Runtime.trace := Runtime.trace w ++ [Runtime.ReplaceRead path] |}).
Proof. intros _ Hf Ha. exact (replaceInFile_absent cfg path w contents Hf Ha). Qed.

Lemma pass_without_tokens_witness :
  Runtime.replaceInFile (EvolvedCli.phpPass (str "t") defaultAnswers) (str "t/index.php")
    {| Runtime.files := {[ str "t/index.php" := str "<?php get_header(); ?>" ]};
       Runtime.trace := [] |}
  = (Runtime.Value tt,
     {| Runtime.files := {[ str "t/index.php" := str "<?php get_header(); ?>" ]};
        Runtime.trace := [] ++ [Runtime.ReplaceRead (str "t/index.php")] |}).
Proof.
  exact (pass_without_tokens (str "t") defaultAnswers
           (EvolvedCli.phpPass (str "t") defaultAnswers) (str "t/index.php")
           (str "<?php get_header(); ?>")
           {| Runtime.files := {[ str "t/index.php" := str "<?php get_header(); ?>" ]};
              Runtime.trace := [] |}
           ltac:(cbn [In]; tauto) ltac:(vm_compute; reflexivity)
           ltac:(vm_compute; reflexivity)).
Defined.

(** X12: the stylesheet pass has a string for a pattern, so only the first
    <theme_keywords> of style.css is replaced: what stands before it and
    everything after it, further tokens included, stays as it is (for a
    keywords answer without a reference such as $&) *)
Theorem style_keywords_first_only
    (repoName : list ascii) (a : Answers) (contents : list ascii) (i : nat) :
  Tokens.hasReference (keywords a) = false ->
  Tokens.indexOf (str "<theme_keywords>") contents = Some i ->
  Runtime.makeReplacements
    (Runtime.from (EvolvedCli.styleKeywordsPass repoName a))
    (Runtime.to (EvolvedCli.styleKeywordsPass repoName a)) 0 contents
  = take i contents ++ keywords a ++ drop (i + 16) contents.
Proof.
  intros Hk Hi. cbn [EvolvedCli.styleKeywordsPass Runtime.from Runtime.to
                     Runtime.makeReplacements Runtime.applyPattern].
  rewrite (replaceString_plain _ _ _ _ Hk Hi). reflexivity.
Qed.

Lemma style_keywords_first_only_witness :
  Runtime.makeReplacements
    (Runtime.from (EvolvedCli.styleKeywordsPass (str "t") defaultAnswers))
    (Runtime.to (EvolvedCli.styleKeywordsPass (str "t") defaultAnswers)) 0
    (str "Tags: <theme_keywords> / <theme_keywords>")
  = take 6 (str "Tags: <theme_keywords> / <theme_keywords>")
      ++ str "responsive, modern"
      ++ drop (6 + 16) (str "Tags: <theme_keywords> / <theme_keywords>").
Proof.
  apply (style_keywords_first_only (str "t") defaultAnswers
           (str "Tags: <theme_keywords> / <theme_keywords>") 6);
    vm_compute; reflexivity.
Defined.



(** ** Manifest promotion, file by file *)

Section PromotionFacts.

Import Prompts Runtime Effects Facts.

Variable repoName : list ascii.

Lemma bin_package_sample_distinct :
  BinCli.packageSample repoName <> BinCli.package repoName.
Proof.
  unfold BinCli.packageSample, BinCli.package. plain_paths.
  intros E. apply app_inv_head in E. discriminate E.
Qed.

Lemma bin_promotePackage_run w :
  exists evs,
    BinCli.promotePackage repoName w
    = (Value tt, {| files := promotedPackage repoName (files w);
                    trace := trace w ++ evs |}) /\
    (In (ConsoleError
           (str "Unable to generate new package.json from package-sample.json")) evs
     <-> promotedPackage repoName (files w) = files w).
Proof.
  unfold BinCli.promotePackage, tryCatch, bind, fsAccess, fsRm, fsRename,
    consoleLog, consoleError, emit, promotedPackage.
  destruct (files w !! BinCli.packageSample repoName) as [sample|] eqn:Hs;
    cbn [files trace].
  - destruct (files w !! BinCli.package repoName) as [manifest|] eqn:Hm;
      cbn [files trace].
    + rewrite lookup_delete_ne by (apply not_eq_sym, bin_package_sample_distinct).
      rewrite Hs. eexists. split; [reflexivity|]. cbn [In]. split; [intros [H | []]; discriminate H|].
      intros E. exfalso.
      assert (H : (<[BinCli.package repoName:=sample]>
                     (delete (BinCli.packageSample repoName)
                        (delete (BinCli.package repoName) (files w))))
                  !! BinCli.packageSample repoName = Some sample)
        by (rewrite E; exact Hs).
      rewrite lookup_insert_ne in H by (apply not_eq_sym, bin_package_sample_distinct).
      rewrite lookup_delete_eq in H. discriminate H.
    + eexists. rewrite <- app_assoc. split; [reflexivity|]. cbn [In app]. tauto.
  - eexists. split; [reflexivity|]. cbn [In]. tauto.
Qed.

(** the paths of the composer manifests are not those of the package pair *)
Lemma composer_paths_distinct p :
  In p [EvolvedCli.composer repoName; EvolvedCli.composerSample repoName;
        EvolvedCli.composerIncludes repoName; EvolvedCli.composerIncludesSample repoName] ->
  p <> EvolvedCli.package repoName /\ p <> EvolvedCli.packageSample repoName.
Proof.
  unfold EvolvedCli.composer, EvolvedCli.composerSample, EvolvedCli.composerIncludes,
    EvolvedCli.composerIncludesSample, EvolvedCli.package, EvolvedCli.packageSample.
  plain_paths. cbn [In].
  intros [<- | [<- | [<- | [<- | []]]]]; split; intros E;
    apply app_inv_head in E; discriminate E.
Qed.

Lemma promoteManifests_with_package w manifest :
  files w !! EvolvedCli.package repoName = Some manifest ->
  exists evs,
    EvolvedCli.promoteManifests repoName w
    = (Value tt,
       {| files :=
            match files w !! EvolvedCli.packageSample repoName with
            | Some sample =>
              <[EvolvedCli.package repoName := sample]>
                (delete (EvolvedCli.packageSample repoName)
                   (delete (EvolvedCli.package repoName) (files w)))
            | None => files w
            end;
          trace := trace w ++ evs |}).
Proof.
  intros Hm. destruct (files w !! EvolvedCli.packageSample repoName) as [sample|] eqn:Hs.
  - eexists. apply (composer_skipped_after_package repoName w sample manifest Hs Hm).
  - unfold EvolvedCli.promoteManifests.
    rewrite (bind_value _ _ _ _ _ (promotePackage_sample_absent repoName w Hs)).
    unfold EvolvedCli.promoteComposer, tryCatch, bind, fsAccess, consoleError, emit.
    cbn [files trace]. rewrite Hs. cbn [files trace]. rewrite <- app_assoc.
    eexists. reflexivity.
Qed.

Lemma composer_distinct :
  EvolvedCli.composerSample repoName <> EvolvedCli.composer repoName.
Proof.
  unfold EvolvedCli.composerSample, EvolvedCli.composer. plain_paths.
  intros E. apply app_inv_head in E. discriminate E.
Qed.

End PromotionFacts.

(** X14: the manifest promotion of [bin/cli.js] always returns; it replaces
    package.json by the sample exactly when both files are there, otherwise it
    changes no file; and it reports an error exactly when it changed nothing *)
Theorem bin_promotePackage_outcome (repoName : list ascii) (w : Runtime.World) :
  exists evs,
    BinCli.promotePackage repoName w
    = (Runtime.Value tt,
       {| Runtime.files := Facts.promotedPackage repoName (Runtime.files w);
          Runtime.trace := Runtime.trace w ++ evs |}) /\
    (In (Runtime.ConsoleError
           (str "Unable to generate new package.json from package-sample.json")) evs
     <-> Facts.promotedPackage repoName (Runtime.files w) = Runtime.files w) /\
    (forall p, p <> BinCli.package repoName -> p <> BinCli.packageSample repoName ->
       Facts.promotedPackage repoName (Runtime.files w) !! p = Runtime.files w !! p).
Proof.
  destruct (bin_promotePackage_run repoName w) as (evs & E & L).
  exists evs. split; [exact E|]. split; [exact L|].
  intros p Hp Hs. unfold Facts.promotedPackage.
  destruct (Runtime.files w !! BinCli.packageSample repoName); [|reflexivity].
  destruct (Runtime.files w !! BinCli.package repoName); [|reflexivity].
  rewrite lookup_insert_ne by congruence.
  rewrite !lookup_delete_ne by congruence. reflexivity.
Qed.

(** X15: in the evolved script, a clone that holds package.json keeps every file
    other than package.json and package-sample.json as cloned through the
    manifest promotion: the composer manifests and their samples among them *)
Theorem composer_untouched_with_package
    (repoName manifest : list ascii) (w : Runtime.World) :
  Runtime.files w !! EvolvedCli.package repoName = Some manifest ->
  (forall p, p <> EvolvedCli.package repoName -> p <> EvolvedCli.packageSample repoName ->
     Runtime.files (snd (EvolvedCli.promoteManifests repoName w)) !! p
     = Runtime.files w !! p) /\
  (forall p,
     In p [EvolvedCli.composer repoName; EvolvedCli.composerSample repoName;
           EvolvedCli.composerIncludes repoName;
           EvolvedCli.composerIncludesSample repoName] ->
     Runtime.files (snd (EvolvedCli.promoteManifests repoName w)) !! p
     = Runtime.files w !! p).
Proof.
  intros Hm.
  destruct (promoteManifests_with_package repoName w manifest Hm) as (evs & E).
  assert (H : forall p, p <> EvolvedCli.package repoName ->
                p <> EvolvedCli.packageSample repoName ->
                Runtime.files (snd (EvolvedCli.promoteManifests repoName w)) !! p
                = Runtime.files w !! p).
  { intros p Hp Hs. rewrite E. cbn [snd Runtime.files].
    destruct (Runtime.files w !! EvolvedCli.packageSample repoName); [|reflexivity].
    rewrite lookup_insert_ne by congruence.
    rewrite !lookup_delete_ne by congruence. reflexivity. }
  split; [exact H|].
  intros p Hin. destruct (composer_paths_distinct repoName p Hin) as [Hp Hs].
  apply H; assumption.
Qed.

Lemma composer_untouched_with_package_witness :
  Runtime.files
    (snd (EvolvedCli.promoteManifests (str "t")
            {| Runtime.files := Samples.clonedManifests (str "t"); Runtime.trace := [] |}))
    !! EvolvedCli.composer (str "t")
  = Runtime.files
      {| Runtime.files := Samples.clonedManifests (str "t"); Runtime.trace := [] |}
      !! EvolvedCli.composer (str "t").
Proof.
  refine (proj2 (composer_untouched_with_package (str "t") (str "package")
                   {| Runtime.files := Samples.clonedManifests (str "t");
                      Runtime.trace := [] |} _)
            (EvolvedCli.composer (str "t")) _).
  - vm_compute. reflexivity.
  - cbn [In]. tauto.
Defined.

(** X16: the composer block of the evolved script deletes before it renames and
    does not restore: when it runs (a package sample but no package.json) on a
    clone with composer.json and without composer-sample.json, composer.json
    is gone afterwards and the failure is only logged *)
Theorem composer_deleted_without_sample
    (repoName sample manifest : list ascii) (w : Runtime.World) :
  Runtime.files w !! EvolvedCli.packageSample repoName = Some sample ->
  Runtime.files w !! EvolvedCli.package repoName = None ->
  Runtime.files w !! EvolvedCli.composer repoName = Some manifest ->
  Runtime.files w !! EvolvedCli.composerSample repoName = None ->
  EvolvedCli.promoteManifests repoName w
  = (Runtime.Value tt,
     {| Runtime.files := delete (EvolvedCli.composer repoName) (Runtime.files w);
        Runtime.trace := Runtime.trace w ++
          [Runtime.ConsoleLog
             (Prompts.nl :: str "Generating new package.json from package-sample.json");
           Runtime.ConsoleError
             (str "Unable to generate new package.json from package-sample.json");
           Runtime.ConsoleLog
             (Prompts.nl
                :: str "Generating new composer.json's from composer-sample.json's");
           Runtime.ConsoleError (str "Unable to generate new composer.json's")] |}).
Proof.
  intros Hs Hm Hc Hcs. unfold EvolvedCli.promoteManifests.
  rewrite (bind_value _ _ _ _ _ (promotePackage_manifest_absent repoName w sample Hs Hm)).
  unfold EvolvedCli.promoteComposer, Runtime.tryCatch, Runtime.bind, Runtime.fsAccess,
    Runtime.fsRm, Runtime.fsRename, Runtime.consoleLog, Runtime.consoleError, Runtime.emit.
  cbn [Runtime.files Runtime.trace]. rewrite Hs. cbn [Runtime.files Runtime.trace].
  rewrite Hc. cbn [Runtime.files Runtime.trace].
  rewrite lookup_delete_ne by (apply not_eq_sym, composer_distinct).
  rewrite Hcs. cbn [Runtime.files Runtime.trace]. rewrite <- !app_assoc. reflexivity.
Qed.

Lemma composer_deleted_without_sample_witness :
  EvolvedCli.promoteManifests (str "t")
    {| Runtime.files :=
         <[EvolvedCli.packageSample (str "t") := str "sample"]>
           {[ EvolvedCli.composer (str "t") := str "composer" ]};
       Runtime.trace := [] |}
  = (Runtime.Value tt,
     {| Runtime.files :=
          delete (EvolvedCli.composer (str "t"))
            (Runtime.files
               {| Runtime.files :=
                    <[EvolvedCli.packageSample (str "t") := str "sample"]>
                      {[ EvolvedCli.composer (str "t") := str "composer" ]};
                  Runtime.trace := [] |});
        Runtime.trace :=
          Runtime.trace
            {| Runtime.files :=
                 <[EvolvedCli.packageSample (str "t") := str "sample"]>
                   {[ EvolvedCli.composer (str "t") := str "composer" ]};
               Runtime.trace := [] |} ++
          [Runtime.ConsoleLog
             (Prompts.nl :: str "Generating new package.json from package-sample.json");
           Runtime.ConsoleError
             (str "Unable to generate new package.json from package-sample.json");
           Runtime.ConsoleLog
             (Prompts.nl
                :: str "Generating new composer.json's from composer-sample.json's");
           Runtime.ConsoleError (str "Unable to generate new composer.json's")] |}).
Proof.
  refine (composer_deleted_without_sample (str "t") (str "sample") (str "composer")
            {| Runtime.files :=
                 <[EvolvedCli.packageSample (str "t") := str "sample"]>
                   {[ EvolvedCli.composer (str "t") := str "composer" ]};
               Runtime.trace := [] |} _ _ _ _);
    vm_compute; reflexivity.
Defined.

(** ** Whole runs *)

Section WholeRuns.

Import Prompts Runtime Effects Facts.

Variable globMatch : list ascii -> list ascii -> bool.
Variable shell : list ascii -> gmap (list ascii) (list ascii)
                 -> bool * gmap (list ascii) (list ascii).
Variable repoName : list ascii.
Variable a : Answers.

Lemma bin_clone_run w :
  exists evs,
    BinCli.clone shell repoName w
    = ((if fst (shell (BinCli.gitCheckout repoName) (files w))
        then Value tt else Exited (-1)),
       {| files := snd (shell (BinCli.gitCheckout repoName) (files w));
          trace := trace w ++ evs |}).
Proof.
  unfold BinCli.clone. erewrite bind_value by reflexivity.
  destruct (fst (shell (BinCli.gitCheckout repoName) (files w))) eqn:H.
  - erewrite bind_value by (apply runCommand_succeeds; exact H).
    cbn [negb when ret files trace]. rewrite <- app_assoc. eexists. reflexivity.
  - erewrite bind_value by (apply runCommand_fails; exact H).
    cbn [negb when processExit files trace]. rewrite <- app_assoc. eexists. reflexivity.
Qed.

Lemma bin_withoutSubstitution_run w :
  let cloned := shell (BinCli.gitCheckout repoName) (files w) in
  let installed :=
    shell (BinCli.installDeps repoName) (promotedPackage repoName (snd cloned)) in
  fst (BinCli.withoutSubstitution shell repoName w)
  = (if fst cloned then if fst installed then Value tt else Exited (-1)
     else Exited (-1)) /\
  files (snd (BinCli.withoutSubstitution shell repoName w))
  = (if fst cloned then snd installed else snd cloned).
Proof.
  cbv zeta. unfold BinCli.withoutSubstitution.
  destruct (bin_clone_run w) as (e1 & E1).
  destruct (fst (shell (BinCli.gitCheckout repoName) (files w))).
  - rewrite (bind_value _ _ _ _ _ E1).
    set (w1 := {| files := _; trace := _ |}).
    destruct (bin_promotePackage_run repoName w1) as (e2 & E2 & _).
    rewrite (bind_value _ _ _ _ _ E2).
    set (w2 := {| files := _; trace := _ |}).
    destruct (bin_install_run shell repoName w2) as [-> ->]. split; reflexivity.
  - rewrite (bind_exited _ _ _ _ _ E1). split; reflexivity.
Qed.

Lemma evolved_run_clone_fails w :
  fst (shell (EvolvedCli.gitCheckout repoName) (files w)) = false ->
  exists w',
    EvolvedCli.main globMatch shell repoName a w = (Exited (-1), w') /\
    trace w' = trace w ++
      [ConsoleLog (str "Cloning the template repository to " ++ [dq] ++ repoName ++ [dq]);
       ExecSync (EvolvedCli.gitCheckout repoName);
       ConsoleError (str "Failed to execute " ++ [dq]
                       ++ EvolvedCli.gitCheckout repoName ++ [dq]);
       ConsoleErrorValue (CommandFailed (EvolvedCli.gitCheckout repoName))].
Proof.
  intros H. unfold EvolvedCli.main, EvolvedCli.script.
  erewrite bind_value by reflexivity.
  erewrite bind_value by (apply runCommand_fails; exact H).
  cbn [negb when]. erewrite bind_exited by reflexivity.
  eexists. split; [reflexivity|]. cbn [trace]. rewrite <- app_assoc. reflexivity.
Qed.

End WholeRuns.

(** [bin/cli.js] with a directory argument *)
Lemma bin_main_outcome
    (globMatch : list ascii -> list ascii -> bool)
    (shell : list ascii -> gmap (list ascii) (list ascii)
             -> bool * gmap (list ascii) (list ascii))
    (repoName : list ascii) (a : Answers) (w : Runtime.World) :
  let cloned := shell (BinCli.gitCheckout repoName) (Runtime.files w) in
  let installed :=
    shell (BinCli.installDeps repoName)
      (Facts.promotedPackage repoName (snd cloned)) in
  fst (BinCli.main globMatch shell repoName a w)
  = (if fst cloned then if fst installed then Runtime.Value tt else Runtime.Exited (-1)
     else Runtime.Exited (-1)) /\
  Runtime.files (snd (BinCli.main globMatch shell repoName a w))
  = (if fst cloned then snd installed else snd cloned).
Proof.
  cbv zeta.
  destruct (bin_main_without_substitution globMatch shell repoName a w) as [-> ->].
  apply bin_withoutSubstitution_run.
Qed.

(** [bin/cli.js] without a directory argument *)
Lemma bin_run_undefined
    (globMatch : list ascii -> list ascii -> bool)
    (shell : list ascii -> gmap (list ascii) (list ascii)
             -> bool * gmap (list ascii) (list ascii))
    (a : Answers) (w : Runtime.World) :
  let command := BinCli.gitCheckout (str "undefined") in
  let cloned := shell command (Runtime.files w) in
  BinCli.run globMatch shell None a w
  = ((if fst cloned then Runtime.Thrown Runtime.invalidPathArgument
      else Runtime.Exited (-1)),
     {| Runtime.files := snd cloned;
        Runtime.trace := Runtime.trace w ++
          Runtime.ConsoleLog (str "Cloning the template repository to "
                                ++ [Prompts.dq] ++ str "undefined" ++ [Prompts.dq])
          :: Runtime.ExecSync command
          :: (if fst cloned then []
              else [Runtime.ConsoleError
                      (str "Failed to execute " ++ [Prompts.dq] ++ command ++ [Prompts.dq]);
                    Runtime.ConsoleErrorValue (Runtime.CommandFailed command)]) |}).
Proof.
  cbv zeta. unfold BinCli.run, BinCli.clone. cbn [Prompts.interpolate].
  destruct (fst (shell (BinCli.gitCheckout (str "undefined")) (Runtime.files w))) eqn:H.
  - erewrite bind_value;
      [|erewrite bind_value by reflexivity;
        erewrite bind_value by (apply runCommand_succeeds; exact H); reflexivity].
    unfold Runtime.throw. cbn [Runtime.files Runtime.trace].
    rewrite <- app_assoc. reflexivity.
  - erewrite bind_exited;
      [|erewrite bind_value by reflexivity;
        erewrite bind_value by (apply runCommand_fails; exact H); reflexivity].
    cbn [Runtime.files Runtime.trace]. rewrite <- app_assoc. reflexivity.
Qed.

(** X17: [bin/cli.js] as a function of its command line and of what the two
    commands do.  With a directory argument the run ends with
    [process.exit(-1)] when the clone fails or the install fails and returns
    otherwise, and the files at the end are those the install command leaves
    from the clone with its package manifest promoted.  Without one the clone
    goes to a directory named "undefined"; when it fails the run ends with
    [process.exit(-1)], and when it succeeds the run ends with the TypeError
    of [path.join], which nothing catches: the clone is the only command run,
    and nothing is promoted, substituted or installed. *)
Theorem bin_run_outcome
    (globMatch : list ascii -> list ascii -> bool)
    (shell : list ascii -> gmap (list ascii) (list ascii)
             -> bool * gmap (list ascii) (list ascii))
    (argv2 : option (list ascii)) (a : Answers) (w : Runtime.World) :
  let run := BinCli.run globMatch shell argv2 a w in
  match argv2 with
  | Some repoName =>
    let cloned := shell (BinCli.gitCheckout repoName) (Runtime.files w) in
    let installed :=
      shell (BinCli.installDeps repoName)
        (Facts.promotedPackage repoName (snd cloned)) in
    fst run
    = (if fst cloned then if fst installed then Runtime.Value tt else Runtime.Exited (-1)
       else Runtime.Exited (-1)) /\
    Runtime.files (snd run) = (if fst cloned then snd installed else snd cloned)
  | None =>
    let command := BinCli.gitCheckout (str "undefined") in
    let cloned := shell command (Runtime.files w) in
    fst run
    = (if fst cloned then Runtime.Thrown Runtime.invalidPathArgument
       else Runtime.Exited (-1)) /\
    Runtime.files (snd run) = snd cloned /\
    Runtime.trace (snd run)
    = Runtime.trace w ++
        Runtime.ConsoleLog (str "Cloning the template repository to "
                              ++ [Prompts.dq] ++ str "undefined" ++ [Prompts.dq])
        :: Runtime.ExecSync command
        :: (if fst cloned then []
            else [Runtime.ConsoleError
                    (str "Failed to execute " ++ [Prompts.dq] ++ command ++ [Prompts.dq]);
                  Runtime.ConsoleErrorValue (Runtime.CommandFailed command)])
  end.
Proof.
  destruct argv2 as [repoName|]; cbv zeta.
  - apply bin_main_outcome.
  - pose proof (bin_run_undefined globMatch shell a w) as E. cbv zeta in E.
    rewrite E. repeat split; reflexivity.
Qed.

(** the evolved script with a directory argument *)
Lemma evolved_main_outcome
    (globMatch : list ascii -> list ascii -> bool)
    (shell : list ascii -> gmap (list ascii) (list ascii)
             -> bool * gmap (list ascii) (list ascii))
    (repoName : list ascii) (a : Answers) (w : Runtime.World) :
  exists w' evs,
    EvolvedCli.main globMatch shell repoName a w
    = ((if fst (shell (EvolvedCli.gitCheckout repoName) (Runtime.files w))
        then Runtime.Thrown (Runtime.ReferenceError (str "toNumber"))
        else Runtime.Exited (-1)), w') /\
    Runtime.trace w' = Runtime.trace w ++ evs /\
    (forall command, In (Runtime.ExecSync command) evs ->
                     command = EvolvedCli.gitCheckout repoName).
Proof.
  destruct (fst (shell (EvolvedCli.gitCheckout repoName) (Runtime.files w))) eqn:H.
  - destruct (evolved_run_after_clone globMatch shell repoName a w H)
      as (w' & evs & E & T & O).
    eexists w', _. split; [exact E|]. split; [exact T|].
    intros command [Hin | [Hin | Hin]]; [discriminate Hin | congruence |].
    apply in_app_or in Hin as [Hin | [Hin | []]]; [|discriminate Hin].
    exfalso. exact (notExec_In _ _ O Hin).
  - destruct (evolved_run_clone_fails globMatch shell repoName a w H) as (w' & E & T).
    eexists w', _. split; [exact E|]. split; [exact T|].
    intros command [Hin | [Hin | [Hin | [Hin | []]]]]; try discriminate Hin.
    congruence.
Qed.

(** X18: no run of the evolved script returns, and none reaches the reset or the
    install.  Without a directory argument it ends when the module is loaded,
    with the TypeError of [path.join], before any prompt, message or command.
    With one it ends with [process.exit(-1)] when the clone fails and with the
    ReferenceError of [setTimer] when the clone succeeds, and the clone is the
    only command it runs. *)
Theorem evolved_run_outcome
    (globMatch : list ascii -> list ascii -> bool)
    (shell : list ascii -> gmap (list ascii) (list ascii)
             -> bool * gmap (list ascii) (list ascii))
    (argv2 : option (list ascii)) (a : Answers) (w : Runtime.World) :
  match argv2 with
  | Some repoName =>
    exists w' evs,
      EvolvedCli.run globMatch shell argv2 a w
      = ((if fst (shell (EvolvedCli.gitCheckout repoName) (Runtime.files w))
          then Runtime.Thrown (Runtime.ReferenceError (str "toNumber"))
          else Runtime.Exited (-1)), w') /\
      Runtime.trace w' = Runtime.trace w ++ evs /\
      (forall command, In (Runtime.ExecSync command) evs ->
                       command = EvolvedCli.gitCheckout repoName)
  | None =>
    EvolvedCli.run globMatch shell argv2 a w
    = (Runtime.Thrown Runtime.invalidPathArgument, w)
  end.
Proof.
  destruct argv2 as [repoName|]; [|reflexivity].
  apply evolved_main_outcome.
Qed.

(** ** Title case on its own outputs *)

Section TitleSpacing.

Import Reading.

Local Ltac all_chars c :=
  destruct c as [[] [] [] [] [] [] [] []]; vm_compute; try reflexivity; try discriminate; auto.

Lemma lower_classes c :
  isLowerAZ c = true ->
  isWordChar c = true /\ isWhiteSpace c = false /\
  isUpperAZ (toUpperCaseChar c) = true /\ isWhiteSpace (toUpperCaseChar c) = false.
Proof.
  destruct c as [[] [] [] [] [] [] [] []]; vm_compute; intros H; try discriminate H;
    repeat split; reflexivity.
Qed.

Lemma not_lower_toUpper c : isLowerAZ c = false -> toUpperCaseChar c = c.
Proof. all_chars c. Qed.

Lemma space_not_word c : isWhiteSpace c = true -> isWordChar c = false.
Proof. all_chars c. Qed.

Lemma toUpper_dash c : isDashUnderscore (toUpperCaseChar c) = isDashUnderscore c.
Proof. all_chars c. Qed.

Lemma upperCaseWordsFrom_cons bw c t :
  upperCaseWordsFrom bw (c :: t)
  = (if isLowerAZ c && negb bw then toUpperCaseChar c else c)
      :: upperCaseWordsFrom (isWordChar c) t.
Proof.
  cbn [upperCaseWordsFrom toUpperCase map]. destruct (isLowerAZ c) eqn:E.
  - destruct (lower_classes c E) as (-> & _). destruct bw; reflexivity.
  - rewrite (not_lower_toUpper c E). destruct (isWordChar c && negb bw); reflexivity.
Qed.

Lemma upperCaseWordsFrom_dash bw t :
  existsb isDashUnderscore (upperCaseWordsFrom bw t) = existsb isDashUnderscore t.
Proof.
  revert bw. induction t as [|c t IH]; intros bw; [reflexivity|].
  rewrite upperCaseWordsFrom_cons. cbn [existsb]. rewrite IH.
  destruct (isLowerAZ c && negb bw); rewrite ?toUpper_dash; reflexivity.
Qed.

(** the first three replacements of [stripCase] on a capitalised string *)
Lemma title_respaced t : forall bw bu bc,
  existsb isUpperAZ t = false -> hasDoubleSpace t = false -> hasOddSpace t = false ->
  (bc = true -> startsWithSpace t = false) ->
  (bw = false -> bu = false) ->
  runsToChar isWhiteSpace " " bc
    (spaceBeforeUpperRuns bu (upperCaseWordsFrom bw t))
  = respaced bc bw t.
Proof.
  induction t as [|c t IH]; intros bw bu bc Hu Hd Ho Hc Hb; [reflexivity|].
  cbn [existsb hasDoubleSpace hasOddSpace] in Hu, Hd, Ho.
  apply orb_false_iff in Hu as [Hu Hu'], Hd as [Hd Hd'], Ho as [Ho Ho'].
  rewrite upperCaseWordsFrom_cons. cbn [respaced].
  destruct (isLowerAZ c && negb bw) eqn:Hcap.
  - apply andb_true_iff in Hcap as [Hl Hw]. apply negb_true_iff in Hw. subst bw.
    destruct (lower_classes c Hl) as (Hwd & Hsp & Hup & Hus).
    cbn [spaceBeforeUpperRuns]. rewrite Hup, (Hb eq_refl). cbn [app runsToChar].
    replace (isWhiteSpace " ") with true by reflexivity.
    rewrite Hus, Hwd.
    rewrite (IH true true false) by (assumption || discriminate).
    destruct bc; reflexivity.
  - cbn [spaceBeforeUpperRuns]. rewrite Hu. cbn [runsToChar].
    destruct (isWhiteSpace c) eqn:Hsp.
    + destruct bc; [cbn in Hc; rewrite Hsp in Hc; specialize (Hc eq_refl); discriminate|].
      cbn [andb] in Hd. rewrite (space_not_word c Hsp).
      rewrite (IH false false true); auto.
      cbn [app]. f_equal. symmetry. apply space_not_odd; assumption.
    + rewrite (IH (isWordChar c) false false); auto; discriminate.
Qed.

Lemma respaced_spaced t : forall b bw,
  existsb isUpperAZ t = false ->
  capitalsAfterSpace b (upperCaseWordsFrom bw t) = true ->
  respaced b bw t = upperCaseWordsFrom bw t.
Proof.
  induction t as [|c t IH]; intros b bw Hu H; [reflexivity|].
  cbn [existsb] in Hu. apply orb_false_iff in Hu as [Hu Hu'].
  rewrite upperCaseWordsFrom_cons in H |- *. cbn [respaced capitalsAfterSpace] in H |- *.
  destruct (isLowerAZ c && negb bw) eqn:Hcap.
  - apply andb_true_iff in Hcap as [Hl Hw].
    destruct (lower_classes c Hl) as (Hwd & Hsp & Hup & Hus).
    rewrite Hup, Hus in H. apply andb_true_iff in H as [-> H].
    rewrite Hwd in *. cbn [app]. f_equal. apply IH; assumption.
  - rewrite Hu in H. cbn [andb] in H. f_equal. apply IH; assumption.
Qed.

Lemma respaced_length t : forall b bw, length t <= length (respaced b bw t).
Proof.
  induction t as [|c t IH]; intros b bw; [reflexivity|].
  cbn [respaced]. destruct (isLowerAZ c && negb bw).
  - rewrite length_app. cbn [length]. specialize (IH false true). lia.
  - cbn [length]. specialize (IH (isWhiteSpace c) (isWordChar c)). lia.
Qed.

Lemma respaced_longer t : forall b bw,
  existsb isUpperAZ t = false ->
  capitalsAfterSpace b (upperCaseWordsFrom bw t) = false ->
  length t < length (respaced b bw t).
Proof.
  induction t as [|c t IH]; intros b bw Hu H; [discriminate H|].
  cbn [existsb] in Hu. apply orb_false_iff in Hu as [Hu Hu'].
  rewrite upperCaseWordsFrom_cons in H. cbn [respaced capitalsAfterSpace] in H |- *.
  destruct (isLowerAZ c && negb bw) eqn:Hcap.
  - apply andb_true_iff in Hcap as [Hl Hw].
    destruct (lower_classes c Hl) as (Hwd & Hsp & Hup & Hus).
    rewrite Hup, Hus, Hwd in H. rewrite length_app. cbn [length].
    destruct b.
    + cbn [andb] in H. specialize (IH false true Hu' H). cbn [length]. lia.
    + pose proof (respaced_length t false true). cbn [length]. lia.
  - rewrite Hu in H. cbn [andb] in H.
    cbn [length]. specialize (IH _ _ Hu' H). lia.
Qed.

Lemma trim_respaced bw t : trim (respaced false bw t) = trim (respaced true bw t).
Proof.
  destruct t as [|c t]; [reflexivity|]. cbn [respaced].
  destruct (isLowerAZ c && negb bw); reflexivity.
Qed.

Lemma startsWithSpace_respaced bw t :
  startsWithSpace t = false -> startsWithSpace (respaced true bw t) = false.
Proof.
  destruct t as [|c t]; [reflexivity|]. cbn [respaced startsWithSpace]. intros H.
  destruct (isLowerAZ c && negb bw) eqn:Hcap; [|exact H].
  apply andb_true_iff in Hcap as [Hl _].
  destruct (lower_classes c Hl) as (_ & _ & _ & Hus). exact Hus.
Qed.

Lemma endsWithSpace_app_cons a c b :
  endsWithSpace (a ++ c :: b) = endsWithSpace (c :: b).
Proof.
  unfold endsWithSpace. rewrite rev_app_distr. cbn [rev].
  destruct (rev b) as [|x y]; reflexivity.
Qed.

Lemma respaced_cons b bw c t : exists pre x rest,
  respaced b bw (c :: t) = pre ++ x :: rest /\
  isWhiteSpace x = isWhiteSpace c /\
  exists b' bw', rest = respaced b' bw' t.
Proof.
  cbn [respaced]. destruct (isLowerAZ c && negb bw) eqn:Hcap.
  - apply andb_true_iff in Hcap as [Hl _].
    destruct (lower_classes c Hl) as (_ & Hsp & _ & Hus).
    eexists _, _, _. split; [reflexivity|]. split; [congruence|].
    eexists _, _. reflexivity.
  - exists [], c, (respaced (isWhiteSpace c) (isWordChar c) t).
    split; [reflexivity|]. split; [reflexivity|]. eexists _, _. reflexivity.
Qed.

Lemma endsWithSpace_respaced t : forall b bw,
  endsWithSpace (respaced b bw t) = endsWithSpace t.
Proof.
  induction t as [|c t IH]; intros b bw; [reflexivity|].
  destruct (respaced_cons b bw c t) as (pre & x & rest & -> & Hx & b' & bw' & ->).
  rewrite endsWithSpace_app_cons.
  destruct t as [|c2 t].
  - cbn. exact Hx.
  - change (c :: c2 :: t) with ([c] ++ c2 :: t).
    rewrite (endsWithSpace_app_cons [c] c2 t), <- (IH b' bw').
    destruct (respaced_cons b' bw' c2 t) as (pre2 & x2 & rest2 & E & _).
    rewrite E. change (x :: pre2 ++ x2 :: rest2) with ((x :: pre2) ++ x2 :: rest2).
    rewrite !endsWithSpace_app_cons. reflexivity.
Qed.

(** [stripCase] on a capitalised output of [stripCase] *)
Lemma stripCase_upperCaseWords_respaced t :
  stripped t = true ->
  stripCase (upperCaseWords t) = toLowerCase (respaced true false t).
Proof.
  intros H. apply stripped_inv in H as (Hu & Hd & Ho & Hst & He & Hdd).
  rewrite stripCase_refines. unfold stripCaseSpec, upperCaseWords.
  rewrite (runsToChar_id isDashUnderscore)
    by (apply spaceBeforeUpperRuns_keeps;
        [reflexivity | rewrite upperCaseWordsFrom_dash; exact Hd]).
  rewrite (title_respaced t false false false)
    by (auto using hasUpper_AZ; discriminate).
  rewrite trim_respaced, trim_id; [reflexivity| |].
  - apply startsWithSpace_respaced, Hst.
  - rewrite endsWithSpace_respaced. exact He.
Qed.

Lemma titleCase_stripCase s : titleCase (stripCase s) = titleCase s.
Proof. unfold titleCase. rewrite stripCase_idempotent. reflexivity. Qed.

Lemma stripCase_titleCase_spaced s :
  capitalsAfterSpace true (titleCase s) = true ->
  stripCase (titleCase s) = stripCase s.
Proof.
  intros H.
  destruct (stripped_inv _ (stripCase_stripped s)) as (Hu & _).
  unfold titleCase. rewrite stripCase_upperCaseWords_respaced by apply stripCase_stripped.
  rewrite respaced_spaced by (first [apply hasUpper_AZ, Hu | exact H]).
  rewrite toLowerCase_upperCaseWordsFrom_any. apply toLowerCase_id, Hu.
Qed.

Lemma titleCase_spaced_fixed s :
  capitalsAfterSpace true (titleCase s) = true ->
  titleCase (titleCase s) = titleCase s.
Proof.
  intros H. unfold titleCase at 1.
  rewrite (stripCase_titleCase_spaced s H). reflexivity.
Qed.

Lemma titleCase_fixed_spaced s :
  titleCase (titleCase s) = titleCase s ->
  capitalsAfterSpace true (titleCase s) = true.
Proof.
  intros H.
  destruct (capitalsAfterSpace true (titleCase s)) eqn:E; [reflexivity|]. exfalso.
  destruct (stripped_inv _ (stripCase_stripped s)) as (Hu & _).
  apply (f_equal (@length ascii)) in H. revert H.
  unfold titleCase at 1. unfold titleCase at 1.
  rewrite stripCase_upperCaseWords_respaced by apply stripCase_stripped.
  unfold titleCase, upperCaseWords. rewrite !upperCaseWordsFrom_length.
  unfold toLowerCase. rewrite length_map.
  pose proof (respaced_longer (stripCase s) true false (hasUpper_AZ _ Hu) E).
  lia.
Qed.

End TitleSpacing.

(** ** The normal form of [stripCase] *)

Section NormalForm.

Import Reading.

Lemma lowered_toLower c : lowered c (toLowerCaseChar c).
Proof.
  unfold lowered.
  destruct c as [[] [] [] [] [] [] [] []];
    first [left; reflexivity | right; split; reflexivity].
Qed.

Lemma lowered_toLowerCase s : Forall2 lowered s (toLowerCase s).
Proof.
  induction s as [|c s IH]; [constructor|].
  constructor; [apply lowered_toLower | exact IH].
Qed.

Lemma spaceBeforeRunsOf_AZ b s :
  spaceBeforeRunsOf isUpperAZ b s = spaceBeforeUpperRuns b s.
Proof.
  revert b. induction s as [|c s IH]; intros b; [reflexivity|].
  cbn [spaceBeforeRunsOf spaceBeforeUpperRuns]. rewrite !IH. reflexivity.
Qed.

Lemma stripCaseOf_AZ s : stripCaseOf isUpperAZ s = stripCase s.
Proof.
  rewrite stripCase_refines. unfold stripCaseOf, stripCaseSpec.
  rewrite spaceBeforeRunsOf_AZ. reflexivity.
Qed.

Lemma hasUpper_classes s :
  hasUpper s = false ->
  existsb isUpperAZ s = false /\ existsb isLatin1Upper s = false.
Proof.
  unfold hasUpper. induction s as [|c s IH]; [split; reflexivity|].
  cbn [existsb]. intros H. apply orb_false_iff in H as [H1 H2].
  unfold isUpper in H1. apply orb_false_iff in H1 as [-> ->].
  exact (IH H2).
Qed.

End NormalForm.

(** C6 as stated fails when an uppercase letter is any capital: in "a", capital
    E with acute, "b" the capital is lowercased, and no space is put before it. *)
Lemma stripCase_latin1_capital :
  isUpper Reading.capitalEAcute = true /\
  stripCase ["a"; Reading.capitalEAcute; "b"] = ["a"; Reading.smallEAcute; "b"] /\
  Reading.stripCaseOf isUpper ["a"; Reading.capitalEAcute; "b"]
  = ["a"; " "; Reading.smallEAcute; "b"] /\
  stripCase ["a"; Reading.capitalEAcute; "b"]
  <> Reading.stripCaseOf isUpper ["a"; Reading.capitalEAcute; "b"].
Proof. repeat split; try reflexivity. vm_compute. discriminate. Qed.

(** C6, as the function has it: for every input string, [stripCase] yields a
    string with no letter A-Z and no capital letter of U+00C0..U+00DE, no
    underscore and no hyphen, whose only whitespace is single spaces (U+0020)
    between other characters, none leading, none trailing; it is the
    composition of: a space before each run of the letters A-Z (other
    capitals get none), underscore/hyphen runs to a space, whitespace
    collapsed, trimmed, lowercased; and its characters other than spaces are
    those of the input other than whitespace, underscores and hyphens, in the
    same order, each kept as it is or, if a capital, replaced by its small
    letter. *)
Theorem stripCase_normal_form (s : list ascii) :
  existsb isUpperAZ (stripCase s) = false /\
  existsb isLatin1Upper (stripCase s) = false /\
  hasDashUnderscore (stripCase s) = false /\
  hasOddSpace (stripCase s) = false /\
  startsWithSpace (stripCase s) = false /\
  endsWithSpace (stripCase s) = false /\
  hasDoubleSpace (stripCase s) = false /\
  stripCase s = Reading.stripCaseOf isUpperAZ s /\
  Forall2 Reading.lowered (Facts.content s) (Facts.content (stripCase s)).
Proof.
  destruct (stripped_inv _ (stripCase_stripped s)) as (Hu & Hd & Ho & Hs & He & Hdd).
  destruct (hasUpper_classes _ Hu) as [Ha Hl].
  repeat split; try assumption.
  - symmetry. apply stripCaseOf_AZ.
  - rewrite content_stripCase. apply lowered_toLowerCase.
Qed.

(** ** Idempotence of the case transformers *)

(** C7 as stated fails: "A.B" is an output of [titleCase], and [titleCase]
    turns it into "A. B". *)
Lemma titleCase_not_idempotent :
  titleCase (str "a.b") = str "A.B" /\
  titleCase (titleCase (str "a.b")) = str "A. B" /\
  titleCase (titleCase (str "a.b")) <> titleCase (str "a.b") /\
  titleCase (stripCase (titleCase (str "a.b"))) <> titleCase (str "a.b").
Proof. repeat split; try reflexivity; vm_compute; discriminate. Qed.

(** C7, as the functions have it: the case transformers are total and map the
    empty string to the empty string; [stripCase], [snakeCase] and
    [kebabCase] are fixed on their own outputs; [titleCase] after [stripCase]
    is [titleCase]; and [titleCase] leaves its output [titleCase s] unchanged
    exactly when every letter A-Z of that output stands at its start or
    directly after a space. *)
Theorem case_transformers_fixed :
  (stripCase [] = [] /\ titleCase [] = [] /\ snakeCase [] = [] /\
   titleSnakeCase [] = [] /\ kebabCase [] = []) /\
  (forall s, stripCase (stripCase s) = stripCase s) /\
  (forall s, snakeCase (snakeCase s) = snakeCase s) /\
  (forall s, kebabCase (kebabCase s) = kebabCase s) /\
  (forall s, titleCase (stripCase s) = titleCase s) /\
  (forall s, Reading.capitalsAfterSpace true (titleCase s) = true ->
     titleCase (titleCase s) = titleCase s) /\
  (forall s, titleCase (titleCase s) = titleCase s ->
     Reading.capitalsAfterSpace true (titleCase s) = true).
Proof.
  split; [repeat split; reflexivity|].
  split; [apply stripCase_idempotent|].
  split; [apply snakeCase_idempotent|].
  split; [apply kebabCase_idempotent|].
  split; [apply titleCase_stripCase|].
  split; [apply titleCase_spaced_fixed | apply titleCase_fixed_spaced].
Qed.

Lemma case_transformers_fixed_witness :
  titleCase (titleCase (str "fooBar, my-project_name 2"))
  = titleCase (str "fooBar, my-project_name 2").
Proof.
  apply (proj1 (proj2 (proj2 (proj2 (proj2 (proj2 case_transformers_fixed)))))
           (str "fooBar, my-project_name 2") eq_refl).
Defined.
